(** * textClust: a shallow embedding of [river/cluster/textclust.py]

    The development follows the Python class [textclust] and its nested
    classes [microcluster] and [distances].

    Numbers.  Python floats and ints that take part in float arithmetic are
    idealised as real numbers ([R]): [pow(2, x)] is [Rpower 2 x],
    [math.sqrt] is [sqrt], [math.log] is [ln].  Counters and identifiers
    are integers ([Z]).

    Containers.  A term-frequency dict [tf] is a [gmap string tfentry]
    (keys are unique; over [R] the order in which a loop sums the entries
    does not matter).  The dict [microclusters] is an ordered dict: an
    association list in insertion order, because the nearest-cluster
    search and the merge sweep break ties by that order.

    Effects.  A method of [microcluster] returns the mutated object(s); a
    method of [textclust] is a function [textclust -> textclust * result A]:
    a raised exception leaves the object in the state reached so far.

    Not modelled: rounding, overflow and NaN of binary floating point, the
    output of [print], and [showclusters], which only prints.  Over
    binary64 the code departs from the reals in more than rounding at four
    places, and the statements that depend on them say so in their
    hypotheses:
    - [pow(2, x)] raises [OverflowError] for [x >= 1024] (a fade to a time
      far before the time of the cluster, or a negative [_lambda]) and is
      [0.0] for [x < -1075]; [fade_value] is total;
    - [2 ** (-_lambda * tgap)] in [__init__] is [0.0] once
      [_lambda * tgap > 1074] and [1.0] when [_lambda * tgap] is below
      about [1.1e-16];
    - the squares and sums of [tfidf_cosine_distance] underflow to [0.0]
      or overflow for weights far from 1;
    - [squaresum / (counter - 1) - mu ** 2] in [_get_closest_mc], which is
      never negative over the reals for distances in [0, 1], can round
      below 0, and then [math.sqrt] raises [ValueError]. *)

From Stdlib Require Import Reals Lra Lia ZArith.
From stdpp Require Import gmap strings list fin_maps.

Open Scope R_scope.

(** ** Exceptions and results *)

Inductive exn : Set :=
  | KeyError | TypeError | ValueError | AttributeError
  | UnboundLocalError | RecursionError | IndexError | ZeroDivisionError.

Inductive result (A : Type) : Type :=
  | Ok (a : A)
  | Raise (e : exn).
Arguments Ok {A} a.
Arguments Raise {A} e.

Definition rbind {A B : Type} (r : result A) (k : A -> result B) : result B :=
  match r with
  | Ok a => k a
  | Raise e => Raise e
  end.

Notation "'try' x <- e ; k" := (rbind e (fun x => k))
  (at level 10, x pattern, e at level 100, k at level 200).

Definition is_ok {A : Type} (r : result A) : Prop :=
  match r with Ok _ => True | Raise _ => False end.

(** ** Comparisons on reals are decided (classically), as [<], [<=], [==] are
    on Python numbers. *)

#[global] Instance Rlt_decision (x y : R) : Decision (x < y) := Rlt_dec x y.
#[global] Instance Rle_decision (x y : R) : Decision (x <= y) := Rle_dec x y.
#[global] Instance Req_decision : EqDecision R := Req_dec_T.

(** [math.sqrt]: a negative argument raises [ValueError]. *)
Definition py_sqrt (x : R) : result R :=
  if decide (x < 0) then Raise ValueError else Ok (sqrt x).

(** [x / y] on Python numbers: a zero divisor raises. *)
Definition py_div (x y : R) : result R :=
  if decide (y = 0) then Raise ZeroDivisionError else Ok (x / y).

(** [round(x, ndigits)]: the nearest multiple of [10^-ndigits], ties to the
    even one. *)
Definition round_half_even (x : R) : Z :=
  let f := Zfloor x in
  let d := x - IZR f in
  if decide (d < 1 / 2) then f
  else if decide (1 / 2 < d) then (f + 1)%Z
  else if Z.even f then f else (f + 1)%Z.

Definition py_round (x : R) (ndigits : nat) : R :=
  IZR (round_half_even (x * 10 ^ ndigits)) / 10 ^ ndigits.

(** ** Ordered dicts keyed by integers (insertion order is kept) *)

Fixpoint dict_get {A : Type} (k : Z) (d : list (Z * A)) : option A :=
  match d with
  | [] => None
  | (k', v) :: d' => if decide (k = k') then Some v else dict_get k d'
  end.

(** [d[k] = v]: replaces the value in place, or appends a new entry. *)
Fixpoint dict_set {A : Type} (k : Z) (v : A) (d : list (Z * A)) : list (Z * A) :=
  match d with
  | [] => [(k, v)]
  | (k', v') :: d' =>
      if decide (k = k') then (k, v) :: d' else (k', v') :: dict_set k v d'
  end.

Fixpoint dict_del {A : Type} (k : Z) (d : list (Z * A)) : list (Z * A) :=
  match d with
  | [] => []
  | (k', v') :: d' =>
      if decide (k = k') then d' else (k', v') :: dict_del k d'
  end.

Definition dict_keys {A : Type} (d : list (Z * A)) : list Z := map fst d.
Definition dict_values {A : Type} (d : list (Z * A)) : list A := map snd d.

(** ** class microcluster *)

(** One entry of a [tf] dict: [{"tf": value, "ids": [...]}]. *)
Record tfentry : Type := mk_tfentry {
  tf_value : R;
  tf_ids : list (option Z)
}.

(** The fields of a micro-cluster object ([self.id], [self.weight], ...).
    A time is [None] when no timestamp was supplied. *)
Record microcluster : Type := mk_microcluster {
  mc_id : option Z;
  mc_weight : R;
  mc_time : option R;
  mc_tf : gmap string tfentry;
  mc_oldweight : R;
  mc_deltaweight : R;
  mc_realtime : option R;
  mc_textids : list (option Z);
  mc_n : Z
}.

(** [microcluster.__init__(tf, time, weight, realtime, textid, clusterid)] *)
Definition new_microcluster (tf : gmap string tfentry) (time : option R)
    (weight : R) (realtime : option R) (textid : option Z)
    (clusterid : option Z) : microcluster :=
  {| mc_id := clusterid; mc_weight := weight; mc_time := time; mc_tf := tf;
     mc_oldweight := 0; mc_deltaweight := 0; mc_realtime := realtime;
     mc_textids := [textid]; mc_n := 1 |}.

(** The scalar decay of [fade]: [w * pow(2, -_lambda * (tnow - time))]. *)
Definition fade_value (w _lambda tnow time : R) : R :=
  w * Rpower 2 (- _lambda * (tnow - time)).

(** One round of the term loop of [fade]: the faded entry, or nothing when
    the faded frequency is at or below [omega] ([del self.tf[k]]). *)
Definition fade_term (_lambda tnow time omega : R) (e : tfentry) : option tfentry :=
  let v := fade_value (tf_value e) _lambda tnow time in
  if decide (v <= omega) then None
  else Some {| tf_value := v; tf_ids := tf_ids e |}.

(** [microcluster.fade].  [tnow - self.time] raises [TypeError] when one of
    the two is [None]; it is evaluated before anything is assigned. *)
Definition fade (self : microcluster) (tnow : option R) (omega _lambda : R)
    (termfading : bool) (realtime : option R) : result microcluster :=
  match tnow, mc_time self with
  | Some tn, Some tm =>
      Ok {| mc_id := mc_id self;
            mc_weight := fade_value (mc_weight self) _lambda tn tm;
            mc_time := tnow;
            mc_tf := if termfading
                     then omap (fade_term _lambda tn tm omega) (mc_tf self)
                     else mc_tf self;
            mc_oldweight := mc_oldweight self;
            mc_deltaweight := mc_deltaweight self;
            mc_realtime := realtime;
            mc_textids := mc_textids self;
            mc_n := mc_n self |}
  | _, _ => Raise TypeError
  end.

(** The term loop of [merge]: a term of the source is added to the target's
    entry, or copied when the target has none. *)
Definition merge_entry (a b : tfentry) : option tfentry :=
  Some {| tf_value := tf_value a + tf_value b; tf_ids := tf_ids a ++ tf_ids b |}.

Definition merge_tf (self_tf other_tf : gmap string tfentry) : gmap string tfentry :=
  union_with merge_entry self_tf other_tf.

Definition set_merge_head (self other : microcluster) (realtime : option R) : microcluster :=
  {| mc_id := mc_id self;
     mc_weight := mc_weight self + mc_weight other;
     mc_time := mc_time self;
     mc_tf := mc_tf self;
     mc_oldweight := mc_oldweight self;
     mc_deltaweight := mc_deltaweight self;
     mc_realtime := realtime;
     mc_textids := mc_textids self ++ mc_textids other;
     mc_n := mc_n self |}.

Definition set_merge_tail (self other : microcluster) (t : option R) : microcluster :=
  {| mc_id := mc_id self;
     mc_weight := mc_weight self;
     mc_time := t;
     mc_tf := merge_tf (mc_tf self) (mc_tf other);
     mc_oldweight := mc_oldweight self;
     mc_deltaweight := mc_deltaweight self;
     mc_realtime := mc_realtime self;
     mc_textids := mc_textids self;
     mc_n := mc_n self |}.

(** [microcluster.merge]: returns the target, the source (which [merge]
    fades too) and the outcome.  The statements run in the order of the
    source: text ids, realtime, weight, [self.fade], [microcluster.fade],
    time, terms. *)
Definition merge (self other : microcluster) (t : option R) (omega _lambda : R)
    (termfading : bool) (realtime : option R)
    : microcluster * microcluster * result unit :=
  let self1 := set_merge_head self other realtime in
  match fade self1 t omega _lambda termfading realtime with
  | Raise e => (self1, other, Raise e)
  | Ok self2 =>
      match fade other t omega _lambda termfading realtime with
      | Raise e => (self2, other, Raise e)
      | Ok other2 => (set_merge_tail self2 other2 t, other2, Ok tt)
      end
  end.

(** What the weight-conservation property of the specification asks of a
    merge at time [t]: both weights faded to [t], then added. *)
Definition conserved_weight (wA tA wB tB _lambda t : R) : R :=
  fade_value wA _lambda t tA + fade_value wB _lambda t tB.

(** ** class distances *)

(** [tfidf_cosine_distance(mc, microcluster, idf)].  The first loop runs
    over the terms of [mc] and skips those without an idf entry; the second
    loop runs over the terms of [microcluster] and reads [idf[k]]
    unguarded, which raises [KeyError] for a term without an entry. *)
Definition cosine_loop1 (micro_tf : gmap string tfentry) (idf : gmap string R)
    (k : string) (e : tfentry) (acc : R * R) : R * R :=
  match idf !! k with
  | Some i =>
      (match micro_tf !! k with
       | Some e' => acc.1 + (tf_value e * i) * (tf_value e' * i)
       | None => acc.1
       end,
       acc.2 + tf_value e * i * tf_value e * i)
  | None => acc
  end.

Definition cosine_loop2 (idf : gmap string R)
    (k : string) (e : tfentry) (acc : result R) : result R :=
  try a <- acc;
  match idf !! k with
  | Some i => Ok (a + tf_value e * i * tf_value e * i)
  | None => Raise KeyError
  end.

Definition tfidf_cosine_distance (mc micro : microcluster) (idf : gmap string R)
    : result R :=
  let '(sum, tfidflen) := map_fold (cosine_loop1 (mc_tf micro) idf) (0, 0) (mc_tf mc) in
  let tfidflen := sqrt tfidflen in
  try microtfidflen <- map_fold (cosine_loop2 idf) (Ok 0) (mc_tf micro);
  let microtfidflen := sqrt microtfidflen in
  if decide (tfidflen = 0 \/ microtfidflen = 0) then Ok 1
  else Ok (py_round (1 - sum / (tfidflen * microtfidflen)) 10).

(** [distances.dist]: [getattr(self, self.type, lambda: ...)(m1, m2, idf)].
    The class has one metric.  The name [dist] resolves to the dispatcher
    itself, which then calls itself without end.  Any other name resolves
    to the attribute [type] (a string, not callable) or to the fallback
    lambda, which takes no argument: the call raises [TypeError].  The
    attributes that every Python object inherits are not told apart from
    unknown names; called with three arguments they yield no number
    either: most raise [TypeError] in the call, and the one that returns
    ([__subclasshook__], with [NotImplemented]) makes the first arithmetic
    on the distance raise it. *)
Definition dist (type : string) (m1 m2 : microcluster) (idf : gmap string R)
    : result R :=
  if decide (type = "tfidf_cosine_distance"%string) then tfidf_cosine_distance m1 m2 idf
  else if decide (type = "dist"%string) then Raise RecursionError
  else Raise TypeError.

(** ** class textclust *)

Record textclust : Type := mk_textclust {
  radius : R;
  _lambda : R;
  tgap : R;
  termfading : bool;
  num_macro : Z;
  realtimefading : bool;
  min_weight : R;
  auto_r : bool;
  auto_merge : bool;
  sigma : R;
  num_merged_obs : Z;
  t : option R;
  lastCleanup : option R;
  n : Z;
  omega : R;
  assignment : gmap Z Z;
  microclusters : list (Z * microcluster);
  clusterId : Z;
  microToMacro : option (list (Z * Z));
  upToDate : bool;
  realtime : option R;
  dist_mean : R;
  micro_distance : string;
  macro_distance : string
}.

(** [textclust.__init__]: nothing is checked; the metric names are stored. *)
Definition __init__ (radius _lambda tgap : R) (termfading realtimefading : bool)
    (micro_distance macro_distance : string) (num_macro : Z) (min_weight : R)
    (auto_r auto_merge : bool) (sigma : R) : result textclust :=
  Ok {| radius := radius; _lambda := _lambda; tgap := tgap;
        termfading := termfading; num_macro := num_macro;
        realtimefading := realtimefading; min_weight := min_weight;
        auto_r := auto_r; auto_merge := auto_merge; sigma := sigma;
        num_merged_obs := 0; t := None; lastCleanup := Some 0; n := 1;
        omega := Rpower 2 (-1 * _lambda * tgap);
        assignment := ∅; microclusters := []; clusterId := 0;
        microToMacro := None; upToDate := false; realtime := None;
        dist_mean := 0;
        micro_distance := micro_distance; macro_distance := macro_distance |}.

(** Assignments to the mutable attributes. *)
Definition set_microclusters (v : list (Z * microcluster)) (s : textclust) : textclust :=
  mk_textclust (radius s) (_lambda s) (tgap s) (termfading s) (num_macro s)
    (realtimefading s) (min_weight s) (auto_r s) (auto_merge s) (sigma s)
    (num_merged_obs s) (t s) (lastCleanup s) (n s) (omega s) (assignment s)
    v (clusterId s) (microToMacro s) (upToDate s) (realtime s)
    (dist_mean s) (micro_distance s) (macro_distance s).

Definition set_upToDate (v : bool) (s : textclust) : textclust :=
  mk_textclust (radius s) (_lambda s) (tgap s) (termfading s) (num_macro s)
    (realtimefading s) (min_weight s) (auto_r s) (auto_merge s) (sigma s)
    (num_merged_obs s) (t s) (lastCleanup s) (n s) (omega s) (assignment s)
    (microclusters s) (clusterId s) (microToMacro s) v (realtime s)
    (dist_mean s) (micro_distance s) (macro_distance s).

Definition set_t (v : option R) (s : textclust) : textclust :=
  mk_textclust (radius s) (_lambda s) (tgap s) (termfading s) (num_macro s)
    (realtimefading s) (min_weight s) (auto_r s) (auto_merge s) (sigma s)
    (num_merged_obs s) v (lastCleanup s) (n s) (omega s) (assignment s)
    (microclusters s) (clusterId s) (microToMacro s) (upToDate s) (realtime s)
    (dist_mean s) (micro_distance s) (macro_distance s).

Definition set_lastCleanup (v : option R) (s : textclust) : textclust :=
  mk_textclust (radius s) (_lambda s) (tgap s) (termfading s) (num_macro s)
    (realtimefading s) (min_weight s) (auto_r s) (auto_merge s) (sigma s)
    (num_merged_obs s) (t s) v (n s) (omega s) (assignment s)
    (microclusters s) (clusterId s) (microToMacro s) (upToDate s) (realtime s)
    (dist_mean s) (micro_distance s) (macro_distance s).

Definition set_n (v : Z) (s : textclust) : textclust :=
  mk_textclust (radius s) (_lambda s) (tgap s) (termfading s) (num_macro s)
    (realtimefading s) (min_weight s) (auto_r s) (auto_merge s) (sigma s)
    (num_merged_obs s) (t s) (lastCleanup s) v (omega s) (assignment s)
    (microclusters s) (clusterId s) (microToMacro s) (upToDate s) (realtime s)
    (dist_mean s) (micro_distance s) (macro_distance s).

Definition set_num_merged_obs (v : Z) (s : textclust) : textclust :=
  mk_textclust (radius s) (_lambda s) (tgap s) (termfading s) (num_macro s)
    (realtimefading s) (min_weight s) (auto_r s) (auto_merge s) (sigma s)
    v (t s) (lastCleanup s) (n s) (omega s) (assignment s)
    (microclusters s) (clusterId s) (microToMacro s) (upToDate s) (realtime s)
    (dist_mean s) (micro_distance s) (macro_distance s).

Definition set_dist_mean (v : R) (s : textclust) : textclust :=
  mk_textclust (radius s) (_lambda s) (tgap s) (termfading s) (num_macro s)
    (realtimefading s) (min_weight s) (auto_r s) (auto_merge s) (sigma s)
    (num_merged_obs s) (t s) (lastCleanup s) (n s) (omega s) (assignment s)
    (microclusters s) (clusterId s) (microToMacro s) (upToDate s) (realtime s)
    v (micro_distance s) (macro_distance s).

Definition set_assignment (v : gmap Z Z) (s : textclust) : textclust :=
  mk_textclust (radius s) (_lambda s) (tgap s) (termfading s) (num_macro s)
    (realtimefading s) (min_weight s) (auto_r s) (auto_merge s) (sigma s)
    (num_merged_obs s) (t s) (lastCleanup s) (n s) (omega s) v
    (microclusters s) (clusterId s) (microToMacro s) (upToDate s) (realtime s)
    (dist_mean s) (micro_distance s) (macro_distance s).

Definition set_clusterId (v : Z) (s : textclust) : textclust :=
  mk_textclust (radius s) (_lambda s) (tgap s) (termfading s) (num_macro s)
    (realtimefading s) (min_weight s) (auto_r s) (auto_merge s) (sigma s)
    (num_merged_obs s) (t s) (lastCleanup s) (n s) (omega s) (assignment s)
    (microclusters s) v (microToMacro s) (upToDate s) (realtime s)
    (dist_mean s) (micro_distance s) (macro_distance s).

Definition set_microToMacro (v : option (list (Z * Z))) (s : textclust) : textclust :=
  mk_textclust (radius s) (_lambda s) (tgap s) (termfading s) (num_macro s)
    (realtimefading s) (min_weight s) (auto_r s) (auto_merge s) (sigma s)
    (num_merged_obs s) (t s) (lastCleanup s) (n s) (omega s) (assignment s)
    (microclusters s) (clusterId s) v (upToDate s) (realtime s)
    (dist_mean s) (micro_distance s) (macro_distance s).

Definition set_mc_n (v : Z) (m : microcluster) : microcluster :=
  mk_microcluster (mc_id m) (mc_weight m) (mc_time m) (mc_tf m) (mc_oldweight m)
    (mc_deltaweight m) (mc_realtime m) (mc_textids m) v.

(** The methods of [textclust] thread the object and may raise. *)
Definition M (A : Type) : Type := textclust -> textclust * result A.

Definition ret {A : Type} (a : A) : M A := fun s => (s, Ok a).
Definition raise {A : Type} (e : exn) : M A := fun s => (s, Raise e).
Definition lift {A : Type} (r : result A) : M A := fun s => (s, r).
Definition get : M textclust := fun s => (s, Ok s).
Definition modify (f : textclust -> textclust) : M unit := fun s => (f s, Ok tt).
Definition bind {A B : Type} (m : M A) (k : A -> M B) : M B :=
  fun s =>
    match m s with
    | (s', Ok a) => k a s'
    | (s', Raise e) => (s', Raise e)
    end.

Notation "'do' x <- e ; k" := (bind e (fun x => k))
  (at level 10, x pattern, e at level 100, k at level 200).
Notation "e ;; k" := (bind e (fun _ => k))
  (at level 100, k at level 200, right associativity).

(** [self.microclusters[key]] handed to a method that mutates it in place. *)
Definition with_cluster {A : Type} (key : Z)
    (f : microcluster -> microcluster * result A) : M A :=
  fun s =>
    match dict_get key (microclusters s) with
    | None => (s, Raise KeyError)
    | Some m =>
        let '(m', r) := f m in
        (set_microclusters (dict_set key m' (microclusters s)) s, r)
    end.

(** *** _calculateIDF *)

(** The inner loop of the first pass: one more document for every term of
    [micro]. *)
Definition count_term (k : string) (e : tfentry) (result : gmap string Z)
    : gmap string Z :=
  match result !! k with
  | None => <[k := 1%Z]> result
  | Some c => <[k := (c + 1)%Z]> result
  end.

Definition count_terms (result : gmap string Z) (micro : microcluster)
    : gmap string Z :=
  map_fold count_term result (mc_tf micro).

(** The divisor [result[k]] is a count that the first pass made, at least 1. *)
Definition _calculateIDF (microclusters : list microcluster) : gmap string R :=
  let result := foldl count_terms ∅ microclusters in
  (fun c : Z => 1 + ln (IZR (Z.of_nat (length microclusters)) / IZR c)) <$> result.

(** *** _get_closest_mc *)

(** The local variables of the scan. *)
Record scan : Type := mk_scan {
  min_dist : R;
  smallest_key : option Z;
  sumdist : R;
  squaresum : R;
  counter : Z
}.

Definition scan_init : scan :=
  {| min_dist := 1; smallest_key := None; sumdist := 0; squaresum := 0;
     counter := 0 |}.

Definition scan_step (s : scan) (key : Z) (d : R) : scan :=
  {| min_dist := if decide (d < min_dist s) then d else min_dist s;
     smallest_key := if decide (d < min_dist s) then Some key else smallest_key s;
     sumdist := sumdist s + d;
     squaresum := squaresum s + d ^ 2;
     counter := (counter s + 1)%Z |}.

Fixpoint scan_loop (distance : string) (mc : microcluster) (idf : gmap string R)
    (l : list (Z * microcluster)) (s : scan) : result scan :=
  match l with
  | [] => Ok s
  | (key, m) :: l' =>
      try d <- dist distance mc m idf;
      scan_loop distance mc idf l' (scan_step s key d)
  end.

(** The acceptance threshold of the adaptive mode. *)
Definition adaptive_mu (s : scan) : R :=
  (sumdist s - min_dist s) / (IZR (counter s) - 1).

Definition adaptive_variance (s : scan) : R :=
  squaresum s / (IZR (counter s) - 1) - adaptive_mu s ^ 2.

Definition _get_closest_mc (self : textclust) (mc : microcluster)
    (idf : gmap string R) (distance : string) : result (option Z * R) :=
  try s <- scan_loop distance mc idf (microclusters self) scan_init;
  if auto_r self then
    if decide (1 < counter s)%Z then
      try sd <- py_sqrt (adaptive_variance s);
      let treshold := adaptive_mu s - sigma self * sd in
      Ok (if decide (min_dist s < treshold) then smallest_key s else None,
          min_dist s)
    else Ok (None, min_dist s)
  else
    Ok (if decide (min_dist s < radius self) then smallest_key s else None,
        min_dist s).

(** *** _updateweights *)

(** The first loop: the clusters are faded one after the other; when one
    fade raises, those before it stay faded. *)
Fixpoint fade_all (l : list (Z * microcluster)) (tnow : option R)
    (omega _lambda : R) (termfading : bool) (realtime : option R)
    : list (Z * microcluster) * result unit :=
  match l with
  | [] => ([], Ok tt)
  | (key, m) :: l' =>
      match fade m tnow omega _lambda termfading realtime with
      | Raise e => (l, Raise e)
      | Ok m' =>
          let '(l'', r) := fade_all l' tnow omega _lambda termfading realtime in
          ((key, m') :: l'', r)
      end
  end.

(** The second loop deletes a cluster whose weight is at or below [omega]
    or whose term dict is empty. *)
Definition evicted (omega : R) (kv : Z * microcluster) : Prop :=
  mc_weight kv.2 <= omega \/ size (mc_tf kv.2) = 0%nat.

#[global] Instance evicted_dec omega kv : Decision (evicted omega kv).
Proof. unfold evicted. apply _. Defined.

Definition evict (omega : R) (l : list (Z * microcluster)) : list (Z * microcluster) :=
  filter (fun kv => ~ evicted omega kv) l.

Definition _updateweights : M unit :=
  fun self =>
    let '(mcs, r) := fade_all (microclusters self) (t self) (omega self)
                       (_lambda self) (termfading self) (realtime self) in
    match r with
    | Raise e => (set_microclusters mcs self, Raise e)
    | Ok _ => (set_microclusters (evict (omega self) mcs) self, Ok tt)
    end.

(** *** _mergemicroclusters *)

(** The inner [while j < len(...)] loop for a fixed [i]: [ci] is the cluster
    at position [i], [rest] the clusters from position [j] on.  A cluster
    closer than [threshold] is merged into [ci] and deleted, which moves
    the next one to position [j]; otherwise [j] advances.  Returns the
    cluster at [i], the clusters kept after it, and the outcome. *)
Fixpoint merge_inner (distance : string) (idf : gmap string R) (threshold : R)
    (tnow : option R) (omega _lambda : R) (termfading : bool)
    (realtime : option R) (ci : microcluster) (rest : list (Z * microcluster))
    : microcluster * list (Z * microcluster) * result unit :=
  match rest with
  | [] => (ci, [], Ok tt)
  | (kj, cj) :: rest' =>
      match dist distance ci cj idf with
      | Raise e => (ci, rest, Raise e)
      | Ok m_dist =>
          if decide (m_dist < threshold) then
            match merge ci cj tnow omega _lambda termfading realtime with
            | (ci', cj', Raise e) => (ci', (kj, cj') :: rest', Raise e)
            | (ci', _, Ok _) =>
                merge_inner distance idf threshold tnow omega _lambda
                  termfading realtime ci' rest'
            end
          else
            let '(ci', kept, r) :=
              merge_inner distance idf threshold tnow omega _lambda
                termfading realtime ci rest' in
            (ci', (kj, cj) :: kept, r)
      end
  end.

(** The outer [while i < len(...)] loop: [l] holds the clusters from position
    [i] on.  Every round moves one position forward, so a fuel of
    [length l] rounds runs the loop to its end. *)
Fixpoint merge_outer (fuel : nat) (distance : string) (idf : gmap string R)
    (threshold : R) (tnow : option R) (omega _lambda : R) (termfading : bool)
    (realtime : option R) (l : list (Z * microcluster))
    : list (Z * microcluster) * result unit :=
  match fuel, l with
  | S fuel', (ki, ci) :: rest =>
      let '(ci', rest', r) :=
        merge_inner distance idf threshold tnow omega _lambda termfading
          realtime ci rest in
      match r with
      | Raise e => ((ki, ci') :: rest', Raise e)
      | Ok _ =>
          let '(rest'', r') :=
            merge_outer fuel' distance idf threshold tnow omega _lambda
              termfading realtime rest' in
          ((ki, ci') :: rest'', r')
      end
  | _, _ => (l, Ok tt)
  end.

Definition _mergemicroclusters : M unit :=
  fun self =>
    let idf := _calculateIDF (dict_values (microclusters self)) in
    match (if auto_r self
           then py_div (dist_mean self) (IZR (num_merged_obs self + 1))
           else Ok (radius self)) with
    | Raise e => (self, Raise e)
    | Ok threshold =>
        let '(mcs, r) :=
          merge_outer (length (microclusters self)) (micro_distance self) idf
            threshold (t self) (omega self) (_lambda self) (termfading self)
            (realtime self) (microclusters self) in
        (set_microclusters mcs self, r)
    end.

(** *** _cleanup *)

Definition set_deltaweight (m : microcluster) : microcluster :=
  mk_microcluster (mc_id m) (mc_weight m) (mc_time m) (mc_tf m) (mc_weight m)
    (mc_weight m - mc_oldweight m) (mc_realtime m) (mc_textids m) (mc_n m).

Definition _cleanup : M unit :=
  do self <- get;
  modify (set_lastCleanup (t self)) ;;
  _updateweights ;;
  modify (fun s => set_microclusters
                     (map (fun kv => (kv.1, set_deltaweight kv.2)) (microclusters s)) s) ;;
  (if auto_merge self then _mergemicroclusters else ret tt) ;;
  modify (set_dist_mean 0) ;;
  modify (set_num_merged_obs 0).

(** *** learn_one *)

(** [localdict[key] = {"tf": x[key], "ids": [id]}] for every key of [x]. *)
Definition wrap_terms (x : gmap string R) (id : option Z) : gmap string tfentry :=
  (fun v => {| tf_value := v; tf_ids := [id] |}) <$> x.

(** The body of [if len(ngrams) > 0:]; returns the local [clusterId]. *)
Definition process_observation (ngrams : gmap string tfentry) (id : option Z) : M Z :=
  do self <- get;
  let mc := new_microcluster ngrams (t self) 1 (realtime self) id
              (Some (clusterId self)) in
  let idf := _calculateIDF (dict_values (microclusters self)) in
  do found <- lift (_get_closest_mc self mc idf (micro_distance self));
  match found with
  | (Some c, min_dist) =>
      modify (fun s => set_num_merged_obs (num_merged_obs s + 1) s) ;;
      with_cluster c (fun m => (set_mc_n (mc_n m + 1) m, Ok tt)) ;;
      with_cluster c (fun m =>
        let '(m', _, r) := merge m mc (t self) (omega self) (_lambda self)
                             (termfading self) (realtime self) in
        (m', r)) ;;
      modify (fun s => set_assignment (<[n s := c]> (assignment s)) s) ;;
      modify (fun s => set_dist_mean (dist_mean s + min_dist) s) ;;
      ret c
  | (None, min_dist) =>
      modify (fun s => set_dist_mean (dist_mean s + min_dist) s) ;;
      let c := clusterId self in
      modify (fun s => set_assignment (<[n s := c]> (assignment s)) s) ;;
      modify (fun s => set_microclusters (dict_set c mc (microclusters s)) s) ;;
      modify (fun s => set_clusterId (clusterId s + 1) s) ;;
      ret c
  end.

(** [self.lastCleanup is None or self.t - self.lastCleanup >= self.tgap] *)
Definition cleanup_due : M bool :=
  fun self =>
    match lastCleanup self with
    | None => (self, Ok true)
    | Some lc =>
        match t self with
        | None => (self, Raise TypeError)
        | Some tn => (self, Ok (bool_decide (tgap self <= tn - lc)))
        end
    end.

(** [learn_one(x, time, id=...)].  [kwargs_id] is [None] when the call has no
    [id] keyword ([kwargs["id"]] raises), [Some v] for [id=v]; a falsy [v]
    ([None], [0]) becomes [None].  With an empty [x] the local [clusterId]
    is never bound and [return clusterId] raises. *)
Definition learn_one (x : gmap string R) (time : option R)
    (kwargs_id : option (option Z)) : M Z :=
  do id <- lift (match kwargs_id with
                 | None => Raise KeyError
                 | Some None => Ok None
                 | Some (Some i) => Ok (if decide (i = 0%Z) then None else Some i)
                 end);
  let ngrams := wrap_terms x id in
  modify (set_upToDate false) ;;
  modify (fun s => set_t (if realtimefading s then time else Some (IZR (n s))) s) ;;
  do bound <- (if decide (0 < size ngrams)%nat
               then do c <- process_observation ngrams id; ret (Some c)
               else ret None);
  do due <- cleanup_due;
  (if due then _cleanup else ret tt) ;;
  modify (fun s => set_n (n s + 1) s) ;;
  match bound with
  | Some c => ret c
  | None => raise UnboundLocalError
  end.

(** *** get_assignment and predict_one *)

(** The nearest-cluster loop; [best] is [None] for [float("inf")]. *)
Fixpoint nearest_loop (distance : string) (minw : R) (mc : microcluster)
    (idf : gmap string R) (l : list (Z * microcluster))
    (best : option R) (closest : option Z) : result (option Z) :=
  match l with
  | [] => Ok closest
  | (key, m) :: l' =>
      if decide (minw < mc_weight m) then
        try cur_dist <- dist distance mc m idf;
        if match best with
           | None => true
           | Some d => bool_decide (cur_dist < d)
           end
        then nearest_loop distance minw mc idf l' (Some cur_dist) (Some key)
        else nearest_loop distance minw mc idf l' best closest
      else nearest_loop distance minw mc idf l' best closest
  end.

(** [get_assignment(x, type)].  The class defines no [get_microToMacro]:
    the attribute lookup of the macro branch raises.  An empty [x] falls
    off the end of the function ([None]). *)
Definition get_assignment (x : gmap string tfentry) (type : string) : M (option Z) :=
  _updateweights ;;
  do self <- get;
  let idf := _calculateIDF (dict_values (microclusters self)) in
  if decide (0 < size x)%nat then
    let mc := new_microcluster x (Some 1) 1 (realtime self) None None in
    do assignment <- lift (nearest_loop (micro_distance self) (min_weight self)
                             mc idf (microclusters self) None None);
    if decide (type = "micro"%string) then ret assignment
    else raise AttributeError
  else ret None.

Definition predict_one (x : gmap string R) (type : string) : M (option Z) :=
  get_assignment (wrap_terms x None) type.

(** *** Reclustering: _get_distance_matrix, updateMacroClusters,
    get_macroclusters *)

(** The distances of the upper triangle, row by row, as the nested loops
    of [_get_distance_matrix] compute them. *)
Fixpoint row_dists (distance : string) (idf : gmap string R) (row : Z)
    (cr : microcluster) (cols : list (Z * microcluster))
    : result (list (Z * Z * R)) :=
  match cols with
  | [] => Ok []
  | (col, cc) :: cols' =>
      try d <- dist distance cr cc idf;
      try ds <- row_dists distance idf row cr cols';
      Ok ((row, col, d) :: ds)
  end.

Fixpoint pair_dists (distance : string) (idf : gmap string R)
    (clusters : list (Z * microcluster)) : result (list (Z * Z * R)) :=
  match clusters with
  | [] => Ok []
  | (row, cr) :: rest =>
      try ds <- row_dists distance idf row cr rest;
      try more <- pair_dists distance idf rest;
      Ok (ds ++ more)
  end.

(** The cell [(r, c)] of the data frame: the distance stored for the pair
    in either order, 0 where nothing was stored (the diagonal). *)
Definition matrix_cell (ds : list (Z * Z * R)) (r c : Z) : R :=
  match list_find (fun e : Z * Z * R =>
                     (e.1.1 = r /\ e.1.2 = c) \/ (e.1.1 = c /\ e.1.2 = r)) ds with
  | Some (_, (_, d)) => d
  | None => 0
  end.

Definition _get_distance_matrix (distance : string)
    (clusters : list (Z * microcluster)) : result (list (list R)) :=
  let idf := _calculateIDF (dict_values clusters) in
  let ids := dict_keys clusters in
  try ds <- pair_dists distance idf clusters;
  Ok (map (fun r => map (fun c => matrix_cell ds r c) ids) ids).

(** [{x: assigned_clusters[i] for i, x in enumerate(micros.keys())}] *)
Fixpoint label_keys (assigned : list Z) (i : nat) (keys : list Z)
    : result (list (Z * Z)) :=
  match keys with
  | [] => Ok []
  | x :: keys' =>
      match assigned !! i with
      | None => Raise IndexError
      | Some lab =>
          try more <- label_keys assigned (S i) keys';
          Ok ((x, lab) :: more)
      end
  end.

Section Reclustering.

(** [AgglomerativeClustering(n_clusters, linkage="complete",
    affinity="precomputed").fit(distm).labels_] of scikit-learn, which is
    not part of this program: the labels for a requested number of
    clusters and a distance matrix, or an exception. *)
Variable agglomerative : Z -> list (list R) -> result (list Z).

Definition updateMacroClusters : M unit :=
  do self0 <- get;
  if upToDate self0 then ret tt
  else
    _updateweights ;;
    do self <- get;
    let micros := filter (fun kv : Z * microcluster =>
                            min_weight self < mc_weight kv.2)
                    (microclusters self) in
    let numClusters := Z.min (num_macro self) (Z.of_nat (length micros)) in
    do assigned_clusters <-
      lift (if decide (1 < length micros)%nat then
              try distm <- _get_distance_matrix (macro_distance self) micros;
              agglomerative numClusters distm
            else Ok [1%Z]);
    do mapping <- lift (label_keys assigned_clusters 0 (dict_keys micros));
    modify (set_microToMacro (Some mapping)) ;;
    modify (set_upToDate true).

(** The loop of [get_macroclusters]: [macros[value]] is looked up first,
    then [self.microclusters[key]]; the merge changes both objects. *)
Fixpoint macro_loop (mapping : list (Z * Z)) (macros : list (Z * microcluster))
    : M (list (Z * microcluster)) :=
  match mapping with
  | [] => ret macros
  | (key, value) :: mapping' =>
      fun self =>
        match dict_get value macros with
        | None => (self, Raise KeyError)
        | Some target =>
            match dict_get key (microclusters self) with
            | None => (self, Raise KeyError)
            | Some source =>
                let '(target', source', r) :=
                  merge target source (t self) (omega self) (_lambda self)
                    (termfading self) (realtime self) in
                let self' :=
                  set_microclusters
                    (dict_set key source' (microclusters self)) self in
                match r with
                | Raise e => (self', Raise e)
                | Ok _ => macro_loop mapping' (dict_set value target' macros) self'
                end
            end
        end
  end.

Definition get_macroclusters : M (list (Z * microcluster)) :=
  updateMacroClusters ;;
  do self <- get;
  let numClusters :=
    Z.min (num_macro self) (Z.of_nat (length (microclusters self))) in
  let macros :=
    map (fun x => (x, new_microcluster ∅ (t self) 0 (realtime self) None (Some x)))
        (seqZ 0 numClusters) in
  match microToMacro self with
  | None => raise AttributeError
  | Some mapping => macro_loop mapping macros
  end.

End Reclustering.

(** * Notions used in the statements *)

(** The count of a term after one more document holds it. *)
Definition bump (o : option Z) : Z :=
  match o with None => 1%Z | Some c => (c + 1)%Z end.

(** Every count made by the first pass over [j] clusters lies in [1..j]. *)
Definition counts_bounded (j : Z) (result : gmap string Z) : Prop :=
  forall k c, result !! k = Some c -> (1 <= c <= j)%Z.

(** The sum of [f k x] over the entries of a dict. *)
Definition msum {A : Type} (f : string -> A -> R) (m : gmap string A) : R :=
  map_fold (fun k x acc => acc + f k x) 0 m.

(** An IDF table covers a term dict when it has an entry for each term. *)
Definition covered (idf : gmap string R) (m : gmap string tfentry) : Prop :=
  map_Forall (fun k _ => is_Some (idf !! k)) m.

(** Coverage is decidable: the term dict is finite. *)
#[global] Instance covered_dec idf m : Decision (covered idf m).
Proof. unfold covered. apply _. Defined.

(** The tf-idf vector of the specification: the value of term [k] is
    [tf * idf[k]], and 0 for a term without idf entry. *)
Definition tfidf_weight (idf : gmap string R) (k : string) (e : tfentry) : R :=
  match idf !! k with
  | Some i => tf_value e * i
  | None => 0
  end.

Definition tfidf_dot (idf : gmap string R) (a b : gmap string tfentry) : R :=
  msum (fun k e => match b !! k with
                   | Some e' => tfidf_weight idf k e * tfidf_weight idf k e'
                   | None => 0
                   end) a.

Definition tfidf_norm (idf : gmap string R) (a : gmap string tfentry) : R :=
  sqrt (msum (fun k e => tfidf_weight idf k e * tfidf_weight idf k e) a).

Definition cosine_similarity (idf : gmap string R) (a b : gmap string tfentry) : R :=
  tfidf_dot idf a b / (tfidf_norm idf a * tfidf_norm idf b).



(** The distances from [mc] to the clusters of a dict, in its order. *)
Fixpoint all_dists (distance : string) (mc : microcluster) (idf : gmap string R)
    (l : list (Z * microcluster)) : result (list R) :=
  match l with
  | [] => Ok []
  | (_, m) :: l' =>
      try d <- dist distance mc m idf;
      try ds <- all_dists distance mc idf l';
      Ok (d :: ds)
  end.

Definition Rsum (l : list R) : R := foldr Rplus 0 l.


(** The transient cluster that [learn_one] makes of an observation. *)
Definition observation (self : textclust) (ngrams : gmap string tfentry)
    (id : option Z) : microcluster :=
  new_microcluster ngrams (t self) 1 (realtime self) id (Some (clusterId self)).


(** The observation became a new live cluster under the next free id. *)
Definition created_new (self : textclust) (ngrams : gmap string tfentry)
    (id : option Z) (md : R) : Prop :=
  process_observation ngrams id self =
    (set_clusterId (clusterId self + 1)
       (set_microclusters
          (dict_set (clusterId self) (observation self ngrams id) (microclusters self))
          (set_assignment (<[n self := clusterId self]> (assignment self))
             (set_dist_mean (dist_mean self + md) self))),
     Ok (clusterId self)).

(** The store is one that failure-free calls produce: the keys of the dict
    are distinct, the current time is set and every live cluster carries a
    time. *)
Definition timed_store (self : textclust) : Prop :=
  NoDup (dict_keys (microclusters self)) /\
  is_Some (t self) /\
  Forall (fun kv : Z * microcluster => is_Some (mc_time kv.2)) (microclusters self).

(** The time that [learn_one] sets for the call. *)
Definition call_time (self : textclust) (time : option R) : option R :=
  if realtimefading self then time else Some (IZR (n self)).

(** The identifier that [learn_one] keeps for [id=v]: a falsy [v] gives
    [None]. *)
Definition keyword_id (v : option Z) : option Z :=
  match v with
  | None => None
  | Some i => if decide (i = 0%Z) then None else Some i
  end.

(** * Concrete objects used in the examples *)

(** The entry of a term seen with frequency [v] in the record [id]. *)
Definition entry (v : R) (id : Z) : tfentry :=
  {| tf_value := v; tf_ids := [Some id] |}.

(** A cluster made from one observation [{"a": 1}] at time [tm]. *)
Definition one_term_cluster (tm : R) (w : R) (id : Z) : microcluster :=
  new_microcluster {[ "a"%string := entry 1 id ]} (Some tm) w None (Some id) (Some 0%Z).

(** The seed of a macro-cluster in [get_macroclusters]: no term, weight 0. *)
Definition empty_cluster (tm : R) : microcluster :=
  new_microcluster ∅ (Some tm) 0 None None (Some 0%Z).

(** A transient cluster holding exactly the given terms. *)
Definition terms_cluster (tf : gmap string tfentry) : microcluster :=
  new_microcluster tf (Some 1) 1 None None None.

(** Single-term vectors and IDF tables over the terms [x] and [y]. *)
Definition vec_x : microcluster := terms_cluster {[ "x"%string := entry 1 1 ]}.
Definition idf_x : gmap string R := {[ "x"%string := 1 ]}.

(** A model with [_lambda = 1], a fixed radius of 1 and the given cleanup
    interval, as [__init__] builds it. *)
Definition fresh_model (tgap : R) (termfading : bool) (distance : string) : textclust :=
  {| radius := 1; _lambda := 1; tgap := tgap; termfading := termfading;
     num_macro := 3; realtimefading := false; min_weight := 0;
     auto_r := false; auto_merge := true; sigma := 1;
     num_merged_obs := 0; t := None; lastCleanup := Some 0; n := 1;
     omega := Rpower 2 (-1 * 1 * tgap);
     assignment := ∅; microclusters := []; clusterId := 0;
     microToMacro := None; upToDate := false; realtime := None;
     dist_mean := 0;
     micro_distance := distance; macro_distance := distance |}.

(** The store of [fresh_model] after [learn_one({"a": 1}, id=1)] when the
    cleanup interval is 1: one live cluster with id 0, made and last faded
    at time 1. *)
Definition model_after_one (termfading : bool) (distance : string) : textclust :=
  {| radius := 1; _lambda := 1; tgap := 1; termfading := termfading;
     num_macro := 3; realtimefading := false; min_weight := 0;
     auto_r := false; auto_merge := true; sigma := 1;
     num_merged_obs := 0; t := Some 1; lastCleanup := Some 1; n := 2;
     omega := / 2;
     assignment := {[ 1%Z := 0%Z ]};
     microclusters :=
       [(0%Z, mk_microcluster (Some 0%Z) 1 (Some 1) {[ "a"%string := entry 1 1 ]}
                1 1 None [Some 1%Z] 1)];
     clusterId := 1;
     microToMacro := None; upToDate := false; realtime := None;
     dist_mean := 0;
     micro_distance := distance; macro_distance := distance |}.

(** The store of [model_after_one] after a second observation with the same
    term, [learn_one({"a": 1}, id=2)]: it was merged into cluster 0 and the
    cleanup has run at time 2. *)
Definition model_after_merge : textclust :=
  {| radius := 1; _lambda := 1; tgap := 1; termfading := false;
     num_macro := 3; realtimefading := false; min_weight := 0;
     auto_r := false; auto_merge := true; sigma := 1;
     num_merged_obs := 0; t := Some 2; lastCleanup := Some 2; n := 3;
     omega := / 2;
     assignment := {[ 1%Z := 0%Z; 2%Z := 0%Z ]};
     microclusters :=
       [(0%Z, mk_microcluster (Some 0%Z) 1 (Some 2)
                {[ "a"%string := {| tf_value := 2; tf_ids := [Some 1%Z; Some 2%Z] |} ]}
                1 0 None [Some 1%Z; Some 2%Z] 2)];
     clusterId := 1;
     microToMacro := None; upToDate := false; realtime := None;
     dist_mean := 0;
     micro_distance := "tfidf_cosine_distance";
     macro_distance := "tfidf_cosine_distance" |}.

(** The store of a model with cleanup interval 3 after its first
    observation [learn_one({"a": 1}, id=1)]. *)
Definition model_between : textclust :=
  {| radius := 1; _lambda := 1; tgap := 3; termfading := false;
        num_macro := 3; realtimefading := false; min_weight := 0;
        auto_r := false; auto_merge := true; sigma := 1;
        num_merged_obs := 0; t := Some 1; lastCleanup := Some 0; n := 2;
        omega := / 8;
        assignment := {[ 1%Z := 0%Z ]};
        microclusters :=
          [(0%Z, mk_microcluster (Some 0%Z) 1 (Some 1) {[ "a"%string := entry 1 1 ]}
                   0 0 None [Some 1%Z] 1)];
        clusterId := 1;
        microToMacro := None; upToDate := false; realtime := None;
        dist_mean := 1;
        micro_distance := "tfidf_cosine_distance";
        macro_distance := "tfidf_cosine_distance" |}.

(** The store of a model with cleanup interval 3 after
    [learn_one({"a": 1}, id=1)] and [learn_one({"b": 1}, id=2)]: no cleanup
    has run, the first cluster is still at time 1 and the current time
    is 2. *)
Definition model_after_two : textclust :=
  {| radius := 1; _lambda := 1; tgap := 3; termfading := false;
     num_macro := 3; realtimefading := false; min_weight := 0;
     auto_r := false; auto_merge := true; sigma := 1;
     num_merged_obs := 0; t := Some 2; lastCleanup := Some 0; n := 3;
     omega := / 8;
     assignment := {[ 1%Z := 0%Z; 2%Z := 1%Z ]};
     microclusters :=
       [(0%Z, mk_microcluster (Some 0%Z) 1 (Some 1) {[ "a"%string := entry 1 1 ]}
                0 0 None [Some 1%Z] 1);
        (1%Z, mk_microcluster (Some 1%Z) 1 (Some 2) {[ "b"%string := entry 1 2 ]}
                0 0 None [Some 2%Z] 1)];
     clusterId := 2;
     microToMacro := None; upToDate := false; realtime := None;
     dist_mean := 2;
     micro_distance := "tfidf_cosine_distance";
     macro_distance := "tfidf_cosine_distance" |}.

(** A model with the adaptive threshold, [_lambda = 1] and cleanup
    interval 3, as [__init__] builds it. *)
Definition fresh_adaptive : textclust :=
  {| radius := 1; _lambda := 1; tgap := 3; termfading := false;
     num_macro := 3; realtimefading := false; min_weight := 0;
     auto_r := true; auto_merge := true; sigma := 1;
     num_merged_obs := 0; t := None; lastCleanup := Some 0; n := 1;
     omega := Rpower 2 (-1 * 1 * 3);
     assignment := ∅; microclusters := []; clusterId := 0;
     microToMacro := None; upToDate := false; realtime := None;
     dist_mean := 0;
     micro_distance := "tfidf_cosine_distance";
     macro_distance := "tfidf_cosine_distance" |}.

(** The store of [fresh_adaptive] after [learn_one({"a": 1}, id=1)]. *)
Definition adaptive_after_one : textclust :=
  {| radius := 1; _lambda := 1; tgap := 3; termfading := false;
     num_macro := 3; realtimefading := false; min_weight := 0;
     auto_r := true; auto_merge := true; sigma := 1;
     num_merged_obs := 0; t := Some 1; lastCleanup := Some 0; n := 2;
     omega := / 8;
     assignment := {[ 1%Z := 0%Z ]};
     microclusters :=
       [(0%Z, mk_microcluster (Some 0%Z) 1 (Some 1) {[ "a"%string := entry 1 1 ]}
                0 0 None [Some 1%Z] 1)];
     clusterId := 1;
     microToMacro := None; upToDate := false; realtime := None;
     dist_mean := 1;
     micro_distance := "tfidf_cosine_distance";
     macro_distance := "tfidf_cosine_distance" |}.

(** The store of [fresh_adaptive] after [learn_one({"a": 1}, id=1)] and
    [learn_one({"b": 1}, id=2)]: two live clusters, no cleanup so far. *)
Definition adaptive_after_two : textclust :=
  {| radius := 1; _lambda := 1; tgap := 3; termfading := false;
     num_macro := 3; realtimefading := false; min_weight := 0;
     auto_r := true; auto_merge := true; sigma := 1;
     num_merged_obs := 0; t := Some 2; lastCleanup := Some 0; n := 3;
     omega := / 8;
     assignment := {[ 1%Z := 0%Z; 2%Z := 1%Z ]};
     microclusters :=
       [(0%Z, mk_microcluster (Some 0%Z) 1 (Some 1) {[ "a"%string := entry 1 1 ]}
                0 0 None [Some 1%Z] 1);
        (1%Z, mk_microcluster (Some 1%Z) 1 (Some 2) {[ "b"%string := entry 1 2 ]}
                0 0 None [Some 2%Z] 1)];
     clusterId := 2;
     microToMacro := None; upToDate := false; realtime := None;
     dist_mean := 2;
     micro_distance := "tfidf_cosine_distance";
     macro_distance := "tfidf_cosine_distance" |}.

(** A model with the fixed radius 2, which [__init__] accepts, and cleanup
    interval 3. *)
Definition fresh_wide : textclust :=
  {| radius := 2; _lambda := 1; tgap := 3; termfading := false;
     num_macro := 3; realtimefading := false; min_weight := 0;
     auto_r := false; auto_merge := true; sigma := 1;
     num_merged_obs := 0; t := None; lastCleanup := Some 0; n := 1;
     omega := Rpower 2 (-1 * 1 * 3);
     assignment := ∅; microclusters := []; clusterId := 0;
     microToMacro := None; upToDate := false; realtime := None;
     dist_mean := 0;
     micro_distance := "tfidf_cosine_distance";
     macro_distance := "tfidf_cosine_distance" |}.

(** The store of [fresh_wide] after [learn_one({"a": 1}, id=1)]. *)
Definition wide_after_one : textclust :=
  {| radius := 2; _lambda := 1; tgap := 3; termfading := false;
     num_macro := 3; realtimefading := false; min_weight := 0;
     auto_r := false; auto_merge := true; sigma := 1;
     num_merged_obs := 0; t := Some 1; lastCleanup := Some 0; n := 2;
     omega := / 8;
     assignment := {[ 1%Z := 0%Z ]};
     microclusters :=
       [(0%Z, mk_microcluster (Some 0%Z) 1 (Some 1) {[ "a"%string := entry 1 1 ]}
                0 0 None [Some 1%Z] 1)];
     clusterId := 1;
     microToMacro := None; upToDate := false; realtime := None;
     dist_mean := 1;
     micro_distance := "tfidf_cosine_distance";
     macro_distance := "tfidf_cosine_distance" |}.

(** A stand-in for the external clusterer on paths that never call it. *)
Definition no_clusterer (n_clusters : Z) (distm : list (list R)) : result (list Z) :=
  Raise ValueError.


(** * Notions used in the further properties *)

(** The document frequency of a term: the number of clusters whose term
    dict holds it. *)
Definition doc_freq (k : string) (l : list microcluster) : Z :=
  Z.of_nat (length (filter (fun m => is_Some (mc_tf m !! k)) l)).

(** [c] is the key of the first cluster of the dict [l], in its order, at
    the smallest distance [md] from [mc]: the clusters before it are
    strictly farther, those after it are not closer. *)
Definition first_nearest (distance : string) (mc : microcluster)
    (idf : gmap string R) (l : list (Z * microcluster)) (c : Z) (md : R) : Prop :=
  exists l1 m l2,
    l = l1 ++ (c, m) :: l2 /\
    dist distance mc m idf = Ok md /\
    Forall (fun kv : Z * microcluster =>
              exists d, dist distance mc kv.2 idf = Ok d /\ md < d) l1 /\
    Forall (fun kv : Z * microcluster =>
              exists d, dist distance mc kv.2 idf = Ok d /\ md <= d) l2.

(** The clusters that [get_assignment] considers: those whose weight is
    above [min_weight], in the order of the dict. *)
Definition eligible (minw : R) (l : list (Z * microcluster)) : list (Z * microcluster) :=
  filter (fun kv : Z * microcluster => minw < mc_weight kv.2) l.

(** A cluster that has been brought to the time [tn] of the store: it
    carries that time and the store's real time, and with term fading no
    term weight is at or below [omega]. *)
Definition current (tn om : R) (tfad : bool) (rt : option R) (m : microcluster) : Prop :=
  mc_time m = Some tn /\ mc_realtime m = rt /\
  (tfad = true -> map_Forall (fun _ e => om < tf_value e) (mc_tf m)).

(** The sum of the weights of the live clusters. *)
Definition total_weight (l : list (Z * microcluster)) : R :=
  Rsum (map (fun kv : Z * microcluster => mc_weight kv.2) l).

(** A store of the fixed-radius mode that the calls of [learn_one] keep
    running on: the implemented metric, a decay rate that is not negative,
    distinct keys that are all below the next free id, and on every live
    cluster a time that is at most [bound]. *)
Definition well_formed (bound : R) (self : textclust) : Prop :=
  micro_distance self = "tfidf_cosine_distance"%string /\
  auto_r self = false /\
  0 <= _lambda self /\
  NoDup (dict_keys (microclusters self)) /\
  Forall (fun k => (k < clusterId self)%Z) (dict_keys (microclusters self)) /\
  Forall (fun kv : Z * microcluster =>
            exists tm, mc_time kv.2 = Some tm /\ tm <= bound) (microclusters self).


(** * Concrete objects used in the further examples *)

(** A model with real-time fading, as [__init__] builds it. *)
Definition realtime_model : textclust :=
  {| radius := 1; _lambda := 1; tgap := 1; termfading := false;
     num_macro := 3; realtimefading := true; min_weight := 0;
     auto_r := false; auto_merge := true; sigma := 1;
     num_merged_obs := 0; t := None; lastCleanup := Some 0; n := 1;
     omega := Rpower 2 (-1 * 1 * 1);
     assignment := ∅; microclusters := []; clusterId := 0;
     microToMacro := None; upToDate := false; realtime := None;
     dist_mean := 0;
     micro_distance := "tfidf_cosine_distance";
     macro_distance := "tfidf_cosine_distance" |}.

(** The store of [model_after_two] once [_updateweights] has run at time 2:
    the first cluster has been faded from time 1, to half its weight. *)
Definition model_two_faded : textclust :=
  {| radius := 1; _lambda := 1; tgap := 3; termfading := false;
     num_macro := 3; realtimefading := false; min_weight := 0;
     auto_r := false; auto_merge := true; sigma := 1;
     num_merged_obs := 0; t := Some 2; lastCleanup := Some 0; n := 3;
     omega := / 8;
     assignment := {[ 1%Z := 0%Z; 2%Z := 1%Z ]};
     microclusters :=
       [(0%Z, mk_microcluster (Some 0%Z) (/ 2) (Some 2) {[ "a"%string := entry 1 1 ]}
                0 0 None [Some 1%Z] 1);
        (1%Z, mk_microcluster (Some 1%Z) 1 (Some 2) {[ "b"%string := entry 1 2 ]}
                0 0 None [Some 2%Z] 1)];
     clusterId := 2;
     microToMacro := None; upToDate := false; realtime := None;
     dist_mean := 2;
     micro_distance := "tfidf_cosine_distance";
     macro_distance := "tfidf_cosine_distance" |}.

(** A clusterer that puts every row of the matrix into the group 0. *)
Definition one_group (n_clusters : Z) (distm : list (list R)) : result (list Z) :=
  Ok (map (fun _ => 0%Z) distm).

(** The store of [fresh_adaptive] after [learn_one({"a": 1}, id=1)] and
    [learn_one({"a": 1}, id=2)]: with a single live cluster the adaptive
    mode makes a new cluster of the second observation, so two live
    clusters hold the same term. *)
Definition adaptive_alike : textclust :=
  {| radius := 1; _lambda := 1; tgap := 3; termfading := false;
     num_macro := 3; realtimefading := false; min_weight := 0;
     auto_r := true; auto_merge := true; sigma := 1;
     num_merged_obs := 0; t := Some 2; lastCleanup := Some 0; n := 3;
     omega := / 8;
     assignment := {[ 1%Z := 0%Z; 2%Z := 1%Z ]};
     microclusters :=
       [(0%Z, mk_microcluster (Some 0%Z) 1 (Some 1) {[ "a"%string := entry 1 1 ]}
                0 0 None [Some 1%Z] 1);
        (1%Z, mk_microcluster (Some 1%Z) 1 (Some 2) {[ "a"%string := entry 1 2 ]}
                0 0 None [Some 2%Z] 1)];
     clusterId := 2;
     microToMacro := None; upToDate := false; realtime := None;
     dist_mean := 1;
     micro_distance := "tfidf_cosine_distance";
     macro_distance := "tfidf_cosine_distance" |}.

(** [adaptive_alike] once [_updateweights] has run at time 2: both clusters
    are at the current time. *)
Definition model_two_alike : textclust :=
  {| radius := 1; _lambda := 1; tgap := 3; termfading := false;
     num_macro := 3; realtimefading := false; min_weight := 0;
     auto_r := true; auto_merge := true; sigma := 1;
     num_merged_obs := 0; t := Some 2; lastCleanup := Some 0; n := 3;
     omega := / 8;
     assignment := {[ 1%Z := 0%Z; 2%Z := 1%Z ]};
     microclusters :=
       [(0%Z, mk_microcluster (Some 0%Z) (/ 2) (Some 2) {[ "a"%string := entry 1 1 ]}
                0 0 None [Some 1%Z] 1);
        (1%Z, mk_microcluster (Some 1%Z) 1 (Some 2) {[ "a"%string := entry 1 2 ]}
                0 0 None [Some 2%Z] 1)];
     clusterId := 2;
     microToMacro := None; upToDate := false; realtime := None;
     dist_mean := 1;
     micro_distance := "tfidf_cosine_distance";
     macro_distance := "tfidf_cosine_distance" |}.

(** * Properties *)

(** ** The decay factor *)


Lemma Rpower_2_0 : Rpower 2 0 = 1.
Proof. apply Rpower_O. lra. Qed.

Lemma Rpower_2_1 : Rpower 2 1 = 2.
Proof. apply Rpower_1. lra. Qed.

Lemma Rpower_2_opp_1 : Rpower 2 (- 1) = / 2.
Proof.
  replace (-1) with (Ropp 1) by lra.
  rewrite Rpower_Ropp, Rpower_2_1. reflexivity.
Qed.

Lemma Rpower_2_le_1 (x : R) : x <= 0 -> Rpower 2 x <= 1.
Proof.
  intros Hx. rewrite <- Rpower_2_0. apply Rle_Rpower; lra.
Qed.

Lemma Rpower_2_lt_1 (x : R) : x < 0 -> Rpower 2 x < 1.
Proof.
  intros Hx. rewrite <- Rpower_2_0. apply Rpower_lt; lra.
Qed.

Lemma fade_value_same_time (w l tm : R) : fade_value w l tm tm = w.
Proof.
  unfold fade_value. replace (- l * (tm - tm)) with 0 by lra.
  rewrite Rpower_2_0. lra.
Qed.

Lemma fade_value_le (w l t1 t2 : R) :
  0 <= w -> 0 <= l -> t1 < t2 -> fade_value w l t2 t1 <= w.
Proof.
  intros Hw Hl Ht. unfold fade_value.
  assert (Rpower 2 (- l * (t2 - t1)) <= 1) by (apply Rpower_2_le_1; nra).
  nra.
Qed.

Lemma fade_value_lt (w l t1 t2 : R) :
  0 < w -> 0 < l -> t1 < t2 -> fade_value w l t2 t1 < w.
Proof.
  intros Hw Hl Ht. unfold fade_value.
  assert (Rpower 2 (- l * (t2 - t1)) < 1) by (apply Rpower_2_lt_1; nra).
  nra.
Qed.

Lemma fade_weight (self self' : microcluster) (tn tm om l : R) tfad rt :
  mc_time self = Some tm ->
  fade self (Some tn) om l tfad rt = Ok self' ->
  mc_weight self' = fade_value (mc_weight self) l tn tm /\ mc_time self' = Some tn.
Proof.
  intros Htm. unfold fade. rewrite Htm. intros [= <-]. simpl. split; reflexivity.
Qed.

(** ** The weight of a merge *)

(** [merge] adds the two weights first and fades the sum from the target's
    own time. *)
Lemma merge_weight (a b : microcluster) (tA tB tn om l : R) tfad rt :
  mc_time a = Some tA -> mc_time b = Some tB ->
  exists a' b',
    merge a b (Some tn) om l tfad rt = (a', b', Ok tt) /\
    mc_weight a' = fade_value (mc_weight a + mc_weight b) l tn tA /\
    mc_weight b' = fade_value (mc_weight b) l tn tB.
Proof.
  intros Ha Hb. unfold merge, fade. simpl. rewrite Ha, Hb.
  eexists _, _. split; [reflexivity|]. simpl. split; reflexivity.
Qed.

(** C1.  The weight-conservation claim asks for
    [fade(wA, tA -> t) + fade(wB, tB -> t)]; [merge] computes
    [fade(wA + wB, tA -> t)].  At the input below (target of weight 1 last
    updated at time 1, source of weight 1 created at time 2, merged at
    time 2 with [_lambda = 1]) the merged weight is 1 where the claim asks
    for 3/2. *)
Theorem C1_merge_weight_at_failing_input :
  exists a' b',
    merge (one_term_cluster 1 1 1) (one_term_cluster 2 1 2) (Some 2) (/ 2) 1
      false None = (a', b', Ok tt) /\
    mc_weight a' = 1 /\
    conserved_weight 1 1 1 2 1 2 = 3 / 2 /\
    mc_weight a' <> conserved_weight 1 1 1 2 1 2.
Proof.
  destruct (merge_weight (one_term_cluster 1 1 1) (one_term_cluster 2 1 2)
              1 2 2 (/ 2) 1 false None eq_refl eq_refl)
    as (a' & b' & Hm & Ha & _).
  exists a', b'. split; [exact Hm|].
  assert (Hw : mc_weight a' = 1).
  { rewrite Ha. simpl. unfold fade_value.
    replace (- (1) * (2 - 1)) with (-1) by lra.
    rewrite Rpower_2_opp_1. lra. }
  assert (Hc : conserved_weight 1 1 1 2 1 2 = 3 / 2).
  { unfold conserved_weight, fade_value.
    replace (- (1) * (2 - 1)) with (-1) by lra.
    replace (- (1) * (2 - 2)) with 0 by lra.
    rewrite Rpower_2_opp_1, Rpower_2_0. lra. }
  repeat split; [exact Hw | exact Hc |]. rewrite Hw, Hc. lra.
Qed.

(** C8 (amended).  Fading a cluster last updated at [t1] to a later time
    [t2] multiplies its weight by [2^(-_lambda * (t2 - t1))]; for a
    non-negative weight and a non-negative decay rate the faded weight is
    at most the weight, and it is strictly smaller when the decay rate and
    the weight are both positive. *)
Theorem C8_fade_monotone (self : microcluster) (t1 t2 om l : R)
    (tfad : bool) (rt : option R) :
  mc_time self = Some t1 -> t1 < t2 -> 0 <= mc_weight self -> 0 <= l ->
  exists self',
    fade self (Some t2) om l tfad rt = Ok self' /\
    mc_weight self' = mc_weight self * Rpower 2 (- l * (t2 - t1)) /\
    mc_weight self' <= mc_weight self /\
    (0 < l -> 0 < mc_weight self -> mc_weight self' < mc_weight self).
Proof.
  intros Htm Ht Hw Hl. unfold fade. rewrite Htm.
  eexists. split; [reflexivity|]. simpl.
  split; [reflexivity|]. split.
  - apply fade_value_le; assumption.
  - intros Hl' Hw'. apply fade_value_lt; assumption.
Qed.

Lemma C8_fade_monotone_witness :
  exists self',
    fade (one_term_cluster 0 1 1) (Some 1) (/ 2) 1 true None = Ok self' /\
    mc_weight self' = 1 * Rpower 2 (- (1) * (1 - 0)) /\
    mc_weight self' <= 1 /\
    (0 < 1 -> 0 < 1 -> mc_weight self' < 1).
Proof.
  apply (C8_fade_monotone (one_term_cluster 0 1 1) 0 1 (/ 2) 1 true None);
    [reflexivity | lra | simpl; lra | lra].
Defined.

(** C8 as stated fails in two ways.  A weight of 0 is non-negative and
    stays 0 under a positive decay rate, so the faded weight is not
    strictly smaller; and under a negative decay rate the faded weight
    exceeds the weight. *)
Lemma C8_counterexample :
  (exists self',
     fade (empty_cluster 0) (Some 1) (/ 2) 1 true None = Ok self' /\
     0 <= mc_weight (empty_cluster 0) /\
     ~ mc_weight self' < mc_weight (empty_cluster 0)) /\
  (exists self',
     fade (one_term_cluster 0 1 1) (Some 1) (/ 2) (- 1) true None = Ok self' /\
     0 <= mc_weight (one_term_cluster 0 1 1) /\
     ~ mc_weight self' <= mc_weight (one_term_cluster 0 1 1)).
Proof.
  split.
  - eexists. split; [reflexivity|]. simpl. unfold fade_value. split; lra.
  - eexists. split; [reflexivity|]. simpl. unfold fade_value.
    match goal with |- context [Rpower 2 ?e] => replace e with 1 by lra end.
    rewrite Rpower_2_1. split; lra.
Qed.

(** ** The IDF table *)


Lemma count_terms_lookup (result : gmap string Z) (micro : microcluster) (k : string) :
  count_terms result micro !! k =
    match mc_tf micro !! k with
    | Some _ => Some (bump (result !! k))
    | None => result !! k
    end.
Proof.
  unfold count_terms. revert k.
  apply (map_fold_weak_ind
           (fun r (m : gmap string tfentry) =>
              forall k, r !! k = match m !! k with
                                 | Some _ => Some (bump (result !! k))
                                 | None => result !! k
                                 end)).
  - intros k. rewrite lookup_empty. reflexivity.
  - intros i x m r Hi IH k. unfold count_term.
    destruct (decide (i = k)) as [->|Hne].
    + rewrite lookup_insert_eq. specialize (IH k). rewrite Hi in IH. rewrite IH.
      destruct (result !! k); simpl; rewrite lookup_insert_eq; reflexivity.
    + rewrite (lookup_insert_ne m) by assumption. rewrite <- IH.
      destruct (r !! i); rewrite lookup_insert_ne by assumption; reflexivity.
Qed.


Lemma count_terms_bounded (j : Z) (result : gmap string Z) (micro : microcluster) :
  (0 <= j)%Z -> counts_bounded j result ->
  counts_bounded (j + 1) (count_terms result micro).
Proof.
  intros Hj Hb k c. rewrite count_terms_lookup.
  destruct (mc_tf micro !! k).
  - intros [= <-]. destruct (result !! k) as [c'|] eqn:Hk; simpl.
    + apply Hb in Hk. lia.
    + lia.
  - intros Hk. apply Hb in Hk. lia.
Qed.

Lemma foldl_count_terms_bounded (l : list microcluster) (j : Z) (result : gmap string Z) :
  (0 <= j)%Z -> counts_bounded j result ->
  counts_bounded (j + Z.of_nat (length l)) (foldl count_terms result l).
Proof.
  revert j result. induction l as [|m l IH]; intros j result Hj Hb; simpl.
  - replace (j + Z.of_nat 0)%Z with j by lia. exact Hb.
  - replace (j + Z.of_nat (S (length l)))%Z with ((j + 1) + Z.of_nat (length l))%Z by lia.
    apply IH; [lia|]. apply count_terms_bounded; assumption.
Qed.

(** A term of a counted cluster has a count. *)
Lemma count_terms_covers (result : gmap string Z) (micro : microcluster) (k : string) :
  is_Some (mc_tf micro !! k) \/ is_Some (result !! k) ->
  is_Some (count_terms result micro !! k).
Proof.
  rewrite count_terms_lookup. intros [[e He]|[c Hc]].
  - rewrite He. eauto.
  - destruct (mc_tf micro !! k); rewrite ?Hc; eauto.
Qed.

Lemma foldl_count_terms_covers (l : list microcluster) (result : gmap string Z) (k : string) :
  is_Some (result !! k) \/ (exists m, m ∈ l /\ is_Some (mc_tf m !! k)) ->
  is_Some (foldl count_terms result l !! k).
Proof.
  revert result. induction l as [|m l IH]; intros result H; simpl.
  - destruct H as [H|(m & Hm & _)]; [exact H|]. inversion Hm.
  - apply IH. destruct H as [H|(m' & Hm & Hk)].
    + left. apply count_terms_covers. right. exact H.
    + apply elem_of_cons in Hm as [->|Hm].
      * left. apply count_terms_covers. left. exact Hk.
      * right. exists m'. split; assumption.
Qed.

Lemma calculateIDF_lookup (mcs : list microcluster) (k : string) (v : R) :
  _calculateIDF mcs !! k = Some v ->
  exists c : Z, (1 <= c <= Z.of_nat (length mcs))%Z /\
    v = 1 + ln (IZR (Z.of_nat (length mcs)) / IZR c).
Proof.
  unfold _calculateIDF. rewrite lookup_fmap.
  destruct (foldl count_terms ∅ mcs !! k) as [c|] eqn:Hc; simpl; [|discriminate].
  intros [= <-]. exists c. split; [|reflexivity].
  pose proof (foldl_count_terms_bounded mcs 0 ∅) as Hb.
  replace (0 + Z.of_nat (length mcs))%Z with (Z.of_nat (length mcs)) in Hb by lia.
  apply (Hb ltac:(lia)) with (k := k); [|exact Hc].
  intros k' c'. rewrite lookup_empty. discriminate.
Qed.

(** The table has an entry for every term of every cluster it was made of. *)
Lemma calculateIDF_covers (mcs : list microcluster) (m : microcluster) (k : string) :
  m ∈ mcs -> is_Some (mc_tf m !! k) -> is_Some (_calculateIDF mcs !! k).
Proof.
  intros Hm Hk. unfold _calculateIDF. rewrite lookup_fmap.
  destruct (foldl_count_terms_covers mcs ∅ k) as [c Hc].
  - right. exists m. split; assumption.
  - rewrite Hc. simpl. eauto.
Qed.

Lemma idf_value_ge_1 (len c : Z) :
  (1 <= c <= len)%Z -> 1 <= 1 + ln (IZR len / IZR c).
Proof.
  intros [H1 H2].
  assert (Hc : 1 <= IZR c) by (apply IZR_le in H1; exact H1).
  assert (Hl : IZR c <= IZR len) by (apply IZR_le; exact H2).
  assert (Hq : 1 <= IZR len / IZR c).
  { apply Rmult_le_reg_r with (IZR c); [lra|].
    unfold Rdiv. rewrite Rmult_assoc, Rinv_l by lra. lra. }
  assert (0 <= ln (IZR len / IZR c)).
  { rewrite <- ln_1. destruct Hq as [Hq|<-]; [|lra].
    left. apply ln_increasing; lra. }
  lra.
Qed.

(** C10.  Every value of the IDF table computed over a set of clusters is at
    least 1; hence weighting a term frequency by it keeps the sign of the
    frequency and never turns a non-zero frequency into zero. *)
Theorem C10_idf_at_least_one (mcs : list microcluster) (k : string) (v : R) :
  _calculateIDF mcs !! k = Some v ->
  1 <= v /\
  forall x : R,
    (0 < x -> 0 < x * v) /\ (x < 0 -> x * v < 0) /\ (x <> 0 -> x * v <> 0).
Proof.
  intros Hk. apply calculateIDF_lookup in Hk as (c & Hc & ->).
  pose proof (idf_value_ge_1 _ _ Hc) as Hv.
  split; [exact Hv|]. intros x. repeat split; intros Hx; nra.
Qed.

(** ** Sums over dicts *)

Section MSum.
Context {A : Type}.
Implicit Types (f g : string -> A -> R) (m : gmap string A).

Lemma msum_empty f : msum f (∅ : gmap string A) = 0.
Proof. unfold msum. apply map_fold_empty. Qed.

Lemma msum_insert f m i x :
  m !! i = None -> msum f (<[i:=x]> m) = msum f m + f i x.
Proof.
  intros Hi. unfold msum.
  rewrite map_fold_insert_L; [reflexivity| |exact Hi].
  intros. lra.
Qed.

Lemma msum_singleton f i x : msum f ({[i := x]} : gmap string A) = f i x.
Proof.
  rewrite <- insert_empty, msum_insert by apply lookup_empty.
  rewrite msum_empty. lra.
Qed.

Lemma msum_ext f g m :
  (forall k x, m !! k = Some x -> f k x = g k x) -> msum f m = msum g m.
Proof.
  induction m as [|i x m Hi IH] using map_ind; intros H.
  - rewrite !msum_empty. reflexivity.
  - rewrite !msum_insert by assumption. rewrite IH.
    + rewrite (H i x) by apply lookup_insert_eq. reflexivity.
    + intros k y Hk. apply H. rewrite lookup_insert_ne; [exact Hk|].
      intros ->. congruence.
Qed.

Lemma msum_le f g m :
  (forall k x, m !! k = Some x -> f k x <= g k x) -> msum f m <= msum g m.
Proof.
  induction m as [|i x m Hi IH] using map_ind; intros H.
  - rewrite !msum_empty. lra.
  - rewrite !msum_insert by assumption.
    assert (f i x <= g i x) by (apply H, lookup_insert_eq).
    assert (msum f m <= msum g m).
    { apply IH. intros k y Hk. apply H. rewrite lookup_insert_ne; [exact Hk|].
      intros ->. congruence. }
    lra.
Qed.

Lemma msum_zero m : msum (fun _ _ => 0) m = 0.
Proof.
  induction m as [|i x m Hi IH] using map_ind.
  - apply msum_empty.
  - rewrite msum_insert by assumption. rewrite IH. lra.
Qed.

Lemma msum_nonneg f m :
  (forall k x, m !! k = Some x -> 0 <= f k x) -> 0 <= msum f m.
Proof.
  intros H. rewrite <- (msum_zero m). apply msum_le. exact H.
Qed.



Lemma msum_delete f m i x :
  m !! i = Some x -> msum f m = msum f (delete i m) + f i x.
Proof.
  intros Hi. rewrite <- (insert_delete_id m i x Hi) at 1.
  apply msum_insert. apply lookup_delete_eq.
Qed.

(** A positive term keeps the sum of non-negative terms away from 0. *)
Lemma msum_pos f m i x :
  (forall k y, m !! k = Some y -> 0 <= f k y) ->
  m !! i = Some x -> 0 < f i x -> 0 < msum f m.
Proof.
  intros Hnn Hi Hx. rewrite (msum_delete f m i x Hi).
  assert (0 <= msum f (delete i m)).
  { apply msum_nonneg. intros k y Hk. apply (Hnn k y).
    apply lookup_delete_Some in Hk. tauto. }
  lra.
Qed.

End MSum.


(** ** Rounding *)

Lemma round_half_even_bounds (lo hi : Z) (y : R) :
  IZR lo <= y <= IZR hi -> (lo <= round_half_even y <= hi)%Z.
Proof.
  intros [Hlo Hhi]. unfold round_half_even.
  pose proof (Zfloor_bound y) as [Hf1 Hf2].
  pose proof (Zfloor_lub lo y Hlo) as Hlof.
  assert (Hfhi : (Zfloor y <= hi)%Z).
  { apply le_IZR. lra. }
  assert (Hup : 0 < y - IZR (Zfloor y) -> (Zfloor y + 1 <= hi)%Z).
  { intros Hd. assert (IZR (Zfloor y) < IZR hi) as Hlt by lra.
    apply lt_IZR in Hlt. lia. }
  repeat case_decide; try destruct (Z.even (Zfloor y));
    split; try lia; apply Hup; lra.
Qed.

Lemma round_half_even_IZR (z : Z) : round_half_even (IZR z) = z.
Proof.
  pose proof (round_half_even_bounds z z (IZR z)) as H.
  assert (IZR z <= IZR z <= IZR z) as Hz by lra. apply H in Hz. lia.
Qed.

Lemma pow10_pos (n : nat) : 0 < 10 ^ n.
Proof. apply pow_lt. lra. Qed.

Lemma pow10_IZR (n : nat) : 10 ^ n = IZR (10 ^ Z.of_nat n).
Proof. rewrite <- pow_IZR. reflexivity. Qed.

(** A number with at most [n] decimals is its own rounding. *)
Lemma py_round_exact (x : R) (n : nat) (z : Z) :
  x * 10 ^ n = IZR z -> py_round x n = x.
Proof.
  intros Hx. unfold py_round. rewrite Hx, round_half_even_IZR, <- Hx.
  field. pose proof (pow10_pos n). lra.
Qed.

Lemma py_round_0 (n : nat) : py_round 0 n = 0.
Proof. apply (py_round_exact 0 n 0). lra. Qed.


(** ** The cosine distance *)

Lemma cosine_loop1_fold (micro_tf : gmap string tfentry) (idf : gmap string R)
    (m : gmap string tfentry) :
  map_fold (cosine_loop1 micro_tf idf) (0, 0) m =
    (tfidf_dot idf m micro_tf,
     msum (fun k e => tfidf_weight idf k e * tfidf_weight idf k e) m).
Proof.
  unfold tfidf_dot.
  apply (map_fold_weak_ind
           (fun r (m : gmap string tfentry) =>
              r = (msum (fun k e => match micro_tf !! k with
                                    | Some e' => tfidf_weight idf k e * tfidf_weight idf k e'
                                    | None => 0
                                    end) m,
                   msum (fun k e => tfidf_weight idf k e * tfidf_weight idf k e) m))).
  - rewrite !msum_empty. reflexivity.
  - intros i x m' r Hi ->. rewrite !msum_insert by assumption.
    unfold cosine_loop1, tfidf_weight. simpl.
    destruct (idf !! i) as [v|]; [destruct (micro_tf !! i)|];
      f_equal; try destruct (micro_tf !! i); ring.
Qed.

Lemma cosine_loop2_fold (idf : gmap string R) (m : gmap string tfentry) :
  map_fold (cosine_loop2 idf) (Ok 0) m =
    if decide (covered idf m)
    then Ok (msum (fun k e => tfidf_weight idf k e * tfidf_weight idf k e) m)
    else Raise KeyError.
Proof.
  apply (map_fold_weak_ind
           (fun r (m0 : gmap string tfentry) =>
              r = if covered_dec idf m0
                  then Ok (msum (fun k e => tfidf_weight idf k e * tfidf_weight idf k e) m0)
                  else Raise KeyError)).
  - rewrite msum_empty. destruct (covered_dec idf ∅) as [H|H]; [reflexivity|].
    exfalso. apply H. apply map_Forall_empty.
  - intros i x m' r Hi ->. unfold cosine_loop2.
    rewrite msum_insert by assumption.
    destruct (covered_dec idf m') as [Hc|Hc];
      destruct (covered_dec idf (<[i:=x]> m')) as [Hc'|Hc']; simpl.
    + apply map_Forall_insert in Hc' as [[v Hv] _]; [|assumption].
      unfold tfidf_weight. rewrite Hv. f_equal. ring.
    + destruct (idf !! i) as [v|] eqn:Hv; [|reflexivity].
      exfalso. apply Hc'. apply map_Forall_insert; [assumption|]. split; eauto.
    + exfalso. apply Hc. apply map_Forall_insert in Hc' as [_ ?]; assumption.
    + reflexivity.
Qed.

Lemma tfidf_cosine_distance_spec (a b : microcluster) (idf : gmap string R) :
  tfidf_cosine_distance a b idf =
    if decide (covered idf (mc_tf b)) then
      Ok (if decide (tfidf_norm idf (mc_tf a) = 0 \/ tfidf_norm idf (mc_tf b) = 0)
          then 1
          else py_round (1 - cosine_similarity idf (mc_tf a) (mc_tf b)) 10)
    else Raise KeyError.
Proof.
  unfold tfidf_cosine_distance. rewrite cosine_loop1_fold, cosine_loop2_fold.
  case_decide; simpl; [|reflexivity].
  fold (tfidf_norm idf (mc_tf a)). fold (tfidf_norm idf (mc_tf b)).
  case_decide; reflexivity.
Qed.





Lemma tfidf_norm_sq (idf : gmap string R) (a : gmap string tfentry) :
  tfidf_norm idf a * tfidf_norm idf a =
    msum (fun k e => tfidf_weight idf k e * tfidf_weight idf k e) a.
Proof.
  unfold tfidf_norm. apply sqrt_sqrt. apply msum_nonneg.
  intros k e _. apply Rle_0_sqr.
Qed.







(** The norm is not 0 as soon as one term has a non-zero frequency and a
    non-zero idf weight. *)
Lemma tfidf_norm_nonzero (idf : gmap string R) (a : gmap string tfentry)
    (k : string) (e : tfentry) (i : R) :
  a !! k = Some e -> idf !! k = Some i -> tf_value e <> 0 -> i <> 0 ->
  tfidf_norm idf a <> 0.
Proof.
  intros Hk Hi He Hi0 Hn.
  pose proof (tfidf_norm_sq idf a) as Hsq. rewrite Hn in Hsq.
  assert (0 < msum (fun k e => tfidf_weight idf k e * tfidf_weight idf k e) a).
  { apply (msum_pos _ a k e); [intros; apply Rle_0_sqr|exact Hk|].
    unfold tfidf_weight. rewrite Hi.
    assert (tf_value e * i <> 0) by (apply Rmult_integral_contrapositive_currified; assumption).
    nra. }
  lra.
Qed.

Lemma tfidf_norm_singleton (idf : gmap string R) (k : string) (e : tfentry) :
  tfidf_norm idf {[ k := e ]} = Rabs (tfidf_weight idf k e).
Proof.
  unfold tfidf_norm. rewrite msum_singleton. apply sqrt_Rsqr_abs.
Qed.






(** ** The nearest-cluster scan *)

Lemma dist_covered (mc m : microcluster) (idf : gmap string R) :
  covered idf (mc_tf m) ->
  exists d, dist "tfidf_cosine_distance" mc m idf = Ok d.
Proof.
  intros Hc. unfold dist. simpl. rewrite tfidf_cosine_distance_spec.
  rewrite (decide_True _ _ Hc). eauto.
Qed.

Lemma calculateIDF_covered (l : list (Z * microcluster)) (k : Z) (m : microcluster) :
  (k, m) ∈ l -> covered (_calculateIDF (dict_values l)) (mc_tf m).
Proof.
  intros Hm j e Hj. apply (calculateIDF_covers _ m); [|eauto].
  unfold dict_values. apply list_elem_of_fmap. exists (k, m). split; [reflexivity|exact Hm].
Qed.

Lemma all_dists_total (mc : microcluster) (idf : gmap string R)
    (l : list (Z * microcluster)) :
  (forall k m, (k, m) ∈ l -> covered idf (mc_tf m)) ->
  exists ds, all_dists "tfidf_cosine_distance" mc idf l = Ok ds.
Proof.
  induction l as [|[k m] l IH]; intros Hc; simpl.
  - eauto.
  - destruct (dist_covered mc m idf) as [d Hd].
    { apply (Hc k). apply list_elem_of_here. }
    rewrite Hd. simpl. destruct IH as [ds Hds].
    { intros k' m' H. apply (Hc k'). apply list_elem_of_further. exact H. }
    rewrite Hds. simpl. eauto.
Qed.


(** What the loop of [_get_closest_mc] leaves in its local variables. *)
Lemma scan_loop_spec (distance : string) (mc : microcluster) (idf : gmap string R)
    (l : list (Z * microcluster)) (ds : list R) (s : scan) :
  all_dists distance mc idf l = Ok ds ->
  exists s',
    scan_loop distance mc idf l s = Ok s' /\
    counter s' = (counter s + Z.of_nat (length l))%Z /\
    sumdist s' = sumdist s + Rsum ds /\
    squaresum s' = squaresum s + Rsum (map (fun d => d ^ 2) ds) /\
    min_dist s' <= min_dist s /\
    Forall (fun d => min_dist s' <= d) ds /\
    ((min_dist s' = min_dist s /\ smallest_key s' = smallest_key s) \/
     (min_dist s' < min_dist s /\
      exists k m, (k, m) ∈ l /\ smallest_key s' = Some k /\
                  dist distance mc m idf = Ok (min_dist s'))).
Proof.
  revert ds s. induction l as [|[k m] l IH]; intros ds s; simpl.
  - intros [= <-]. exists s. simpl.
    repeat split; try lra; try lia; [constructor|left; split; reflexivity].
  - destruct (dist distance mc m idf) as [d|] eqn:Hd; [|discriminate]. simpl.
    destruct (all_dists distance mc idf l) as [ds'|] eqn:Hds; [|discriminate]. simpl.
    intros [= <-].
    destruct (IH ds' (scan_step s k d) eq_refl)
      as (s' & Hrun & Hc & Hsum & Hsq & Hmin & Hall & Hkey).
    exists s'. split; [exact Hrun|]. simpl in *.
    split; [lia|]. split; [lra|]. split; [lra|].
    assert (Hstep : min_dist s' <= d /\ min_dist s' <= min_dist s).
    { destruct (decide (d < min_dist s)); lra. }
    split; [tauto|]. split; [constructor; tauto|].
    destruct Hkey as [[Hm Hk]|(Hm & k' & m' & Hin & Hk & Hd')].
    + destruct (decide (d < min_dist s)) as [Hlt|Hge].
      * right. split; [lra|]. exists k, m.
        split; [apply list_elem_of_here|]. split; [exact Hk|]. rewrite Hm. exact Hd.
      * left. split; assumption.
    + right. split.
      * destruct (decide (d < min_dist s)); lra.
      * exists k', m'. split; [apply list_elem_of_further; exact Hin|]. tauto.
Qed.

(** ** Ordered dicts *)

Lemma dict_get_elem {A : Type} (l : list (Z * A)) (k : Z) (v : A) :
  NoDup (dict_keys l) -> (k, v) ∈ l -> dict_get k l = Some v.
Proof.
  induction l as [|[k' v'] l IH]; intros Hnd Hin; simpl.
  - inversion Hin.
  - simpl in Hnd. apply NoDup_cons in Hnd as [Hk' Hnd].
    apply elem_of_cons in Hin as [[= -> ->]|Hin].
    + rewrite decide_True by reflexivity. reflexivity.
    + rewrite decide_False; [apply IH; assumption|].
      intros ->. apply Hk'. unfold dict_keys in *.
      apply list_elem_of_fmap. exists (k', v). split; [reflexivity|exact Hin].
Qed.

Lemma dict_get_set_eq {A : Type} (l : list (Z * A)) (k : Z) (v : A) :
  dict_get k (dict_set k v l) = Some v.
Proof.
  induction l as [|[k' v'] l IH]; simpl.
  - rewrite decide_True by reflexivity. reflexivity.
  - destruct (decide (k = k')) as [->|Hne]; simpl.
    + rewrite decide_True by reflexivity. reflexivity.
    + rewrite decide_False by assumption. exact IH.
Qed.

Lemma dict_set_set {A : Type} (l : list (Z * A)) (k : Z) (v v' : A) :
  dict_set k v' (dict_set k v l) = dict_set k v' l.
Proof.
  induction l as [|[k' w] l IH]; simpl.
  - rewrite decide_True by reflexivity. reflexivity.
  - destruct (decide (k = k')) as [->|Hne]; simpl.
    + rewrite decide_True by reflexivity. reflexivity.
    + rewrite decide_False by assumption. rewrite IH. reflexivity.
Qed.

(** ** One observation *)

Lemma merge_succeeds (a b : microcluster) (tn om l : R) (tfad : bool) (rt : option R) :
  is_Some (mc_time a) -> is_Some (mc_time b) ->
  exists a' b', merge a b (Some tn) om l tfad rt = (a', b', Ok tt).
Proof.
  intros [tA Ha] [tB Hb].
  destruct (merge_weight a b tA tB tn om l tfad rt Ha Hb) as (a' & b' & H & _).
  eauto.
Qed.

Lemma process_observation_found (self : textclust) (ngrams : gmap string tfentry)
    (id : option Z) (c : Z) (md : R) (m m' src' : microcluster) :
  _get_closest_mc self (observation self ngrams id)
    (_calculateIDF (dict_values (microclusters self))) (micro_distance self)
    = Ok (Some c, md) ->
  dict_get c (microclusters self) = Some m ->
  merge (set_mc_n (mc_n m + 1) m) (observation self ngrams id) (t self)
    (omega self) (_lambda self) (termfading self) (realtime self)
    = (m', src', Ok tt) ->
  process_observation ngrams id self =
    (set_dist_mean (dist_mean self + md)
       (set_assignment (<[n self := c]> (assignment self))
          (set_microclusters (dict_set c m' (microclusters self))
             (set_num_merged_obs (num_merged_obs self + 1) self))),
     Ok c).
Proof.
  intros Hfound Hget Hmerge.
  unfold process_observation, bind, get, lift, modify, with_cluster, ret.
  fold (observation self ngrams id). rewrite Hfound. simpl.
  rewrite Hget. simpl. rewrite dict_get_set_eq. rewrite Hmerge. simpl.
  rewrite dict_set_set. reflexivity.
Qed.

Lemma process_observation_not_found (self : textclust) (ngrams : gmap string tfentry)
    (id : option Z) (md : R) :
  _get_closest_mc self (observation self ngrams id)
    (_calculateIDF (dict_values (microclusters self))) (micro_distance self)
    = Ok (None, md) ->
  created_new self ngrams id md.
Proof.
  intros Hfound.
  unfold created_new, process_observation, bind, get, lift, modify, ret.
  fold (observation self ngrams id). rewrite Hfound. reflexivity.
Qed.

Lemma process_observation_raise (self : textclust) (ngrams : gmap string tfentry)
    (id : option Z) (e : exn) :
  _get_closest_mc self (observation self ngrams id)
    (_calculateIDF (dict_values (microclusters self))) (micro_distance self)
    = Raise e ->
  process_observation ngrams id self = (self, Raise e).
Proof.
  intros Hfound.
  unfold process_observation, bind, get, lift, modify, ret.
  fold (observation self ngrams id). rewrite Hfound. reflexivity.
Qed.



Lemma wrap_terms_size (x : gmap string R) (id : option Z) :
  x <> ∅ -> (0 < size (wrap_terms x id))%nat.
Proof.
  intros Hx. unfold wrap_terms. rewrite map_size_fmap.
  destruct (size x) eqn:Hs; [|lia].
  apply map_size_empty_iff in Hs. contradiction.
Qed.

(** ** learn_one on a non-empty observation *)

(** [learn_one] sets the time of the call, runs the body
    [process_observation] on the wrapped terms, then the cleanup when it is
    due, and advances the observation counter. *)
Lemma learn_one_nonempty (x : gmap string R) (time : option R) (v : option Z)
    (self : textclust) :
  x <> ∅ ->
  let id := keyword_id v in
  let s0 := set_t (call_time self time) (set_upToDate false self) in
  learn_one x time (Some v) self =
    match process_observation (wrap_terms x id) id s0 with
    | (s1, Raise e) => (s1, Raise e)
    | (s1, Ok c) =>
        match cleanup_due s1 with
        | (s2, Raise e) => (s2, Raise e)
        | (s2, Ok due) =>
            match (if due then _cleanup else ret tt) s2 with
            | (s3, Raise e) => (s3, Raise e)
            | (s3, Ok _) => (set_n (n s3 + 1) s3, Ok c)
            end
        end
    end.
Proof.
  intros Hx. unfold learn_one, bind, lift, modify, ret, raise, call_time, keyword_id.
  destruct v as [i|]; simpl.
  - rewrite decide_True by (apply wrap_terms_size; exact Hx).
    destruct (process_observation _ _ _) as [s1 [c|e]]; simpl; [|reflexivity].
    destruct (cleanup_due s1) as [s2 [due|e]]; simpl; [|reflexivity].
    destruct ((if due then _cleanup else _) s2) as [s3 [[]|e]]; reflexivity.
  - rewrite decide_True by (apply wrap_terms_size; exact Hx).
    destruct (process_observation _ _ _) as [s1 [c|e]]; simpl; [|reflexivity].
    destruct (cleanup_due s1) as [s2 [due|e]]; simpl; [|reflexivity].
    destruct ((if due then _cleanup else _) s2) as [s3 [[]|e]]; reflexivity.
Qed.


(** ** Frames: what the maintenance steps leave alone *)

Lemma updateweights_frame (self : textclust) :
  (_updateweights self).1 =
    set_microclusters (microclusters (_updateweights self).1) self.
Proof.
  unfold _updateweights.
  destruct (fade_all _ _ _ _ _ _) as [mcs [[]|e]]; reflexivity.
Qed.

Lemma mergemicroclusters_frame (self : textclust) :
  (_mergemicroclusters self).1 =
    set_microclusters (microclusters (_mergemicroclusters self).1) self.
Proof.
  unfold _mergemicroclusters.
  destruct (if auto_r self then _ else _) as [thr|e].
  - destruct (merge_outer _ _ _ _ _ _ _ _ _ _) as [mcs r]. reflexivity.
  - destruct self; reflexivity.
Qed.

(** [_cleanup] touches neither the assignment log nor the id counter nor
    the observation counter. *)
Lemma cleanup_frame (self : textclust) :
  assignment (_cleanup self).1 = assignment self /\
  clusterId (_cleanup self).1 = clusterId self /\
  n (_cleanup self).1 = n self.
Proof.
  unfold _cleanup, bind, get, modify, ret. simpl.
  pose proof (updateweights_frame (set_lastCleanup (t self) self)) as Hu.
  destruct (_updateweights (set_lastCleanup (t self) self)) as [s1 [[]|e]];
    simpl in Hu; [|rewrite Hu; auto].
  destruct (auto_merge self).
  - pose proof (mergemicroclusters_frame
                  (set_microclusters
                     (map (fun kv => (kv.1, set_deltaweight kv.2)) (microclusters s1)) s1))
      as Hm.
    destruct (_mergemicroclusters _) as [s2 [[]|e]]; simpl in Hm |- *;
      rewrite Hm, Hu; auto.
  - simpl. rewrite Hu. auto.
Qed.

(** ** learn_one on an empty observation *)

Lemma learn_one_empty (self : textclust) (time : option R) (v : option Z) :
  let s0 := set_t (call_time self time) (set_upToDate false self) in
  learn_one ∅ time (Some v) self =
    match cleanup_due s0 with
    | (_, Raise e) => (s0, Raise e)
    | (_, Ok true) =>
        match _cleanup s0 with
        | (s1, Raise e) => (s1, Raise e)
        | (s1, Ok _) => (set_n (n s1 + 1) s1, Raise UnboundLocalError)
        end
    | (_, Ok false) => (set_n (n s0 + 1) s0, Raise UnboundLocalError)
    end.
Proof.
  unfold learn_one, bind, lift, modify, ret, raise, call_time.
  destruct v as [i|]; simpl.
  - unfold wrap_terms. rewrite fmap_empty, map_size_empty.
    rewrite decide_False by lia.
    unfold cleanup_due. simpl.
    destruct (lastCleanup self); simpl.
    + destruct (if realtimefading self then time else Some (IZR (n self))); simpl;
        [|reflexivity].
      destruct (bool_decide _); simpl; [|reflexivity].
      destruct (_cleanup _) as [s1 [[]|e]]; reflexivity.
    + destruct (_cleanup _) as [s1 [[]|e]]; reflexivity.
  - unfold wrap_terms. rewrite fmap_empty, map_size_empty.
    rewrite decide_False by lia.
    unfold cleanup_due. simpl.
    destruct (lastCleanup self); simpl.
    + destruct (if realtimefading self then time else Some (IZR (n self))); simpl;
        [|reflexivity].
      destruct (bool_decide _); simpl; [|reflexivity].
      destruct (_cleanup _) as [s1 [[]|e]]; reflexivity.
    + destruct (_cleanup _) as [s1 [[]|e]]; reflexivity.
Qed.



Lemma evict_cons_in (om : R) (kv : Z * microcluster) (l : list (Z * microcluster)) :
  ~ evicted om kv -> evict om (kv :: l) = kv :: evict om l.
Proof. intros H. unfold evict. apply filter_cons_True. exact H. Qed.

Lemma fade_value_one_step : fade_value 1 1 2 1 = / 2.
Proof.
  unfold fade_value. replace (- (1) * (2 - 1)) with (-1) by lra.
  rewrite Rpower_2_opp_1. lra.
Qed.



(** ** predict_one *)

(** The state that [get_assignment] leaves is the one its first statement,
    [self._updateweights()], leaves. *)
Lemma get_assignment_state (x : gmap string tfentry) (type : string) (self : textclust) :
  (get_assignment x type self).1 = (_updateweights self).1.
Proof.
  unfold get_assignment, bind, get, lift, ret, raise.
  destruct (_updateweights self) as [s1 [[]|e]]; simpl; [|reflexivity].
  destruct (decide (0 < size x)%nat); [|reflexivity].
  destruct (nearest_loop _ _ _ _ _ _ _) as [a|e]; simpl; [|reflexivity].
  destruct (decide (type = "micro"%string)); reflexivity.
Qed.

Lemma fade_term_current (l tn om : R) (e : tfentry) :
  om < tf_value e -> fade_term l tn tn om e = Some e.
Proof.
  intros He. unfold fade_term. rewrite fade_value_same_time.
  rewrite decide_False by lra. destruct e; reflexivity.
Qed.

(** A cluster is current when fading it to the time [tn] changes nothing
    and it is not due for eviction. *)
Lemma fade_current (m : microcluster) (tn om l : R) (tfad : bool) (rt : option R) :
  mc_time m = Some tn -> mc_realtime m = rt ->
  (tfad = true -> map_Forall (fun _ e => om < tf_value e) (mc_tf m)) ->
  fade m (Some tn) om l tfad rt = Ok m.
Proof.
  intros Ht Hrt Htf. unfold fade. rewrite Ht. f_equal.
  rewrite fade_value_same_time.
  assert (Htf' : (if tfad then omap (fade_term l tn tn om) (mc_tf m) else mc_tf m)
                 = mc_tf m).
  { destruct tfad; [|reflexivity]. apply map_eq. intros k.
    rewrite lookup_omap. destruct (mc_tf m !! k) as [e|] eqn:Hk; [|reflexivity].
    simpl. apply fade_term_current. exact (Htf eq_refl k e Hk). }
  rewrite Htf'. destruct m; simpl in *. subst. reflexivity.
Qed.

Lemma fade_all_current (l : list (Z * microcluster)) (tn om lam : R)
    (tfad : bool) (rt : option R) :
  Forall (fun kv : Z * microcluster =>
            mc_time kv.2 = Some tn /\ mc_realtime kv.2 = rt /\
            (tfad = true -> map_Forall (fun _ e => om < tf_value e) (mc_tf kv.2)) /\
            ~ evicted om kv) l ->
  fade_all l (Some tn) om lam tfad rt = (l, Ok tt) /\ evict om l = l.
Proof.
  induction 1 as [|[k m] l (H1 & H2 & H3 & H4) _ [IH1 IH2]].
  - split; reflexivity.
  - cbn [fade_all]. simpl in H1, H2, H3.
    rewrite (fade_current m tn om lam tfad rt H1 H2 H3). rewrite IH1.
    split; [reflexivity|]. rewrite evict_cons_in by exact H4. rewrite IH2.
    reflexivity.
Qed.

Lemma updateweights_current (self : textclust) (tn : R) :
  t self = Some tn ->
  Forall (fun kv : Z * microcluster =>
            mc_time kv.2 = Some tn /\ mc_realtime kv.2 = realtime self /\
            (termfading self = true ->
             map_Forall (fun _ e => omega self < tf_value e) (mc_tf kv.2)) /\
            ~ evicted (omega self) kv) (microclusters self) ->
  _updateweights self = (self, Ok tt).
Proof.
  intros Ht Hall. unfold _updateweights. rewrite Ht.
  destruct (fade_all_current _ tn (omega self) (_lambda self) (termfading self)
              (realtime self) Hall) as [Hf He].
  rewrite Hf, He. destruct self; reflexivity.
Qed.

(** C5 (amended).  [predict_one] changes the store exactly as
    [_updateweights] does, by fading every live cluster to the current
    time of the store and evicting the decayed ones, and changes nothing
    else (the reclustering cache included); when every live cluster is
    already at the current time and above the floor, it changes nothing at
    all. *)
Theorem C5_predict_one_frame (x : gmap string R) (type : string) (self : textclust) :
  (predict_one x type self).1 = (_updateweights self).1 /\
  (predict_one x type self).1 =
    set_microclusters (microclusters (_updateweights self).1) self /\
  (forall tn,
     t self = Some tn ->
     Forall (fun kv : Z * microcluster =>
               mc_time kv.2 = Some tn /\ mc_realtime kv.2 = realtime self /\
               (termfading self = true ->
                map_Forall (fun _ e => omega self < tf_value e) (mc_tf kv.2)) /\
               ~ evicted (omega self) kv) (microclusters self) ->
     (predict_one x type self).1 = self).
Proof.
  unfold predict_one. rewrite get_assignment_state.
  split; [reflexivity|]. split; [apply updateweights_frame|].
  intros tn Ht Hall. rewrite (updateweights_current self tn Ht Hall). reflexivity.
Qed.

Lemma not_evicted_singleton (om w : R) (k : Z) (m : microcluster)
    (key : string) (e : tfentry) :
  mc_tf m = {[ key := e ]} -> om < mc_weight m -> ~ evicted om (k, m).
Proof.
  intros Htf Hw [H|H]; simpl in H.
  - lra.
  - rewrite Htf, map_size_singleton in H. discriminate.
Qed.

Lemma C5_predict_one_frame_witness :
  (predict_one {[ "a"%string := 1 ]} "micro"
     (model_after_one false "tfidf_cosine_distance")).1
  = model_after_one false "tfidf_cosine_distance".
Proof.
  destruct (C5_predict_one_frame {[ "a"%string := 1 ]} "micro"
              (model_after_one false "tfidf_cosine_distance")) as (_ & _ & H).
  apply (H 1); [reflexivity|].
  repeat constructor; simpl; try discriminate.
  apply (not_evicted_singleton _ 1 _ _ "a"%string (entry 1 1)); [reflexivity|].
  simpl. lra.
Defined.

(** C5 as stated fails.  After two observations with no cleanup in between,
    the first cluster is still at time 1 while the store is at time 2;
    [predict_one] fades it: its weight goes from 1 to 1/2 and its
    last-update time from 1 to 2. *)
Lemma C5_counterexample :
  let self := model_after_two in
  let self' := (predict_one {[ "a"%string := 1 ]} "micro" self).1 in
  exists m m',
    dict_get 0 (microclusters self) = Some m /\
    dict_get 0 (microclusters self') = Some m' /\
    mc_weight m = 1 /\ mc_weight m' = / 2 /\
    mc_time m = Some 1 /\ mc_time m' = Some 2.
Proof.
  simpl. unfold predict_one. rewrite get_assignment_state.
  unfold _updateweights. simpl.
  rewrite evict_cons_in.
  2:{ apply (not_evicted_singleton _ 1 _ _ "a"%string (entry 1 1)); [reflexivity|].
      simpl. rewrite fade_value_one_step. lra. }
  simpl. eexists _, _. split; [reflexivity|]. split; [reflexivity|]. simpl.
  rewrite fade_value_one_step. repeat split; reflexivity.
Qed.

Lemma fade_all_timed (l : list (Z * microcluster)) (tn om lam : R)
    (tfad : bool) (rt : option R) :
  Forall (fun kv : Z * microcluster => is_Some (mc_time kv.2)) l ->
  exists l', fade_all l (Some tn) om lam tfad rt = (l', Ok tt).
Proof.
  induction 1 as [|[k m] l [tm Hm] _ [l' IH]].
  - simpl. eauto.
  - cbn [fade_all]. unfold fade. simpl in Hm. rewrite Hm. rewrite IH. eauto.
Qed.

Lemma updateweights_timed (self : textclust) :
  timed_store self -> exists s1, _updateweights self = (s1, Ok tt).
Proof.
  intros (_ & [tn Ht] & Htimes). unfold _updateweights. rewrite Ht.
  destruct (fade_all_timed _ tn (omega self) (_lambda self) (termfading self)
              (realtime self) Htimes) as [l' Hl].
  rewrite Hl. eauto.
Qed.

Lemma nearest_loop_total (minw : R) (mc : microcluster) (idf : gmap string R)
    (l : list (Z * microcluster)) (best : option R) (closest : option Z) :
  (forall k m, (k, m) ∈ l -> covered idf (mc_tf m)) ->
  exists r, nearest_loop "tfidf_cosine_distance" minw mc idf l best closest = Ok r.
Proof.
  revert best closest. induction l as [|[k m] l IH]; intros best closest Hc.
  - simpl. eauto.
  - cbn [nearest_loop].
    assert (Hl : forall k' m', (k', m') ∈ l -> covered idf (mc_tf m')).
    { intros k' m' H. apply (Hc k'). apply list_elem_of_further. exact H. }
    destruct (decide (minw < mc_weight m)); [|apply IH; exact Hl].
    destruct (dist_covered mc m idf) as [d Hd].
    { apply (Hc k). apply list_elem_of_here. }
    rewrite Hd. simpl.
    destruct (match best with None => true | Some d0 => bool_decide (d < d0) end);
      apply IH; exact Hl.
Qed.

(** C6.  In macro mode [predict_one] never returns a label for a non-empty
    input: [get_assignment] looks up [self.get_microToMacro], which the
    class does not define; on a store without missing timestamps the call
    ends in [AttributeError], whatever the state of the cache. *)
Theorem C6_predict_one_macro_raises (x : gmap string R) (self : textclust) :
  x <> ∅ ->
  (forall lab, (predict_one x "macro" self).2 <> Ok lab) /\
  (micro_distance self = "tfidf_cosine_distance"%string -> timed_store self ->
   (predict_one x "macro" self).2 = Raise AttributeError).
Proof.
  intros Hx. pose proof (wrap_terms_size x None Hx) as Hsize.
  unfold predict_one, get_assignment, bind, get, lift, ret, raise. split.
  - intros lab.
    destruct (_updateweights self) as [s1 [[]|e]]; simpl; [|discriminate].
    rewrite decide_True by exact Hsize.
    destruct (nearest_loop _ _ _ _ _ _ _) as [a|e]; simpl; discriminate.
  - intros Hmetric Htimed.
    destruct (updateweights_timed self Htimed) as [s1 Hs1].
    pose proof (updateweights_frame self) as Hframe. rewrite Hs1 in *. simpl in *.
    rewrite decide_True by exact Hsize.
    assert (Hm1 : micro_distance s1 = "tfidf_cosine_distance"%string).
    { rewrite Hframe. simpl. exact Hmetric. }
    rewrite Hm1.
    destruct (nearest_loop_total (min_weight s1)
                (new_microcluster (wrap_terms x None) (Some 1) 1 (realtime s1) None None)
                (_calculateIDF (dict_values (microclusters s1)))
                (microclusters s1) None None) as [r Hr].
    { intros k m Hin. apply (calculateIDF_covered _ k). exact Hin. }
    rewrite Hr. reflexivity.
Qed.

Lemma C6_predict_one_macro_raises_witness :
  (predict_one {[ "a"%string := 1 ]} "macro"
     (model_after_one false "tfidf_cosine_distance")).2 = Raise AttributeError.
Proof.
  apply (C6_predict_one_macro_raises {[ "a"%string := 1 ]}
           (model_after_one false "tfidf_cosine_distance")).
  - intros H. apply (f_equal (fun m : gmap string R => m !! "a"%string)) in H.
    rewrite lookup_singleton_eq, lookup_empty in H. discriminate.
  - reflexivity.
  - split; [|split].
    + simpl. repeat constructor. intros H. inversion H.
    + simpl. eauto.
    + simpl. repeat constructor. simpl. eauto.
Defined.

(** ** Macro-clusters *)

Lemma dict_get_map_None {A : Type} (f : Z -> A) (k : Z) (l : list Z) :
  k ∉ l -> dict_get k (map (fun x => (x, f x)) l) = None.
Proof.
  induction l as [|x l IH]; intros Hk; simpl; [reflexivity|].
  rewrite decide_False.
  - apply IH. intros H. apply Hk. apply list_elem_of_further. exact H.
  - intros ->. apply Hk. apply list_elem_of_here.
Qed.

Section ReclusteringFacts.

Variable agglomerative : Z -> list (list R) -> result (list Z).

(** With a single surviving cluster the reclustering gives it the label 1
    without calling the clusterer. *)
Lemma updateMacroClusters_single (self s1 : textclust) (k : Z) (m : microcluster) :
  upToDate self = false ->
  _updateweights self = (s1, Ok tt) ->
  microclusters s1 = [(k, m)] ->
  min_weight self < mc_weight m ->
  updateMacroClusters agglomerative self =
    (set_upToDate true (set_microToMacro (Some [(k, 1%Z)]) s1), Ok tt).
Proof.
  intros Hup Hu Hs1 Hw.
  pose proof (updateweights_frame self) as Hframe. rewrite Hu in Hframe.
  simpl in Hframe.
  assert (Hmw : min_weight s1 = min_weight self) by (rewrite Hframe; reflexivity).
  unfold updateMacroClusters, bind, get, lift, modify, ret. simpl.
  rewrite Hup, Hu. simpl. rewrite Hs1, Hmw.
  rewrite filter_cons_True by (simpl; exact Hw). rewrite filter_nil.
  simpl. reflexivity.
Qed.

(** C7.  When exactly one cluster is live and survives the weight filter,
    the reclustering assigns it to a single macro-cluster, whose label
    is 1; [get_macroclusters] then makes [min(num_macro, 1)] empty
    representatives, labelled from 0, and the lookup [macros[1]] raises
    [KeyError]: the request fails instead of succeeding. *)
Theorem C7_single_survivor_request_fails (self s1 : textclust) (k : Z)
    (m : microcluster) :
  upToDate self = false ->
  _updateweights self = (s1, Ok tt) ->
  microclusters s1 = [(k, m)] ->
  min_weight self < mc_weight m ->
  microToMacro (updateMacroClusters agglomerative self).1 = Some [(k, 1%Z)] /\
  (get_macroclusters agglomerative self).2 = Raise KeyError.
Proof.
  intros Hup Hu Hs1 Hw.
  pose proof (updateMacroClusters_single self s1 k m Hup Hu Hs1 Hw) as Hm.
  split; [rewrite Hm; reflexivity|].
  unfold get_macroclusters, bind, get. rewrite Hm. simpl.
  rewrite Hs1. simpl.
  rewrite dict_get_map_None; [reflexivity|].
  rewrite elem_of_seqZ. lia.
Qed.

End ReclusteringFacts.

Lemma updateweights_model_after_one (distance : string) :
  _updateweights (model_after_one false distance) =
    (model_after_one false distance, Ok tt).
Proof.
  apply (updateweights_current _ 1); [reflexivity|].
  repeat constructor; simpl; try discriminate.
  apply (not_evicted_singleton _ 1 _ _ "a"%string (entry 1 1)); [reflexivity|].
  simpl. lra.
Qed.

Lemma C7_single_survivor_request_fails_witness :
  microToMacro (updateMacroClusters no_clusterer
                  (model_after_one false "tfidf_cosine_distance")).1
    = Some [(0%Z, 1%Z)] /\
  (get_macroclusters no_clusterer
     (model_after_one false "tfidf_cosine_distance")).2 = Raise KeyError.
Proof.
  apply (C7_single_survivor_request_fails no_clusterer
           (model_after_one false "tfidf_cosine_distance")
           (model_after_one false "tfidf_cosine_distance") 0
           (mk_microcluster (Some 0%Z) 1 (Some 1) {[ "a"%string := entry 1 1 ]}
              1 1 None [Some 1%Z] 1)).
  - reflexivity.
  - apply updateweights_model_after_one.
  - reflexivity.
  - simpl. lra.
Defined.

(** ** The metric name *)

Lemma dist_unknown (name : string) (m1 m2 : microcluster) (idf : gmap string R) :
  name <> "tfidf_cosine_distance"%string -> ~ is_ok (dist name m1 m2 idf).
Proof.
  intros Hname. unfold dist. rewrite decide_False by exact Hname.
  destruct (decide (name = "dist"%string)); simpl; tauto.
Qed.

(** C9 (amended).  Construction never fails on account of a metric name:
    the two names are stored as they are.  A name is resolved at every
    distance computation: the implemented name runs the tf-idf cosine
    distance, and with any other name no distance computation yields a
    distance. *)
Theorem C9_metric_resolved_per_call (radius _lambda tgap : R)
    (termfading realtimefading : bool) (micro macro : string) (num_macro : Z)
    (min_weight : R) (auto_r auto_merge : bool) (sigma : R) :
  (exists self,
     __init__ radius _lambda tgap termfading realtimefading micro macro
       num_macro min_weight auto_r auto_merge sigma = Ok self /\
     micro_distance self = micro /\ macro_distance self = macro) /\
  (forall m1 m2 idf,
     dist "tfidf_cosine_distance" m1 m2 idf = tfidf_cosine_distance m1 m2 idf) /\
  (forall name m1 m2 idf,
     name <> "tfidf_cosine_distance"%string -> ~ is_ok (dist name m1 m2 idf)).
Proof.
  split; [|split].
  - eexists. split; [reflexivity|]. split; reflexivity.
  - intros m1 m2 idf. reflexivity.
  - intros name m1 m2 idf. apply dist_unknown.
Qed.

Lemma C9_metric_resolved_per_call_witness :
  ~ is_ok (dist "euclidean" vec_x vec_x idf_x).
Proof.
  apply (C9_metric_resolved_per_call 1 1 1 false false "euclidean" "euclidean"
           3 0 false true 1).
  discriminate.
Defined.

(** C9 as stated fails.  Construction with the unknown metric name
    [euclidean] succeeds; the next observation on a store with one live
    cluster reaches the distance computation with the unresolved name, and
    it is that call which raises. *)
Lemma C9_counterexample :
  __init__ 1 1 1 false false "euclidean" "euclidean" 3 0 false true 1
    = Ok (fresh_model 1 false "euclidean") /\
  let self := model_after_one false "euclidean" in
  scan_loop (micro_distance self)
    (observation self (wrap_terms {[ "a"%string := 1 ]} (Some 2%Z)) (Some 2%Z))
    (_calculateIDF (dict_values (microclusters self))) (microclusters self) scan_init
    = Raise TypeError /\
  (learn_one {[ "a"%string := 1 ]} None (Some (Some 2%Z)) self).2 = Raise TypeError.
Proof.
  split; [reflexivity|]. simpl. split; [reflexivity|].
  unfold learn_one, bind, lift, modify, ret. simpl.
  rewrite decide_True.
  2:{ apply wrap_terms_size. intros H.
      apply (f_equal (fun m : gmap string R => m !! "a"%string)) in H.
      rewrite lookup_singleton_eq, lookup_empty in H. discriminate. }
  rewrite process_observation_raise with (e := TypeError); reflexivity.
Qed.

(** ** Instances on concrete stores *)

Lemma calculateIDF_one_cluster :
  _calculateIDF [one_term_cluster 1 1 1] !! "a"%string
  = Some (1 + ln (IZR (Z.of_nat 1) / IZR 1)).
Proof.
  unfold _calculateIDF. rewrite lookup_fmap. simpl foldl.
  rewrite count_terms_lookup. simpl mc_tf.
  rewrite lookup_singleton_eq, lookup_empty. reflexivity.
Qed.

Lemma C10_idf_at_least_one_witness :
  1 <= 1 + ln (IZR (Z.of_nat 1) / IZR 1) /\
  forall x : R,
    (0 < x -> 0 < x * (1 + ln (IZR (Z.of_nat 1) / IZR 1))) /\
    (x < 0 -> x * (1 + ln (IZR (Z.of_nat 1) / IZR 1)) < 0) /\
    (x <> 0 -> x * (1 + ln (IZR (Z.of_nat 1) / IZR 1)) <> 0).
Proof.
  exact (C10_idf_at_least_one [one_term_cluster 1 1 1] "a"%string _
           calculateIDF_one_cluster).
Defined.

Lemma timed_store_model_after_one (tfad : bool) (distance : string) :
  timed_store (model_after_one tfad distance).
Proof.
  split; [|split]; simpl.
  - repeat constructor. intros H. inversion H.
  - eauto.
  - repeat constructor. simpl. eauto.
Qed.


(** ** How the example stores arise *)

(** Evaluates the attribute assignments and reads on a concrete object. *)
Ltac norm_state :=
  cbv beta iota delta
    [set_microclusters set_upToDate set_t set_lastCleanup set_n
     set_num_merged_obs set_dist_mean set_assignment set_clusterId
     set_microToMacro set_deltaweight set_mc_n new_microcluster
     radius _lambda tgap termfading num_macro realtimefading min_weight
     auto_r auto_merge sigma num_merged_obs t lastCleanup n omega assignment
     microclusters clusterId microToMacro upToDate realtime dist_mean
     micro_distance macro_distance
     mc_id mc_weight mc_time mc_tf mc_oldweight mc_deltaweight mc_realtime
     mc_textids mc_n fst snd].

Lemma singleton_nonempty (k : string) (v : R) : ({[ k := v ]} : gmap string R) <> ∅.
Proof.
  intros H. apply (f_equal (fun m : gmap string R => m !! k)) in H.
  rewrite lookup_singleton_eq, lookup_empty in H. discriminate.
Qed.

Lemma omega_interval_1 : Rpower 2 (-1 * 1 * 1) = / 2.
Proof. replace (-1 * 1 * 1) with (-1) by lra. apply Rpower_2_opp_1. Qed.

(** [model_after_one] is the store of a new model after its first
    observation. *)
Lemma learn_one_first (distance : string) :
  learn_one {[ "a"%string := 1 ]} None (Some (Some 1%Z)) (fresh_model 1 false distance)
  = (model_after_one false distance, Ok 0%Z).
Proof.
  unfold fresh_model, learn_one, bind, lift, modify, ret. norm_state.
  rewrite decide_True by (apply wrap_terms_size, singleton_nonempty).
  unfold process_observation, bind, get, lift, modify, ret, _get_closest_mc.
  norm_state. cbn [scan_loop rbind scan_init min_dist smallest_key].
  rewrite decide_False by lra. norm_state. cbn [dict_set].
  unfold cleanup_due. norm_state. rewrite bool_decide_eq_true_2 by lra.
  unfold _cleanup, bind, get, modify, ret, _updateweights. norm_state.
  cbn [fade_all fade]. norm_state.
  rewrite fade_value_same_time.
  rewrite evict_cons_in.
  2:{ apply (not_evicted_singleton _ 1 _ _ "a"%string (entry 1 1)).
      - cbn [mc_tf snd]. unfold wrap_terms. rewrite map_fmap_singleton.
        rewrite decide_False by lia. reflexivity.
      - cbn [mc_weight snd]. rewrite omega_interval_1. lra. }
  unfold evict. rewrite filter_nil. cbn [map]. norm_state.
  unfold _mergemicroclusters. norm_state.
  cbn [length merge_outer merge_inner]. norm_state.
  unfold model_after_one, wrap_terms, entry. rewrite map_fmap_singleton.
  rewrite decide_False by lia.
  rewrite Rminus_0_r, omega_interval_1, insert_empty.
  replace (1 + 1)%Z with 2%Z by lia. reflexivity.
Qed.

Lemma omega_interval_3 : Rpower 2 (-1 * 1 * 3) = / 8.
Proof.
  replace (-1 * 1 * 3) with (- INR 3) by (simpl; lra).
  rewrite Rpower_Ropp, Rpower_pow by lra. simpl. f_equal. lra.
Qed.

Lemma dist_disjoint_terms (idf : gmap string R) (a b : microcluster) :
  covered idf (mc_tf b) ->
  (forall k, is_Some (mc_tf a !! k) -> idf !! k = None) ->
  dist "tfidf_cosine_distance" a b idf = Ok 1.
Proof.
  intros Hc Ha. unfold dist. simpl. rewrite tfidf_cosine_distance_spec.
  rewrite (decide_True _ _ Hc). f_equal. rewrite decide_True; [reflexivity|].
  left. unfold tfidf_norm.
  rewrite (msum_ext _ (fun _ _ => 0)), msum_zero; [apply sqrt_0|].
  intros k e Hk. unfold tfidf_weight. rewrite (Ha k) by eauto. lra.
Qed.

(** The store of a new model with cleanup interval 3 after its first
    observation: no cleanup has run. *)
Lemma learn_one_first_no_cleanup :
  learn_one {[ "a"%string := 1 ]} None (Some (Some 1%Z))
    (fresh_model 3 false "tfidf_cosine_distance")
  = (model_between, Ok 0%Z).
Proof.
  unfold fresh_model, learn_one, bind, lift, modify, ret. norm_state.
  rewrite decide_True by (apply wrap_terms_size, singleton_nonempty).
  unfold process_observation, bind, get, lift, modify, ret, _get_closest_mc.
  norm_state. cbn [scan_loop rbind scan_init min_dist smallest_key].
  rewrite decide_False by lra. norm_state. cbn [dict_set].
  unfold cleanup_due. norm_state. rewrite bool_decide_eq_false_2 by lra.
  norm_state.
  unfold model_between, wrap_terms, entry. rewrite map_fmap_singleton.
  rewrite decide_False by lia.
  rewrite omega_interval_3, insert_empty, Rplus_0_l.
  replace (1 + 1)%Z with 2%Z by lia. reflexivity.
Qed.

(** [model_after_two] is the store after the second observation, which has
    no term in common with the first. *)
Lemma learn_one_second :
  learn_one {[ "b"%string := 1 ]} None (Some (Some 2%Z)) model_between
  = (model_after_two, Ok 1%Z).
Proof.
  unfold model_between, learn_one, bind, lift, modify, ret. norm_state.
  rewrite decide_True by (apply wrap_terms_size, singleton_nonempty).
  unfold process_observation, bind, get, lift, modify, ret, _get_closest_mc.
  norm_state. cbn [scan_loop].
  rewrite dist_disjoint_terms.
  2:{ apply (calculateIDF_covered
               [(0%Z, mk_microcluster (Some 0%Z) 1 (Some 1)
                        {[ "a"%string := entry 1 1 ]} 0 0 None [Some 1%Z] 1)] 0).
      apply list_elem_of_here. }
  2:{ intros k [e Hk]. cbn [mc_tf] in Hk. unfold wrap_terms in Hk.
      rewrite map_fmap_singleton in Hk.
      apply lookup_singleton_Some in Hk as [<- _].
      unfold _calculateIDF. rewrite lookup_fmap. cbn [dict_values map snd foldl].
      rewrite count_terms_lookup. cbn [mc_tf].
      rewrite lookup_singleton_ne by discriminate. rewrite lookup_empty. reflexivity. }
  cbn [rbind scan_loop scan_step scan_init min_dist smallest_key]. norm_state.
  assert (Hd : forall (A : Type) (x y : A), (if decide (1 < 1) then x else y) = y)
    by (intros; apply decide_False; lra).
  rewrite !Hd. norm_state. cbn [dict_set].
  rewrite decide_False by lia.
  unfold cleanup_due. norm_state. rewrite bool_decide_eq_false_2 by lra.
  norm_state.
  unfold model_after_two, wrap_terms, entry. rewrite map_fmap_singleton.
  rewrite decide_False by lia.
  replace (1 + 1) with 2 by lra.
  replace (1 + 1)%Z with 2%Z by lia. replace (2 + 1)%Z with 3%Z by lia.
  reflexivity.
Qed.

(** Two vectors with the same single term are at distance 0. *)
Lemma dist_same_single_term (idf : gmap string R) (a b : microcluster)
    (k : string) (ea eb : tfentry) (i : R) :
  mc_tf a = {[ k := ea ]} -> mc_tf b = {[ k := eb ]} ->
  0 < tf_value ea -> 0 < tf_value eb -> idf !! k = Some i -> i <> 0 ->
  dist "tfidf_cosine_distance" a b idf = Ok 0.
Proof.
  intros Ha Hb Hea Heb Hi Hi0. unfold dist. simpl.
  rewrite tfidf_cosine_distance_spec, Ha, Hb.
  assert (Hc : covered idf {[ k := eb ]}).
  { apply map_Forall_singleton. rewrite Hi. eauto. }
  rewrite (decide_True _ _ Hc). f_equal.
  assert (Hwa : tfidf_weight idf k ea = tf_value ea * i)
    by (unfold tfidf_weight; rewrite Hi; reflexivity).
  assert (Hwb : tfidf_weight idf k eb = tf_value eb * i)
    by (unfold tfidf_weight; rewrite Hi; reflexivity).
  assert (Hna : tfidf_norm idf {[ k := ea ]} = tf_value ea * Rabs i).
  { rewrite tfidf_norm_singleton, Hwa, Rabs_mult, (Rabs_right (tf_value ea)) by lra.
    reflexivity. }
  assert (Hnb : tfidf_norm idf {[ k := eb ]} = tf_value eb * Rabs i).
  { rewrite tfidf_norm_singleton, Hwb, Rabs_mult, (Rabs_right (tf_value eb)) by lra.
    reflexivity. }
  assert (Hd : tfidf_dot idf {[ k := ea ]} {[ k := eb ]}
               = tf_value ea * i * (tf_value eb * i)).
  { unfold tfidf_dot. rewrite msum_singleton, lookup_singleton_eq, Hwa, Hwb.
    reflexivity. }
  assert (Hai : 0 < Rabs i) by (apply Rabs_pos_lt; exact Hi0).
  assert (Hsq : Rabs i * Rabs i = i * i).
  { unfold Rabs. destruct (Rcase_abs i); ring. }
  rewrite decide_False.
  2:{ rewrite Hna, Hnb. intros [H|H]; nra. }
  unfold cosine_similarity. rewrite Hna, Hnb, Hd.
  replace (tf_value ea * i * (tf_value eb * i) /
           (tf_value ea * Rabs i * (tf_value eb * Rabs i))) with 1.
  - replace (1 - 1) with 0 by lra. apply py_round_0.
  - field_simplify_eq; [nra|]. repeat split; lra.
Qed.

Lemma fade_value_two_halved : fade_value (1 + 1) 1 2 1 = 1.
Proof.
  unfold fade_value. replace (- (1) * (2 - 1)) with (-1) by lra.
  rewrite Rpower_2_opp_1. lra.
Qed.

Lemma merge_tf_singleton (k : string) (a b : tfentry) :
  merge_tf {[ k := a ]} {[ k := b ]}
  = {[ k := {| tf_value := tf_value a + tf_value b; tf_ids := tf_ids a ++ tf_ids b |} ]}.
Proof.
  unfold merge_tf. apply map_eq. intros j. rewrite lookup_union_with.
  destruct (decide (k = j)) as [->|Hne].
  - rewrite !lookup_singleton_eq. reflexivity.
  - rewrite !lookup_singleton_ne by assumption. reflexivity.
Qed.

(** A second observation with the same term is merged into the first
    cluster; the merged weight is 1. *)
Lemma learn_one_merges :
  learn_one {[ "a"%string := 1 ]} None (Some (Some 2%Z))
    (model_after_one false "tfidf_cosine_distance")
  = (model_after_merge, Ok 0%Z).
Proof.
  unfold model_after_one, learn_one, bind, lift, modify, ret. norm_state.
  rewrite decide_True by (apply wrap_terms_size, singleton_nonempty).
  unfold process_observation, bind, get, lift, modify, ret, _get_closest_mc.
  norm_state. cbn [scan_loop].
  rewrite (dist_same_single_term _ _ _ "a"%string (entry 1 2) (entry 1 1)
             (1 + ln (IZR (Z.of_nat 1) / IZR 1))).
  2:{ cbn [mc_tf]. unfold wrap_terms. rewrite map_fmap_singleton.
      rewrite decide_False by lia. reflexivity. }
  2:{ reflexivity. }
  2:{ simpl. lra. }
  2:{ simpl. lra. }
  2:{ unfold _calculateIDF. rewrite lookup_fmap. cbn [dict_values map snd foldl length].
      rewrite count_terms_lookup. cbn [mc_tf].
      rewrite lookup_singleton_eq, lookup_empty. reflexivity. }
  2:{ pose proof (idf_value_ge_1 (Z.of_nat 1) 1 ltac:(lia)). lra. }
  cbn [rbind scan_loop scan_step scan_init min_dist smallest_key]. norm_state.
  assert (Hd : forall (A : Type) (x y : A), (if decide (0 < 1) then x else y) = x)
    by (intros; apply decide_True; lra).
  rewrite !Hd. norm_state.
  unfold with_cluster. norm_state. cbn [dict_get dict_set].
  rewrite !decide_True by reflexivity. norm_state. cbn [dict_get dict_set].
  rewrite !decide_True by reflexivity.
  unfold merge, set_merge_head, set_merge_tail, fade. norm_state.
  cbn [dict_get dict_set]. rewrite !decide_True by reflexivity. norm_state.
  unfold cleanup_due. norm_state. rewrite bool_decide_eq_true_2 by lra.
  unfold _cleanup, bind, get, modify, ret, _updateweights. norm_state.
  cbn [fade_all fade]. norm_state.
  unfold wrap_terms, entry. rewrite map_fmap_singleton, merge_tf_singleton.
  rewrite !decide_False by lia.
  rewrite fade_value_same_time, fade_value_two_halved.
  rewrite evict_cons_in.
  2:{ apply (not_evicted_singleton _ 1 _ _ "a"%string
               {| tf_value := 1 + 1; tf_ids := [Some 1%Z] ++ [Some 2%Z] |});
        [reflexivity|]. cbn [mc_weight snd]. lra. }
  unfold evict. rewrite filter_nil. cbn [map]. norm_state.
  unfold _mergemicroclusters. norm_state.
  cbn [length merge_outer merge_inner]. norm_state.
  unfold model_after_merge. cbn [tf_value tf_ids app].
  replace (1 + 1) with 2 by lra. replace (1 - 1) with 0 by lra.
  replace (1 + 1)%Z with 2%Z by lia. replace (2 + 1)%Z with 3%Z by lia.
  reflexivity.
Qed.

(** ** The merge sweep runs to its end *)

Lemma merge_inner_length (distance : string) (idf : gmap string R) (thr : R)
    (tnow : option R) (om lam : R) (tfad : bool) (rt : option R)
    (ci : microcluster) (rest : list (Z * microcluster)) :
  (length (merge_inner distance idf thr tnow om lam tfad rt ci rest).1.2
   <= length rest)%nat.
Proof.
  revert ci. induction rest as [|[kj cj] rest IH]; intros ci; simpl; [lia|].
  destruct (dist distance ci cj idf) as [d|e]; simpl; [|lia].
  destruct (decide (d < thr)).
  - destruct (merge ci cj tnow om lam tfad rt) as [[ci' cj'] [[]|e]]; simpl; [|lia].
    specialize (IH ci'). lia.
  - specialize (IH ci).
    destruct (merge_inner distance idf thr tnow om lam tfad rt ci rest)
      as [[ci' kept] r]. simpl in *. lia.
Qed.

(** Any fuel of at least [length l] rounds gives the same result: the fuel
    that [_mergemicroclusters] passes is never used up before the loop
    condition fails. *)
Lemma merge_outer_fuel (distance : string) (idf : gmap string R) (thr : R)
    (tnow : option R) (om lam : R) (tfad : bool) (rt : option R)
    (f1 f2 : nat) (l : list (Z * microcluster)) :
  (length l <= f1)%nat -> (length l <= f2)%nat ->
  merge_outer f1 distance idf thr tnow om lam tfad rt l =
  merge_outer f2 distance idf thr tnow om lam tfad rt l.
Proof.
  revert f2 l. induction f1 as [|f1 IH]; intros f2 l H1 H2.
  - destruct l; [|simpl in H1; lia]. destruct f2; reflexivity.
  - destruct l as [|[ki ci] rest]; [destruct f2; reflexivity|].
    destruct f2 as [|f2]; [simpl in H2; lia|]. simpl in H1, H2.
    cbn [merge_outer].
    pose proof (merge_inner_length distance idf thr tnow om lam tfad rt ci rest) as Hlen.
    destruct (merge_inner distance idf thr tnow om lam tfad rt ci rest)
      as [[ci' rest'] [[]|e]]; simpl in Hlen; [|reflexivity].
    rewrite (IH f2 rest') by lia. reflexivity.
Qed.

(** * Further properties of the code *)

(** ** How the further example stores arise *)

Lemma realtime_model_init :
  __init__ 1 1 1 false true "tfidf_cosine_distance" "tfidf_cosine_distance"
    3 0 false true 1 = Ok realtime_model.
Proof. reflexivity. Qed.

(** [_updateweights] at time 2 takes the store after two observations to
    the store with the first cluster faded. *)
Lemma updateweights_model_after_two :
  _updateweights model_after_two = (model_two_faded, Ok tt).
Proof.
  unfold _updateweights, model_after_two. norm_state.
  cbn [fade_all fade]. norm_state.
  rewrite fade_value_one_step, fade_value_same_time.
  rewrite evict_cons_in.
  2:{ apply (not_evicted_singleton _ 1 _ _ "a"%string (entry 1 1)); [reflexivity|].
      cbn [mc_weight snd]. lra. }
  rewrite evict_cons_in.
  2:{ apply (not_evicted_singleton _ 1 _ _ "b"%string (entry 1 2)); [reflexivity|].
      cbn [mc_weight snd]. lra. }
  unfold evict. rewrite filter_nil. reflexivity.
Qed.

(** ** What [_updateweights] leaves *)

Lemma fade_all_spec (l l' : list (Z * microcluster)) (tnow : option R)
    (om lam : R) (tfad : bool) (rt : option R) :
  fade_all l tnow om lam tfad rt = (l', Ok tt) ->
  Forall2 (fun kv kv' : Z * microcluster =>
             kv'.1 = kv.1 /\ fade kv.2 tnow om lam tfad rt = Ok kv'.2) l l'.
Proof.
  revert l'. induction l as [|[k m] l IH]; intros l'; cbn [fade_all].
  - intros [= <-]. constructor.
  - destruct (fade m tnow om lam tfad rt) as [m'|e] eqn:Hm; [|discriminate].
    destruct (fade_all l tnow om lam tfad rt) as [l'' r] eqn:Hl.
    intros [= <- ->]. constructor; [split; [reflexivity|exact Hm]|].
    apply IH. reflexivity.
Qed.

Lemma fade_all_keys (l l' : list (Z * microcluster)) (tnow : option R)
    (om lam : R) (tfad : bool) (rt : option R) :
  fade_all l tnow om lam tfad rt = (l', Ok tt) -> dict_keys l' = dict_keys l.
Proof.
  intros Hf. apply fade_all_spec in Hf. unfold dict_keys.
  induction Hf as [|kv kv' l1 l2 [Hk _] _ IH]; simpl in *; [reflexivity|].
  f_equal; assumption.
Qed.

Lemma fade_all_elem (l l' : list (Z * microcluster)) (tnow : option R)
    (om lam : R) (tfad : bool) (rt : option R) (kv' : Z * microcluster) :
  fade_all l tnow om lam tfad rt = (l', Ok tt) -> kv' ∈ l' ->
  exists kv, kv ∈ l /\ kv'.1 = kv.1 /\ fade kv.2 tnow om lam tfad rt = Ok kv'.2.
Proof.
  intros Hf. apply fade_all_spec in Hf.
  induction Hf as [|kv0 kv1 l1 l2 [Hk Hfd] _ IH]; intros Hin; [inversion Hin|].
  apply elem_of_cons in Hin as [->|Hin].
  - exists kv0. split; [left|split; assumption].
  - destruct (IH Hin) as (kv & H1 & H2). exists kv. split; [right; exact H1|exact H2].
Qed.

(** A cluster that a fade to [tnow] has produced. *)
Lemma fade_result (m m' : microcluster) (tnow : option R) (om lam : R)
    (tfad : bool) (rt : option R) :
  fade m tnow om lam tfad rt = Ok m' ->
  mc_time m' = tnow /\ mc_realtime m' = rt /\
  (tfad = true -> map_Forall (fun _ e => om < tf_value e) (mc_tf m')).
Proof.
  unfold fade. destruct tnow as [tn|]; [|discriminate].
  destruct (mc_time m) as [tm|]; [|discriminate].
  intros [= <-]. simpl. split; [reflexivity|]. split; [reflexivity|].
  intros ->. intros k e' Hk. rewrite lookup_omap in Hk.
  destruct (mc_tf m !! k) as [e|]; simpl in Hk; [|discriminate].
  unfold fade_term in Hk.
  destruct (decide (fade_value (tf_value e) lam tn tm <= om)); [discriminate|].
  injection Hk as <-. simpl. lra.
Qed.

Lemma updateweights_ok (self s1 : textclust) :
  _updateweights self = (s1, Ok tt) ->
  exists l',
    fade_all (microclusters self) (t self) (omega self) (_lambda self)
      (termfading self) (realtime self) = (l', Ok tt) /\
    s1 = set_microclusters (evict (omega self) l') self.
Proof.
  unfold _updateweights.
  destruct (fade_all _ _ _ _ _ _) as [l' [[]|e]]; intros [= <-]; eauto.
Qed.

(** The store after a successful [_updateweights]. *)
Lemma updateweights_post (self s1 : textclust) :
  _updateweights self = (s1, Ok tt) ->
  s1 = set_microclusters (microclusters s1) self /\
  dict_keys (microclusters s1) `sublist_of` dict_keys (microclusters self) /\
  Forall (fun kv : Z * microcluster =>
            mc_time kv.2 = t self /\ mc_realtime kv.2 = realtime self /\
            (termfading self = true ->
             map_Forall (fun _ e => omega self < tf_value e) (mc_tf kv.2)) /\
            ~ evicted (omega self) kv) (microclusters s1).
Proof.
  intros Hu. destruct (updateweights_ok self s1 Hu) as (l' & Hf & ->).
  simpl. split; [reflexivity|]. split.
  - rewrite <- (fade_all_keys _ _ _ _ _ _ _ Hf).
    unfold dict_keys, evict. apply fmap_sublist, sublist_filter.
  - unfold evict. apply Forall_forall. intros kv Hin.
    apply list_elem_of_filter in Hin as [Hne Hin].
    destruct (fade_all_elem _ _ _ _ _ _ _ _ Hf Hin) as (kv0 & _ & _ & Hfd).
    apply fade_result in Hfd as (H1 & H2 & H3). tauto.
Qed.

(** X2.  After a successful [_updateweights] every cluster left in the store
    has a weight above [omega], holds at least one term and carries the
    store's current time (with term fading, every term weight is above
    [omega] too); the keys left are a subsequence of the keys before, and no
    attribute of the object other than [microclusters] has changed. *)
Theorem X2_updateweights_survivors (self s1 : textclust) :
  _updateweights self = (s1, Ok tt) ->
  s1 = set_microclusters (microclusters s1) self /\
  dict_keys (microclusters s1) `sublist_of` dict_keys (microclusters self) /\
  forall k m, (k, m) ∈ microclusters s1 ->
    omega self < mc_weight m /\ mc_tf m <> ∅ /\ mc_time m = t self /\
    (termfading self = true -> forall key e, mc_tf m !! key = Some e ->
                                             omega self < tf_value e).
Proof.
  intros Hu. destruct (updateweights_post self s1 Hu) as (Hs & Hk & Hall).
  split; [exact Hs|]. split; [exact Hk|].
  intros k m Hin. rewrite Forall_forall in Hall.
  destruct (Hall _ Hin) as (Ht & _ & Htf & Hne). simpl in *.
  unfold evicted in Hne. simpl in Hne.
  split; [|split; [|split]].
  - destruct (Rlt_le_dec (omega self) (mc_weight m)); [assumption|tauto].
  - intros He. apply Hne. right. rewrite He. apply map_size_empty.
  - exact Ht.
  - intros Htrue key e Hl. exact (Htf Htrue key e Hl).
Qed.

Lemma X2_updateweights_survivors_witness :
  let self := model_after_two in
  let s1 := model_two_faded in
  s1 = set_microclusters (microclusters s1) self /\
  dict_keys (microclusters s1) `sublist_of` dict_keys (microclusters self) /\
  forall k m, (k, m) ∈ microclusters s1 ->
    omega self < mc_weight m /\ mc_tf m <> ∅ /\ mc_time m = t self /\
    (termfading self = true -> forall key e, mc_tf m !! key = Some e ->
                                             omega self < tf_value e).
Proof.
  exact (X2_updateweights_survivors _ _ updateweights_model_after_two).
Defined.

Lemma fade_all_no_time (l l' : list (Z * microcluster)) (om lam : R)
    (tfad : bool) (rt : option R) :
  fade_all l None om lam tfad rt = (l', Ok tt) -> l = [].
Proof.
  destruct l as [|[k m] l]; [reflexivity|]. cbn [fade_all].
  unfold fade. discriminate.
Qed.

(** X3.  [_updateweights] is idempotent: run again on the store that a
    successful run has left, it succeeds and changes nothing. *)
Theorem X3_updateweights_idempotent (self s1 : textclust) :
  _updateweights self = (s1, Ok tt) -> _updateweights s1 = (s1, Ok tt).
Proof.
  intros Hu. destruct (t self) as [tn|] eqn:Ht.
  - destruct (updateweights_post self s1 Hu) as (Hs & _ & Hall).
    assert (Hf : t s1 = t self /\ realtime s1 = realtime self /\
                 termfading s1 = termfading self /\ omega s1 = omega self).
    { rewrite Hs. repeat split. }
    destruct Hf as (E1 & E2 & E3 & E4).
    apply (updateweights_current s1 tn); [congruence|].
    rewrite E2, E3, E4, <- Ht. exact Hall.
  - destruct (updateweights_ok self s1 Hu) as (l' & Hf & ->).
    rewrite Ht in Hf. pose proof (fade_all_no_time _ _ _ _ _ _ Hf) as Hnil.
    rewrite Hnil in Hf. cbn [fade_all] in Hf. injection Hf as <-.
    reflexivity.
Qed.

Lemma X3_updateweights_idempotent_witness :
  _updateweights model_two_faded = (model_two_faded, Ok tt).
Proof.
  exact (X3_updateweights_idempotent _ _ updateweights_model_after_two).
Defined.

(** ** The value of an IDF entry *)

Lemma doc_freq_nil (k : string) : doc_freq k [] = 0%Z.
Proof. reflexivity. Qed.

Lemma doc_freq_cons (k : string) (m : microcluster) (l : list microcluster) :
  doc_freq k (m :: l) =
    ((if decide (is_Some (mc_tf m !! k)) then 1 else 0) + doc_freq k l)%Z.
Proof.
  unfold doc_freq. rewrite filter_cons.
  destruct (decide (is_Some (mc_tf m !! k))); simpl length; lia.
Qed.

Lemma doc_freq_nonneg (k : string) (l : list microcluster) : (0 <= doc_freq k l)%Z.
Proof. unfold doc_freq. lia. Qed.

(** The first pass counts, for every term, the clusters that hold it. *)
Lemma foldl_count_terms_lookup (l : list microcluster) (result : gmap string Z)
    (k : string) :
  (forall c, result !! k = Some c -> (1 <= c)%Z) ->
  foldl count_terms result l !! k =
    let c := (default 0%Z (result !! k) + doc_freq k l)%Z in
    if decide (c = 0%Z) then None else Some c.
Proof.
  revert result. induction l as [|m l IH]; intros result Hres; cbn [foldl].
  - rewrite doc_freq_nil. cbv zeta.
    destruct (result !! k) as [c|] eqn:Hk; simpl.
    + specialize (Hres c eq_refl). rewrite decide_False by lia. f_equal. lia.
    + reflexivity.
  - rewrite IH.
    + rewrite doc_freq_cons, count_terms_lookup. cbv zeta.
      destruct (mc_tf m !! k) as [e|] eqn:Hm.
      * rewrite (decide_True (P := is_Some (Some e))) by eauto. simpl.
        destruct (result !! k) as [c|] eqn:Hk; simpl.
        -- specialize (Hres c eq_refl). pose proof (doc_freq_nonneg k l).
           rewrite !decide_False by lia. f_equal. lia.
        -- pose proof (doc_freq_nonneg k l).
           rewrite !decide_False by lia. f_equal.
      * rewrite (decide_False (P := is_Some None)) by (intros [? [=]]).
        reflexivity.
    + intros c. rewrite count_terms_lookup.
      destruct (mc_tf m !! k); [|apply Hres].
      intros [= <-]. destruct (result !! k) as [c'|] eqn:Hk; simpl; [|lia].
      specialize (Hres c' eq_refl). lia.
Qed.

(** X4.  The IDF table has an entry exactly for the terms that occur in some
    cluster, and the entry of a term is [1 + ln (N / df)], with [N] the
    number of clusters and [df] the number of clusters that hold the
    term. *)
Theorem X4_calculateIDF_value (mcs : list microcluster) (k : string) :
  _calculateIDF mcs !! k =
    if decide (doc_freq k mcs = 0%Z) then None
    else Some (1 + ln (IZR (Z.of_nat (length mcs)) / IZR (doc_freq k mcs))).
Proof.
  unfold _calculateIDF. cbv zeta. rewrite lookup_fmap, foldl_count_terms_lookup.
  - cbv zeta. rewrite lookup_empty. simpl default. rewrite Z.add_0_l.
    destruct (decide (doc_freq k mcs = 0%Z)); reflexivity.
  - intros c. rewrite lookup_empty. discriminate.
Qed.

(** ** The bookkeeping of [learn_one] *)

Lemma dict_get_Some_key {A : Type} (l : list (Z * A)) (k : Z) (v : A) :
  dict_get k l = Some v -> k ∈ dict_keys l.
Proof.
  unfold dict_keys. induction l as [|[k' v'] l IH]; simpl; [discriminate|].
  destruct (decide (k = k')) as [->|Hne]; intros H.
  - left.
  - right. apply IH, H.
Qed.

(** What a successful [process_observation] has written. *)
Lemma process_observation_ok (ngrams : gmap string tfentry) (id : option Z)
    (self s1 : textclust) (c : Z) :
  process_observation ngrams id self = (s1, Ok c) ->
  n s1 = n self /\ t s1 = t self /\ upToDate s1 = upToDate self /\
  lastCleanup s1 = lastCleanup self /\
  assignment s1 = <[n self := c]> (assignment self) /\
  is_Some (dict_get c (microclusters s1)) /\
  ((c ∈ dict_keys (microclusters self) /\ clusterId s1 = clusterId self) \/
   (c = clusterId self /\ clusterId s1 = (clusterId self + 1)%Z)).
Proof.
  unfold process_observation, bind, get, lift, modify, with_cluster, ret.
  destruct (_get_closest_mc _ _ _ _) as [[[k|] md]|e]; simpl; [| |discriminate].
  - destruct (dict_get k (microclusters self)) as [m|] eqn:Hget; simpl;
      [|discriminate].
    rewrite dict_get_set_eq.
    destruct (merge _ _ _ _ _ _ _) as [[m' src'] [[]|e]]; simpl; [|discriminate].
    intros [= <- <-]. simpl. rewrite !dict_get_set_eq.
    repeat split; [eauto|]. left. split; [|reflexivity].
    exact (dict_get_Some_key _ _ _ Hget).
  - intros [= <- <-]. simpl. rewrite !dict_get_set_eq.
    repeat split; [eauto|]. right. split; reflexivity.
Qed.

Lemma cleanup_due_state (self s : textclust) (r : result bool) :
  cleanup_due self = (s, r) -> s = self.
Proof.
  unfold cleanup_due. destruct (lastCleanup self); [destruct (t self)|];
    intros [= <- _]; reflexivity.
Qed.

Lemma cleanup_keeps (self : textclust) :
  upToDate (_cleanup self).1 = upToDate self /\ t (_cleanup self).1 = t self.
Proof.
  unfold _cleanup, bind, get, modify, ret. simpl.
  pose proof (updateweights_frame (set_lastCleanup (t self) self)) as Hu.
  destruct (_updateweights (set_lastCleanup (t self) self)) as [s1 [[]|e]];
    simpl in Hu; [|rewrite Hu; auto].
  destruct (auto_merge self).
  - pose proof (mergemicroclusters_frame
                  (set_microclusters
                     (map (fun kv => (kv.1, set_deltaweight kv.2)) (microclusters s1)) s1))
      as Hm.
    destruct (_mergemicroclusters _) as [s2 [[]|e]]; simpl in Hm |- *;
      rewrite Hm, Hu; auto.
  - simpl. rewrite Hu. auto.
Qed.

(** X5.  A call of [learn_one] that returns a cluster id [c] had a non-empty
    observation and an [id] keyword; it has advanced the observation counter
    by one, logged the observation under the old counter as assigned to
    [c], set the current time to the time of the call and left the cache of
    macro-clusters marked as stale.  The id [c] is the key of a cluster that
    was live at the call, or the next free id, which is then used up. *)
Theorem X5_learn_one_bookkeeping (x : gmap string R) (time : option R)
    (kw : option (option Z)) (self s' : textclust) (c : Z) :
  learn_one x time kw self = (s', Ok c) ->
  x <> ∅ /\ is_Some kw /\
  n s' = (n self + 1)%Z /\
  assignment s' = <[n self := c]> (assignment self) /\
  t s' = call_time self time /\
  upToDate s' = false /\
  ((c ∈ dict_keys (microclusters self) /\ clusterId s' = clusterId self) \/
   (c = clusterId self /\ clusterId s' = (clusterId self + 1)%Z)).
Proof.
  destruct kw as [v|]; [|discriminate].
  destruct (decide (x = ∅)) as [->|Hx].
  { rewrite learn_one_empty. cbv zeta.
    destruct (cleanup_due _) as [s1 [[|]|e]]; [|discriminate..].
    destruct (_cleanup _) as [s2 [[]|e]]; discriminate. }
  rewrite (learn_one_nonempty x time v self Hx). cbv zeta.
  set (s0 := set_t (call_time self time) (set_upToDate false self)).
  destruct (process_observation _ _ s0) as [s1 [c1|e]] eqn:Hp; [|discriminate].
  apply process_observation_ok in Hp as (Hn & Ht & Hup & _ & Has & _ & Hc).
  destruct (cleanup_due s1) as [s2 [due|e]] eqn:Hd; [|discriminate].
  apply cleanup_due_state in Hd as ->.
  assert (Hfr : forall s3 r, (if due then _cleanup else ret tt) s1 = (s3, r) ->
            assignment s3 = assignment s1 /\ clusterId s3 = clusterId s1 /\
            n s3 = n s1 /\ upToDate s3 = upToDate s1 /\ t s3 = t s1).
  { intros s3 r. destruct due.
    - intros H. pose proof (cleanup_frame s1) as (F1 & F2 & F3).
      pose proof (cleanup_keeps s1) as (F4 & F5). rewrite H in *. simpl in *.
      auto.
    - intros [= <- _]. auto. }
  destruct ((if due then _cleanup else ret tt) s1) as [s3 [[]|e]] eqn:Hcl;
    [|discriminate].
  destruct (Hfr _ _ eq_refl) as (F1 & F2 & F3 & F4 & F5).
  intros [= <- <-]. simpl.
  split; [exact Hx|]. split; [eauto|].
  rewrite F3, Hn, F1, Has, F5, Ht, F4, Hup, F2. subst s0. simpl.
  repeat split. exact Hc.
Qed.

Lemma X5_learn_one_bookkeeping_witness :
  let self := model_after_one false "tfidf_cosine_distance" in
  let x : gmap string R := {[ "a"%string := 1 ]} in
  let s' := model_after_merge in
  x <> ∅ /\ is_Some (Some (Some 2%Z)) /\
  n s' = (n self + 1)%Z /\
  assignment s' = <[n self := 0%Z]> (assignment self) /\
  t s' = call_time self None /\
  upToDate s' = false /\
  ((0%Z ∈ dict_keys (microclusters self) /\ clusterId s' = clusterId self) \/
   (0%Z = clusterId self /\ clusterId s' = (clusterId self + 1)%Z)).
Proof.
  exact (X5_learn_one_bookkeeping _ _ _ _ _ _ learn_one_merges).
Defined.

(** ** Real-time fading needs a time *)

(** X6.  With real-time fading switched on, a call of [learn_one] that
    passes no [time] never returns a cluster id: every such call ends in an
    exception, whatever the observation and the store. *)
Theorem X6_realtime_needs_time (x : gmap string R) (kw : option (option Z))
    (self : textclust) :
  realtimefading self = true ->
  exists s' e, learn_one x None kw self = (s', Raise e).
Proof.
  intros Hrt.
  destruct (learn_one x None kw self) as [s' [c|e]] eqn:Hl; [|eauto].
  exfalso. destruct kw as [v|]; [|discriminate].
  destruct (decide (x = ∅)) as [->|Hx].
  { rewrite learn_one_empty in Hl. cbv zeta in Hl.
    destruct (cleanup_due _) as [s1 [[|]|e]]; [|discriminate..].
    destruct (_cleanup _) as [s2 [[]|e]]; discriminate. }
  rewrite (learn_one_nonempty x None v self Hx) in Hl. cbv zeta in Hl.
  unfold call_time in Hl. rewrite Hrt in Hl.
  destruct (process_observation _ _ _) as [s1 [c1|e]] eqn:Hp; [|discriminate].
  apply process_observation_ok in Hp as (_ & Ht & _ & _ & _ & [m Hm] & _).
  simpl in Ht.
  unfold cleanup_due in Hl. rewrite Ht in Hl.
  destruct (lastCleanup s1); [discriminate|].
  unfold _cleanup, bind, get, modify in Hl. simpl in Hl.
  unfold _updateweights in Hl. simpl in Hl. rewrite Ht in Hl.
  destruct (microclusters s1) as [|[k0 m0] l]; [discriminate|].
  cbn [fade_all] in Hl. unfold fade in Hl. simpl in Hl. discriminate.
Qed.

Lemma X6_realtime_needs_time_witness :
  exists s' e,
    learn_one {[ "a"%string := 1 ]} None (Some (Some 1%Z))
      realtime_model = (s', Raise e).
Proof.
  apply X6_realtime_needs_time. reflexivity.
Defined.

(** ** The cluster that [_get_closest_mc] selects *)

Lemma scan_loop_first (distance : string) (mc : microcluster) (idf : gmap string R)
    (l : list (Z * microcluster)) (s s' : scan) :
  scan_loop distance mc idf l s = Ok s' ->
  counter s' = (counter s + Z.of_nat (length l))%Z /\
  ((min_dist s' = min_dist s /\ smallest_key s' = smallest_key s /\
    Forall (fun kv : Z * microcluster =>
              exists d, dist distance mc kv.2 idf = Ok d /\ min_dist s <= d) l) \/
   (min_dist s' < min_dist s /\
    exists c, smallest_key s' = Some c /\
              first_nearest distance mc idf l c (min_dist s'))).
Proof.
  revert s. induction l as [|[k m] l IH]; intros s; cbn [scan_loop].
  - intros [= <-]. split; [simpl; lia|]. left. auto.
  - destruct (dist distance mc m idf) as [d|e] eqn:Hd; [|discriminate].
    cbn [rbind]. intros Hrun. destruct (IH _ Hrun) as (Hc & Hcase).
    split; [rewrite Hc; simpl counter; simpl length; lia|].
    unfold scan_step in Hcase. cbn [min_dist smallest_key] in Hcase.
    destruct (decide (d < min_dist s)) as [Hlt|Hge].
    + destruct Hcase as [(Hm & Hk & Hall)|(Hm & c & Hk & l1 & m0 & l2 & -> & Hd0 & H1 & H2)].
      * right. split; [lra|]. exists k. split; [exact Hk|].
        exists [], m, l. rewrite Hm. repeat split; auto.
      * right. split; [lra|]. exists c. split; [exact Hk|].
        exists ((k, m) :: l1), m0, l2. repeat split; auto.
        constructor; [|exact H1]. exists d. split; [exact Hd|lra].
    + destruct Hcase as [(Hm & Hk & Hall)|(Hm & c & Hk & l1 & m0 & l2 & -> & Hd0 & H1 & H2)].
      * left. repeat split; auto. constructor; [|exact Hall].
        exists d. split; [exact Hd|lra].
      * right. split; [lra|]. exists c. split; [exact Hk|].
        exists ((k, m) :: l1), m0, l2. repeat split; auto.
        constructor; [|exact H1]. exists d. split; [exact Hd|lra].
Qed.

(** X7.  When [_get_closest_mc] selects a cluster, the distance it returns
    is strictly below 1 and, in the fixed mode, below the radius, and the
    selected key is that of the first cluster, in the order of the dict, at
    the smallest distance: a tie goes to the cluster that was inserted
    first, and a cluster at distance 1 is never selected, however large the
    radius.  In the adaptive mode a selection needs at least two
    clusters. *)
Theorem X7_closest_is_first_minimum (self : textclust) (mc : microcluster)
    (idf : gmap string R) (distance : string) (c : Z) (md : R) :
  _get_closest_mc self mc idf distance = Ok (Some c, md) ->
  md < 1 /\
  first_nearest distance mc idf (microclusters self) c md /\
  (auto_r self = false -> md < radius self) /\
  (auto_r self = true -> (2 <= length (microclusters self))%nat).
Proof.
  unfold _get_closest_mc.
  destruct (scan_loop _ _ _ _ _) as [s|e] eqn:Hrun; [|discriminate].
  cbn [rbind]. apply scan_loop_first in Hrun as (Hc & Hcase).
  assert (Hsel : smallest_key s = Some c ->
                 min_dist s < 1 /\
                 first_nearest distance mc idf (microclusters self) c (min_dist s)).
  { intros Hk.
    destruct Hcase as [(_ & Hk' & _)|(Hm & c' & Hk' & Hfn)].
    - rewrite Hk in Hk'. discriminate.
    - rewrite Hk in Hk'. injection Hk' as <-. split; [exact Hm|exact Hfn]. }
  destruct (auto_r self).
  - destruct (decide (1 < counter s)%Z) as [Hcnt|]; [|discriminate].
    destruct (py_sqrt _) as [sd|e]; [|discriminate]. cbn [rbind].
    destruct (decide (min_dist s < _)); [|discriminate].
    intros [= Hk <-]. destruct (Hsel Hk) as (H1 & H2).
    repeat split; auto; [discriminate|].
    intros _. simpl in Hc. lia.
  - destruct (decide (min_dist s < radius self)) as [Hr|]; [|discriminate].
    intros [= Hk <-]. destruct (Hsel Hk) as (H1 & H2).
    repeat split; auto. discriminate.
Qed.

Lemma closest_model_after_one :
  _get_closest_mc (model_after_one false "tfidf_cosine_distance")
    (one_term_cluster 2 1 2) {[ "a"%string := 1 ]} "tfidf_cosine_distance"
  = Ok (Some 0%Z, 0).
Proof.
  unfold _get_closest_mc, model_after_one. norm_state. cbn [scan_loop].
  rewrite (dist_same_single_term _ _ _ "a"%string (entry 1 2) (entry 1 1) 1);
    [|reflexivity|reflexivity|simpl; lra|simpl; lra|reflexivity|lra].
  cbn [rbind scan_loop scan_step scan_init min_dist smallest_key].
  assert (Hd : forall (A : Type) (x y : A), (if decide (0 < 1) then x else y) = x)
    by (intros; apply decide_True; lra).
  rewrite !Hd. reflexivity.
Qed.

Lemma X7_closest_is_first_minimum_witness :
  let self := model_after_one false "tfidf_cosine_distance" in
  0 < 1 /\
  first_nearest "tfidf_cosine_distance" (one_term_cluster 2 1 2)
    {[ "a"%string := 1 ]} (microclusters self) 0 0 /\
  (auto_r self = false -> 0 < radius self) /\
  (auto_r self = true -> (2 <= length (microclusters self))%nat).
Proof.
  exact (X7_closest_is_first_minimum _ _ _ _ _ _ closest_model_after_one).
Defined.

(** ** The cluster that [predict_one] returns *)

Lemma first_nearest_cons_eq (distance : string) (mc : microcluster)
    (idf : gmap string R) (l : list (Z * microcluster)) (k : Z) (m : microcluster)
    (d : R) :
  dist distance mc m idf = Ok d ->
  Forall (fun kv : Z * microcluster =>
            exists d', dist distance mc kv.2 idf = Ok d' /\ d <= d') l ->
  first_nearest distance mc idf ((k, m) :: l) k d.
Proof. intros Hd Hall. exists [], m, l. repeat split; auto. Qed.

Lemma first_nearest_cons_later (distance : string) (mc : microcluster)
    (idf : gmap string R) (l : list (Z * microcluster)) (k c : Z)
    (m : microcluster) (d md : R) :
  dist distance mc m idf = Ok d -> md < d ->
  first_nearest distance mc idf l c md ->
  first_nearest distance mc idf ((k, m) :: l) c md.
Proof.
  intros Hd Hlt (l1 & m0 & l2 & -> & Hd0 & H1 & H2).
  exists ((k, m) :: l1), m0, l2. repeat split; auto.
  constructor; [|exact H1]. exists d. split; [exact Hd|exact Hlt].
Qed.

Lemma nearest_loop_spec (distance : string) (minw : R) (mc : microcluster)
    (idf : gmap string R) (l : list (Z * microcluster))
    (best : option R) (closest r : option Z) :
  nearest_loop distance minw mc idf l best closest = Ok r ->
  (r = closest /\
   match best with
   | None => eligible minw l = []
   | Some b => Forall (fun kv : Z * microcluster =>
                         exists d, dist distance mc kv.2 idf = Ok d /\ b <= d)
                 (eligible minw l)
   end) \/
  (exists c md, r = Some c /\
     first_nearest distance mc idf (eligible minw l) c md /\
     match best with None => True | Some b => md < b end).
Proof.
  revert best closest. induction l as [|[k m] l IH]; intros best closest;
    cbn [nearest_loop].
  - intros [= <-]. left. split; [reflexivity|]. destruct best; [constructor|reflexivity].
  - unfold eligible. destruct (decide (minw < mc_weight m)) as [Hw|Hw].
    + rewrite filter_cons_True by exact Hw. fold (eligible minw l).
      destruct (dist distance mc m idf) as [d|e] eqn:Hd; [|discriminate].
      cbn [rbind].
      destruct best as [b|].
      * destruct (bool_decide (d < b)) eqn:Hb.
        -- apply bool_decide_eq_true_1 in Hb. intros Hrun.
           destruct (IH _ _ Hrun) as [(-> & Hall)|(c & md & -> & Hfn & Hlt)].
           ++ right. exists k, d. split; [reflexivity|].
              split; [apply first_nearest_cons_eq; assumption|exact Hb].
           ++ right. exists c, md. split; [reflexivity|].
              split; [apply (first_nearest_cons_later _ _ _ _ _ _ _ d); assumption|lra].
        -- apply bool_decide_eq_false_1 in Hb. intros Hrun.
           destruct (IH _ _ Hrun) as [(-> & Hall)|(c & md & -> & Hfn & Hlt)].
           ++ left. split; [reflexivity|]. constructor; [|exact Hall].
              exists d. split; [exact Hd|lra].
           ++ right. exists c, md. split; [reflexivity|].
              split; [apply (first_nearest_cons_later _ _ _ _ _ _ _ d);
                        [assumption|lra|assumption]|exact Hlt].
      * intros Hrun.
        destruct (IH _ _ Hrun) as [(-> & Hall)|(c & md & -> & Hfn & Hlt)].
        -- right. exists k, d. split; [reflexivity|].
           split; [apply first_nearest_cons_eq; assumption|exact I].
        -- right. exists c, md. split; [reflexivity|].
           split; [apply (first_nearest_cons_later _ _ _ _ _ _ _ d); assumption|exact I].
    + rewrite filter_cons_False by exact Hw. fold (eligible minw l). apply IH.
Qed.

(** X8.  When [predict_one] returns in micro mode, the store is the one that
    [_updateweights] leaves.  A returned key is that of the first cluster,
    in the order of the dict, at the smallest distance from the input among
    the clusters whose weight is above [min_weight]; [None] is returned
    exactly when the input is empty or no cluster has a weight above
    [min_weight]. *)
Theorem X8_predict_one_micro (x : gmap string R) (self s1 : textclust)
    (r : option Z) :
  predict_one x "micro" self = (s1, Ok r) ->
  _updateweights self = (s1, Ok tt) /\
  let mc := new_microcluster (wrap_terms x None) (Some 1) 1 (realtime s1) None None in
  let idf := _calculateIDF (dict_values (microclusters s1)) in
  match r with
  | Some c =>
      x <> ∅ /\
      exists md, first_nearest (micro_distance s1) mc idf
                   (eligible (min_weight s1) (microclusters s1)) c md
  | None => x = ∅ \/ eligible (min_weight s1) (microclusters s1) = []
  end.
Proof.
  unfold predict_one, get_assignment, bind, get, lift, ret, raise.
  destruct (_updateweights self) as [s [[]|e]]; [|discriminate].
  destruct (decide (0 < size (wrap_terms x None))%nat) as [Hs|Hs].
  - assert (Hx : x <> ∅).
    { intros ->. unfold wrap_terms in Hs. rewrite fmap_empty, map_size_empty in Hs. lia. }
    destruct (nearest_loop _ _ _ _ _ _ _) as [a|e] eqn:Hrun; [|discriminate].
    cbn [decide]. rewrite decide_True by reflexivity.
    intros [= <- <-]. split; [reflexivity|]. cbv zeta.
    apply nearest_loop_spec in Hrun as [(-> & Hnone)|(c & md & -> & Hfn & _)].
    + right. exact Hnone.
    + split; [exact Hx|]. exists md. exact Hfn.
  - intros [= <- <-]. split; [reflexivity|]. cbv zeta. left.
    destruct (decide (x = ∅)) as [->|Hx]; [reflexivity|].
    exfalso. apply Hs. apply wrap_terms_size. exact Hx.
Qed.

Lemma predict_one_model_after_one :
  predict_one {[ "a"%string := 1 ]} "micro" (model_after_one false "tfidf_cosine_distance")
  = (model_after_one false "tfidf_cosine_distance", Ok (Some 0%Z)).
Proof.
  unfold predict_one, get_assignment, bind, get, lift, ret.
  rewrite updateweights_model_after_one.
  rewrite decide_True by (apply wrap_terms_size, singleton_nonempty).
  unfold model_after_one. norm_state. cbn [nearest_loop].
  rewrite (decide_True (P := 0 < 1)) by lra.
  rewrite (dist_same_single_term _ _ _ "a"%string {| tf_value := 1; tf_ids := [None] |}
             (entry 1 1) (1 + ln (IZR (Z.of_nat 1) / IZR 1))).
  2:{ unfold wrap_terms. rewrite map_fmap_singleton. reflexivity. }
  2:{ reflexivity. }
  2:{ simpl. lra. }
  2:{ simpl. lra. }
  2:{ unfold _calculateIDF. rewrite lookup_fmap. cbn [dict_values map snd foldl length].
      rewrite count_terms_lookup. cbn [mc_tf].
      rewrite lookup_singleton_eq, lookup_empty. reflexivity. }
  2:{ pose proof (idf_value_ge_1 (Z.of_nat 1) 1 ltac:(lia)). lra. }
  reflexivity.
Qed.

Lemma X8_predict_one_micro_witness :
  let s1 := model_after_one false "tfidf_cosine_distance" in
  let x : gmap string R := {[ "a"%string := 1 ]} in
  _updateweights s1 = (s1, Ok tt) /\
  x <> ∅ /\
  exists md, first_nearest (micro_distance s1)
               (new_microcluster (wrap_terms x None) (Some 1) 1 (realtime s1) None None)
               (_calculateIDF (dict_values (microclusters s1)))
               (eligible (min_weight s1) (microclusters s1)) 0 md.
Proof.
  exact (X8_predict_one_micro _ _ _ _ predict_one_model_after_one).
Defined.

(** ** How far a merge is from conserving weight *)

(** X9.  For two clusters whose times are not after the time of the merge,
    and a decay rate that is not negative, [merge] succeeds, and its
    weight differs from the sum of the two weights, each faded from its
    own time, by the weight of the source times the difference of the two
    decay factors: [merge] adds the weights first and fades the sum from
    the time of the target.  So the weight is conserved when the two
    clusters carry the same time, when the decay rate is 0 or when the
    source has weight 0, and it is at most the conserved weight when the
    target is the older of the two (as in [learn_one], where the source is
    the new observation). *)
Theorem X9_merge_weight_gap (a b : microcluster) (tA tB tn om l : R)
    (tfad : bool) (rt : option R) :
  mc_time a = Some tA -> mc_time b = Some tB ->
  0 <= l -> tA <= tn -> tB <= tn ->
  exists a' b',
    merge a b (Some tn) om l tfad rt = (a', b', Ok tt) /\
    mc_weight a' - conserved_weight (mc_weight a) tA (mc_weight b) tB l tn
      = mc_weight b * (Rpower 2 (- l * (tn - tA)) - Rpower 2 (- l * (tn - tB))) /\
    (tA = tB \/ l = 0 \/ mc_weight b = 0 ->
     mc_weight a' = conserved_weight (mc_weight a) tA (mc_weight b) tB l tn) /\
    (0 <= mc_weight b -> tA <= tB ->
     mc_weight a' <= conserved_weight (mc_weight a) tA (mc_weight b) tB l tn).
Proof.
  intros Ha Hb Hl HtA HtB.
  destruct (merge_weight a b tA tB tn om l tfad rt Ha Hb) as (a' & b' & Hm & Hw & _).
  exists a', b'. split; [exact Hm|]. rewrite Hw.
  unfold conserved_weight, fade_value.
  split; [ring|]. split.
  - intros [H|[H|H]].
    + rewrite H. ring.
    + rewrite H. ring_simplify (- 0 * (tn - tA)) (- 0 * (tn - tB)). ring.
    + rewrite H. ring.
  - intros Hwb Hle.
    assert (Hp : Rpower 2 (- l * (tn - tA)) <= Rpower 2 (- l * (tn - tB))).
    { destruct (Req_dec (- l * (tn - tA)) (- l * (tn - tB))) as [->|Hne]; [lra|].
      left. apply Rpower_lt; [lra|]. nra. }
    nra.
Qed.

Lemma X9_merge_weight_gap_witness :
  exists a' b',
    merge (one_term_cluster 1 1 1) (one_term_cluster 2 1 2) (Some 2) (/ 2) 1
      false None = (a', b', Ok tt) /\
    mc_weight a' - conserved_weight 1 1 1 2 1 2
      = 1 * (Rpower 2 (- 1 * (2 - 1)) - Rpower 2 (- 1 * (2 - 2))) /\
    mc_weight a' <= conserved_weight 1 1 1 2 1 2.
Proof.
  destruct (X9_merge_weight_gap (one_term_cluster 1 1 1) (one_term_cluster 2 1 2)
              1 2 2 (/ 2) 1 false None eq_refl eq_refl)
    as (a' & b' & Hm & Hgap & _ & Hle); [lra|lra|lra|].
  exists a', b'. split; [exact Hm|]. split; [exact Hgap|].
  apply Hle; simpl; lra.
Defined.

(** ** The merge sweep of the cleanup *)

Lemma merge_tf_lookup (a b : gmap string tfentry) (k : string) :
  merge_tf a b !! k = union_with merge_entry (a !! k) (b !! k).
Proof. unfold merge_tf. apply lookup_union_with. Qed.

(** Merging two clusters that are at the time of the merge: no fading takes
    place, the weights add up and the result is again at that time. *)
Lemma merge_current (a b : microcluster) (tn om l : R) (tfad : bool)
    (rt : option R) :
  0 <= om -> current tn om tfad rt a -> current tn om tfad rt b ->
  exists a',
    merge a b (Some tn) om l tfad rt = (a', b, Ok tt) /\
    mc_weight a' = mc_weight a + mc_weight b /\
    current tn om tfad rt a'.
Proof.
  intros Hom (Ha1 & Ha2 & Ha3) (Hb1 & Hb2 & Hb3). unfold merge.
  rewrite (fade_current (set_merge_head a b rt) tn om l tfad rt Ha1 eq_refl Ha3).
  rewrite (fade_current b tn om l tfad rt Hb1 Hb2 Hb3).
  eexists. split; [reflexivity|]. unfold current, set_merge_tail, set_merge_head.
  cbn [mc_weight mc_time mc_realtime mc_tf].
  split; [reflexivity|]. split; [reflexivity|]. split; [reflexivity|].
  intros Htf k e. rewrite merge_tf_lookup.
  specialize (Ha3 Htf). specialize (Hb3 Htf).
  destruct (mc_tf a !! k) as [ea|] eqn:Hea, (mc_tf b !! k) as [eb|] eqn:Heb;
    simpl; try discriminate.
  - unfold merge_entry. intros [= <-]. simpl.
    pose proof (Ha3 k ea Hea). pose proof (Hb3 k eb Heb). simpl in *. lra.
  - intros [= <-]. exact (Ha3 k ea Hea).
  - intros [= <-]. exact (Hb3 k eb Heb).
Qed.

Lemma total_weight_cons (k : Z) (m : microcluster) (l : list (Z * microcluster)) :
  total_weight ((k, m) :: l) = mc_weight m + total_weight l.
Proof. reflexivity. Qed.

Lemma merge_inner_current (distance : string) (idf : gmap string R) (thr : R)
    (tn om lam : R) (tfad : bool) (rt : option R)
    (rest : list (Z * microcluster)) (ci : microcluster) :
  0 <= om -> current tn om tfad rt ci ->
  Forall (fun kv : Z * microcluster => current tn om tfad rt kv.2) rest ->
  let out := merge_inner distance idf thr (Some tn) om lam tfad rt ci rest in
  current tn om tfad rt out.1.1 /\
  Forall (fun kv : Z * microcluster => current tn om tfad rt kv.2) out.1.2 /\
  mc_weight out.1.1 + total_weight out.1.2 = mc_weight ci + total_weight rest /\
  dict_keys out.1.2 `sublist_of` dict_keys rest.
Proof.
  intros Hom. revert ci. induction rest as [|[kj cj] rest IH]; intros ci Hci Hall;
    cbn [merge_inner].
  - simpl. split; [exact Hci|]. split; [constructor|]. split; [reflexivity|].
    reflexivity.
  - apply Forall_cons in Hall as [Hcj Hall]. simpl in Hcj.
    destruct (dist distance ci cj idf) as [d|e].
    + destruct (decide (d < thr)).
      * destruct (merge_current ci cj tn om lam tfad rt Hom Hci Hcj)
          as (ci' & Hm & Hw & Hci').
        rewrite Hm. cbv zeta.
        destruct (IH ci' Hci' Hall) as (H1 & H2 & H3 & H4).
        split; [exact H1|]. split; [exact H2|]. split.
        -- rewrite H3, Hw, total_weight_cons. lra.
        -- simpl. apply sublist_cons. exact H4.
      * specialize (IH ci Hci Hall). cbv zeta in IH.
        destruct (merge_inner _ _ _ _ _ _ _ _ ci rest) as [[ci' kept] r].
        simpl in IH |- *. destruct IH as (H1 & H2 & H3 & H4).
        split; [exact H1|]. split; [constructor; assumption|]. split.
        -- rewrite !total_weight_cons. lra.
        -- apply sublist_skip. exact H4.
    + simpl. split; [exact Hci|]. split; [constructor; assumption|].
      split; reflexivity.
Qed.

Lemma merge_outer_current (distance : string) (idf : gmap string R) (thr : R)
    (tn om lam : R) (tfad : bool) (rt : option R) (fuel : nat)
    (l : list (Z * microcluster)) :
  0 <= om ->
  Forall (fun kv : Z * microcluster => current tn om tfad rt kv.2) l ->
  let out := merge_outer fuel distance idf thr (Some tn) om lam tfad rt l in
  Forall (fun kv : Z * microcluster => current tn om tfad rt kv.2) out.1 /\
  total_weight out.1 = total_weight l /\
  dict_keys out.1 `sublist_of` dict_keys l.
Proof.
  intros Hom. revert l. induction fuel as [|fuel IH]; intros l Hall.
  - simpl. destruct l; simpl; auto.
  - destruct l as [|[ki ci] rest]; [simpl; auto|].
    apply Forall_cons in Hall as [Hci Hall]. simpl in Hci.
    cbn [merge_outer].
    pose proof (merge_inner_current distance idf thr tn om lam tfad rt rest ci
                  Hom Hci Hall) as Hin. cbv zeta in Hin.
    destruct (merge_inner _ _ _ _ _ _ _ _ ci rest) as [[ci' rest'] r].
    simpl in Hin. destruct Hin as (H1 & H2 & H3 & H4).
    destruct r as [[]|e].
    + specialize (IH rest' H2). cbv zeta in IH.
      destruct (merge_outer fuel _ _ _ _ _ _ _ _ rest') as [rest'' r'].
      simpl in IH |- *. destruct IH as (I1 & I2 & I3).
      split; [constructor; assumption|]. split.
      * rewrite !total_weight_cons, I2. exact H3.
      * apply sublist_skip. etransitivity; eassumption.
    + simpl. split; [constructor; assumption|]. split.
      * rewrite !total_weight_cons. exact H3.
      * apply sublist_skip. exact H4.
Qed.

(** X10.  On a store whose clusters have all been brought to the current
    time, the merge sweep conserves weight: however it ends, the clusters it
    leaves are again at the current time, their weights sum to what the
    weights summed to before, their keys are a subsequence of the keys
    before, and no other attribute of the object has changed. *)
Theorem X10_merge_sweep_conserves (self : textclust) (tn : R) :
  t self = Some tn -> 0 <= omega self ->
  Forall (fun kv : Z * microcluster =>
            current tn (omega self) (termfading self) (realtime self) kv.2)
    (microclusters self) ->
  let s1 := (_mergemicroclusters self).1 in
  s1 = set_microclusters (microclusters s1) self /\
  Forall (fun kv : Z * microcluster =>
            current tn (omega self) (termfading self) (realtime self) kv.2)
    (microclusters s1) /\
  total_weight (microclusters s1) = total_weight (microclusters self) /\
  dict_keys (microclusters s1) `sublist_of` dict_keys (microclusters self).
Proof.
  intros Ht Hom Hall. cbv zeta. split; [apply mergemicroclusters_frame|].
  unfold _mergemicroclusters. rewrite Ht.
  destruct (if auto_r self then _ else _) as [thr|e].
  - pose proof (merge_outer_current (micro_distance self)
                  (_calculateIDF (dict_values (microclusters self))) thr tn
                  (omega self) (_lambda self) (termfading self) (realtime self)
                  (length (microclusters self)) (microclusters self) Hom Hall) as H.
    cbv zeta in H. destruct (merge_outer _ _ _ _ _ _ _ _ _ _) as [mcs r].
    simpl in H |- *. exact H.
  - simpl. split; [exact Hall|]. split; reflexivity.
Qed.

(** A store on which the sweep merges: two live clusters with the same term
    arise in the adaptive mode. *)
Lemma learn_one_adaptive_alike :
  learn_one {[ "a"%string := 1 ]} None (Some (Some 2%Z)) adaptive_after_one
  = (adaptive_alike, Ok 1%Z).
Proof.
  unfold adaptive_after_one, learn_one, bind, lift, modify, ret. norm_state.
  rewrite decide_True by (apply wrap_terms_size, singleton_nonempty).
  unfold process_observation, bind, get, lift, modify, ret, _get_closest_mc.
  norm_state. cbn [scan_loop].
  rewrite (dist_same_single_term _ _ _ "a"%string (entry 1 2) (entry 1 1)
             (1 + ln (IZR (Z.of_nat 1) / IZR 1))).
  2:{ cbn [mc_tf]. unfold wrap_terms. rewrite map_fmap_singleton.
      rewrite decide_False by lia. reflexivity. }
  2:{ reflexivity. }
  2:{ simpl. lra. }
  2:{ simpl. lra. }
  2:{ unfold _calculateIDF. rewrite lookup_fmap. cbn [dict_values map snd foldl length].
      rewrite count_terms_lookup. cbn [mc_tf].
      rewrite lookup_singleton_eq, lookup_empty. reflexivity. }
  2:{ pose proof (idf_value_ge_1 (Z.of_nat 1) 1 ltac:(lia)). lra. }
  cbn [rbind scan_loop scan_step scan_init min_dist smallest_key counter].
  rewrite (decide_False (P := (1 < 0 + 1)%Z)) by lia. norm_state.
  assert (Hd : forall (A : Type) (x y : A), (if decide (0 < 1) then x else y) = x)
    by (intros; apply decide_True; lra).
  rewrite !Hd. norm_state. cbn [dict_set].
  rewrite decide_False by lia.
  unfold cleanup_due. norm_state. rewrite bool_decide_eq_false_2 by lra.
  norm_state.
  unfold adaptive_alike, wrap_terms, entry. rewrite map_fmap_singleton.
  rewrite decide_False by lia.
  replace (1 + 0) with 1 by lra.
  replace (1 + 1)%Z with 2%Z by lia. replace (2 + 1)%Z with 3%Z by lia.
  reflexivity.
Qed.

Lemma updateweights_adaptive_alike :
  _updateweights adaptive_alike = (model_two_alike, Ok tt).
Proof.
  unfold _updateweights, adaptive_alike. norm_state.
  cbn [fade_all fade]. norm_state.
  rewrite fade_value_one_step, fade_value_same_time.
  rewrite evict_cons_in.
  2:{ apply (not_evicted_singleton _ 1 _ _ "a"%string (entry 1 1)); [reflexivity|].
      cbn [mc_weight snd]. lra. }
  rewrite evict_cons_in.
  2:{ apply (not_evicted_singleton _ 1 _ _ "a"%string (entry 1 2)); [reflexivity|].
      cbn [mc_weight snd]. lra. }
  unfold evict. rewrite filter_nil. reflexivity.
Qed.

(** The sweep on [model_two_alike] merges the second cluster into the
    first. *)
Lemma mergemicroclusters_model_two_alike :
  exists m,
    _mergemicroclusters model_two_alike
    = (set_microclusters [(0%Z, m)] model_two_alike, Ok tt) /\
    mc_weight m = / 2 + 1.
Proof.
  unfold _mergemicroclusters, model_two_alike. norm_state.
  unfold py_div. replace (0 + 1)%Z with 1%Z by lia.
  rewrite (decide_False (P := 1 = 0)) by lra.
  cbn [length merge_outer merge_inner].
  rewrite (dist_same_single_term _ _ _ "a"%string (entry 1 1) (entry 1 2)
             (1 + ln (IZR (Z.of_nat 2) / IZR 2))).
  2:{ reflexivity. }
  2:{ reflexivity. }
  2:{ simpl. lra. }
  2:{ simpl. lra. }
  2:{ unfold _calculateIDF. rewrite lookup_fmap. cbn [dict_values map snd foldl length].
      rewrite !count_terms_lookup. cbn [mc_tf].
      rewrite !lookup_singleton_eq, lookup_empty. reflexivity. }
  2:{ pose proof (idf_value_ge_1 (Z.of_nat 2) 2 ltac:(lia)). lra. }
  rewrite (decide_True (P := 0 < 1 / 1)) by lra.
  unfold merge, set_merge_head, set_merge_tail, fade. norm_state.
  rewrite !fade_value_same_time.
  cbn [merge_inner merge_outer]. 
  eexists. split; [reflexivity|]. reflexivity.
Qed.

Lemma X10_merge_sweep_conserves_witness :
  let self := model_two_alike in
  let s1 := (_mergemicroclusters self).1 in
  length (microclusters self) = 2%nat /\ length (microclusters s1) = 1%nat /\
  total_weight (microclusters s1) = total_weight (microclusters self) /\
  dict_keys (microclusters s1) `sublist_of` dict_keys (microclusters self).
Proof.
  cbv zeta.
  destruct (X10_merge_sweep_conserves model_two_alike 2) as (_ & _ & Hw & Hk).
  - reflexivity.
  - simpl. lra.
  - repeat constructor; simpl; discriminate.
  - split; [reflexivity|]. split; [|split; [exact Hw|exact Hk]].
    destruct mergemicroclusters_model_two_alike as (m & Hrun & _).
    rewrite Hrun. reflexivity.
Defined.

(** ** The distance matrix of the reclustering *)

Lemma row_dists_spec (distance : string) (idf : gmap string R) (row : Z)
    (cr : microcluster) (cols : list (Z * microcluster)) (ds : list (Z * Z * R)) :
  row_dists distance idf row cr cols = Ok ds ->
  Forall2 (fun (kv : Z * microcluster) (e : Z * Z * R) =>
             e.1.1 = row /\ e.1.2 = kv.1 /\ dist distance cr kv.2 idf = Ok e.2)
    cols ds.
Proof.
  revert ds. induction cols as [|[col cc] cols IH]; intros ds; cbn [row_dists].
  - intros [= <-]. constructor.
  - destruct (dist distance cr cc idf) as [d|e] eqn:Hd; [|discriminate].
    cbn [rbind].
    destruct (row_dists distance idf row cr cols) as [ds'|e]; [|discriminate].
    cbn [rbind]. intros [= <-]. constructor; [auto|]. apply IH. reflexivity.
Qed.

(** The stored distances are those of the pairs of clusters in dict order,
    first before second. *)
Lemma pair_dists_spec (distance : string) (idf : gmap string R)
    (clusters : list (Z * microcluster)) (ds : list (Z * Z * R)) :
  pair_dists distance idf clusters = Ok ds ->
  (forall e, e ∈ ds ->
     exists i j ci cj, (i < j)%nat /\ clusters !! i = Some (e.1.1, ci) /\
       clusters !! j = Some (e.1.2, cj) /\ dist distance ci cj idf = Ok e.2) /\
  (forall i j ki ci kj cj, (i < j)%nat ->
     clusters !! i = Some (ki, ci) -> clusters !! j = Some (kj, cj) ->
     exists d, dist distance ci cj idf = Ok d /\ (ki, kj, d) ∈ ds).
Proof.
  revert ds. induction clusters as [|[row cr] rest IH]; intros ds; cbn [pair_dists].
  - intros [= <-]. split.
    + intros e He. inversion He.
    + intros i j ki ci kj cj _ Hi. rewrite lookup_nil in Hi. discriminate.
  - destruct (row_dists distance idf row cr rest) as [dsr|e] eqn:Hrow; [|discriminate].
    cbn [rbind].
    destruct (pair_dists distance idf rest) as [more|e]; [|discriminate].
    cbn [rbind]. intros [= <-].
    apply row_dists_spec in Hrow.
    destruct (IH more eq_refl) as [IH1 IH2]. split.
    + intros e He. apply elem_of_app in He as [He|He].
      * apply list_elem_of_lookup in He as [j He].
        destruct (Forall2_lookup_r _ _ _ _ _ Hrow He) as ([kj cj] & Hj & H1 & H2 & H3).
        simpl in *. exists 0%nat, (S j), cr, cj.
        split; [lia|]. split; [simpl; rewrite H1; reflexivity|].
        split; [simpl; rewrite H2; exact Hj|exact H3].
      * destruct (IH1 e He) as (i & j & ci & cj & Hlt & Hi & Hj & Hd).
        exists (S i), (S j), ci, cj. split; [lia|]. auto.
    + intros i j ki ci kj cj Hlt Hi Hj.
      destruct j as [|j]; [lia|]. simpl in Hj.
      destruct i as [|i].
      * simpl in Hi. injection Hi as <- <-.
        destruct (Forall2_lookup_l _ _ _ _ _ Hrow Hj) as ([[r c] d] & He & H1 & H2 & H3).
        simpl in *. subst r c. exists d. split; [exact H3|].
        apply elem_of_app. left. apply list_elem_of_lookup. eauto.
      * simpl in Hi. destruct (IH2 i j ki ci kj cj) as (d & Hd & Hin); [lia|auto..].
        exists d. split; [exact Hd|]. apply elem_of_app. right. exact Hin.
Qed.

Lemma NoDup_keys_lookup (clusters : list (Z * microcluster)) (i j : nat)
    (k : Z) (ci cj : microcluster) :
  NoDup (dict_keys clusters) ->
  clusters !! i = Some (k, ci) -> clusters !! j = Some (k, cj) -> i = j.
Proof.
  intros Hnd Hi Hj. unfold dict_keys in Hnd.
  apply (NoDup_lookup _ i j k Hnd); rewrite list_lookup_fmap.
  - rewrite Hi. reflexivity.
  - rewrite Hj. reflexivity.
Qed.

(** X11.  For clusters with distinct keys, the matrix that
    [_get_distance_matrix] returns has one row and one column per cluster,
    in dict order; it is 0 on the diagonal, and the entry at row [i] and
    column [j] is the macro distance, computed once, of the clusters at the
    smaller and at the larger of the two positions, so the matrix is
    symmetric. *)
Theorem X11_distance_matrix (distance : string) (clusters : list (Z * microcluster))
    (distm : list (list R)) :
  NoDup (dict_keys clusters) ->
  _get_distance_matrix distance clusters = Ok distm ->
  length distm = length clusters /\
  forall i j ki ci kj cj,
    clusters !! i = Some (ki, ci) -> clusters !! j = Some (kj, cj) ->
    exists row v,
      distm !! i = Some row /\ length row = length clusters /\
      row !! j = Some v /\
      (i = j -> v = 0) /\
      ((i < j)%nat ->
       dist distance ci cj (_calculateIDF (dict_values clusters)) = Ok v) /\
      ((j < i)%nat ->
       dist distance cj ci (_calculateIDF (dict_values clusters)) = Ok v).
Proof.
  intros Hnd. unfold _get_distance_matrix. cbv zeta.
  destruct (pair_dists _ _ _) as [ds|e] eqn:Hp; [|discriminate].
  cbn [rbind]. intros [= <-].
  apply pair_dists_spec in Hp as [Hp1 Hp2].
  split; [unfold dict_keys; rewrite !length_map; reflexivity|].
  intros i j ki ci kj cj Hi Hj.
  exists (map (fun c => matrix_cell ds ki c) (dict_keys clusters)),
         (matrix_cell ds ki kj).
  split.
  { unfold dict_keys. rewrite !list_lookup_fmap, Hi. reflexivity. }
  split; [unfold dict_keys; rewrite !length_map; reflexivity|].
  split.
  { unfold dict_keys. rewrite !list_lookup_fmap, Hj. reflexivity. }
  unfold matrix_cell.
  destruct (list_find _ ds) as [[p [[r c] d]]|] eqn:Hf.
  - apply list_find_Some in Hf as (Hl & HP & _). simpl in HP.
    assert (He : (r, c, d) ∈ ds) by (apply list_elem_of_lookup; eauto).
    destruct (Hp1 _ He) as (i' & j' & ci' & cj' & Hlt & Hi' & Hj' & Hd).
    simpl in Hi', Hj', Hd.
    destruct HP as [[-> ->]|[-> ->]].
    + pose proof (NoDup_keys_lookup _ _ _ _ _ _ Hnd Hi Hi') as <-.
      pose proof (NoDup_keys_lookup _ _ _ _ _ _ Hnd Hj Hj') as <-.
      rewrite Hi in Hi'. rewrite Hj in Hj'.
      injection Hi' as <-. injection Hj' as <-.
      split; [lia|]. split; [intros _; exact Hd|lia].
    + pose proof (NoDup_keys_lookup _ _ _ _ _ _ Hnd Hj Hi') as <-.
      pose proof (NoDup_keys_lookup _ _ _ _ _ _ Hnd Hi Hj') as <-.
      rewrite Hi in Hj'. rewrite Hj in Hi'.
      injection Hi' as <-. injection Hj' as <-.
      split; [lia|]. split; [lia|intros _; exact Hd].
  - apply list_find_None in Hf. rewrite Forall_forall in Hf.
    split; [reflexivity|].
    split; intros Hlt.
    + destruct (Hp2 i j ki ci kj cj Hlt Hi Hj) as (d & Hd & Hin).
      exfalso. apply (Hf _ Hin). left. split; reflexivity.
    + destruct (Hp2 j i kj cj ki ci Hlt Hj Hi) as (d & Hd & Hin).
      exfalso. apply (Hf _ Hin). right. split; reflexivity.
Qed.

(** Two clusters without a common term are at distance 1. *)
Lemma dist_no_common_term (idf : gmap string R) (a b : microcluster) :
  covered idf (mc_tf b) ->
  (forall k, mc_tf a !! k = None \/ mc_tf b !! k = None) ->
  dist "tfidf_cosine_distance" a b idf = Ok 1.
Proof.
  intros Hc Hdisj. unfold dist. simpl. rewrite tfidf_cosine_distance_spec.
  rewrite (decide_True _ _ Hc). f_equal.
  destruct (decide _); [reflexivity|].
  unfold cosine_similarity, tfidf_dot.
  rewrite (msum_ext _ (fun _ _ => 0)), msum_zero.
  - replace (1 - 0 / _) with 1 by (unfold Rdiv; ring).
    apply (py_round_exact 1 10 (10 ^ Z.of_nat 10)). rewrite pow10_IZR. lra.
  - intros k e Hk. destruct (Hdisj k) as [H|H]; [congruence|].
    rewrite H. reflexivity.
Qed.

Lemma distance_matrix_model_after_two :
  _get_distance_matrix "tfidf_cosine_distance" (microclusters model_after_two)
  = Ok [[0; 1]; [1; 0]].
Proof.
  unfold _get_distance_matrix, model_after_two. norm_state. cbv zeta.
  cbn [pair_dists row_dists].
  rewrite dist_no_common_term.
  - reflexivity.
  - apply (calculateIDF_covered _ 1%Z). apply list_elem_of_further, list_elem_of_here.
  - intros k. cbn [mc_tf]. destruct (decide (k = "a"%string)) as [->|Hne].
    + right. apply lookup_singleton_ne. discriminate.
    + left. apply lookup_singleton_ne. congruence.
Qed.

Lemma X11_distance_matrix_witness :
  length [[0; 1]; [1; 0]] = length (microclusters model_after_two) /\
  forall i j ki ci kj cj,
    microclusters model_after_two !! i = Some (ki, ci) ->
    microclusters model_after_two !! j = Some (kj, cj) ->
    exists row v,
      [[0; 1]; [1; 0]] !! i = Some row /\
      length row = length (microclusters model_after_two) /\
      row !! j = Some v /\
      (i = j -> v = 0) /\
      ((i < j)%nat ->
       dist "tfidf_cosine_distance" ci cj
         (_calculateIDF (dict_values (microclusters model_after_two))) = Ok v) /\
      ((j < i)%nat ->
       dist "tfidf_cosine_distance" cj ci
         (_calculateIDF (dict_values (microclusters model_after_two))) = Ok v).
Proof.
  apply (X11_distance_matrix "tfidf_cosine_distance" (microclusters model_after_two)).
  - unfold model_after_two. simpl. apply NoDup_cons. split; [|apply NoDup_singleton].
    intros H. apply list_elem_of_singleton in H. discriminate.
  - exact distance_matrix_model_after_two.
Defined.

(** ** An observation with unseen terms *)

Lemma all_dists_no_common_term (mc : microcluster) (l l0 : list (Z * microcluster)) :
  (forall k m, (k, m) ∈ l -> (k, m) ∈ l0) ->
  (forall k m, (k, m) ∈ l ->
     forall key, mc_tf mc !! key = None \/ mc_tf m !! key = None) ->
  all_dists "tfidf_cosine_distance" mc (_calculateIDF (dict_values l0)) l
  = Ok (repeat 1 (length l)).
Proof.
  induction l as [|[k m] l IH]; intros Hsub Hdisj; cbn [all_dists]; [reflexivity|].
  rewrite dist_no_common_term.
  - cbn [rbind]. rewrite IH.
    + reflexivity.
    + intros k' m' Hin. apply Hsub. right. exact Hin.
    + intros k' m' Hin. apply (Hdisj k'). right. exact Hin.
  - apply (calculateIDF_covered _ k). apply Hsub. left.
  - apply (Hdisj k). left.
Qed.

Lemma Rsum_repeat_1 (n : nat) : Rsum (repeat 1 n) = INR n.
Proof.
  induction n as [|n IH]; [reflexivity|].
  cbn [repeat Rsum foldr]. fold (Rsum (repeat 1 n)). rewrite IH, S_INR. lra.
Qed.

Lemma Rsum_repeat_1_sq (n : nat) : Rsum (map (fun d => d ^ 2) (repeat 1 n)) = INR n.
Proof.
  induction n as [|n IH]; [reflexivity|].
  cbn [repeat map Rsum foldr]. fold (Rsum (map (fun d => d ^ 2) (repeat 1 n))).
  rewrite IH, S_INR. lra.
Qed.

(** With every live cluster at distance 1 nothing is selected, in the fixed
    and in the adaptive mode. *)
Lemma closest_no_common_term (self : textclust) (mc : microcluster) :
  (forall k m, (k, m) ∈ microclusters self ->
     forall key, mc_tf mc !! key = None \/ mc_tf m !! key = None) ->
  _get_closest_mc self mc (_calculateIDF (dict_values (microclusters self)))
    "tfidf_cosine_distance" = Ok (None, 1).
Proof.
  intros Hdisj.
  pose proof (all_dists_no_common_term mc (microclusters self) (microclusters self)
                (fun _ _ H => H) Hdisj) as Hds.
  destruct (scan_loop_spec _ _ _ _ _ scan_init Hds)
    as (s & Hrun & Hc & Hsum & Hsq & _ & _ & Hmin).
  assert (Hs : min_dist s = 1 /\ smallest_key s = None).
  { destruct Hmin as [H|(Hlt & k & m & Hin & _ & Hd)]; [exact H|].
    exfalso. rewrite dist_no_common_term in Hd.
    - injection Hd as Hd. simpl in Hlt. lra.
    - apply (calculateIDF_covered _ k). exact Hin.
    - apply (Hdisj k). exact Hin. }
  destruct Hs as [Hm Hk].
  unfold _get_closest_mc. rewrite Hrun. cbn [rbind]. rewrite Hm, Hk.
  destruct (auto_r self).
  - destruct (decide (1 < counter s)%Z) as [Hcnt|]; [|reflexivity].
    unfold py_sqrt. rewrite decide_False.
    + cbn [rbind]. destruct (decide _); reflexivity.
    + simpl in Hc, Hsum, Hsq. rewrite Rsum_repeat_1 in Hsum.
      rewrite Rsum_repeat_1_sq in Hsq.
      set (n := length (microclusters self)) in *.
      assert (Hn : IZR (counter s) = INR n) by (rewrite Hc, INR_IZR_INZ; f_equal; lia).
      assert (Hn1 : 1 < INR n) by (rewrite <- Hn; apply IZR_lt; exact Hcnt).
      unfold adaptive_variance, adaptive_mu. rewrite Hsum, Hsq, Hm, Hn.
      replace ((0 + INR n - 1) / (INR n - 1)) with 1 by (field; lra).
      replace ((0 + INR n) / (INR n - 1) - 1 ^ 2) with (/ (INR n - 1)) by (field; lra).
      apply Rle_not_lt. left. apply Rinv_0_lt_compat. lra.
  - destruct (decide _); reflexivity.
Qed.

(** X12.  An observation none of whose terms occurs in a live cluster is at
    distance 1 from every cluster and is never merged: in the fixed mode
    with any radius and in the adaptive mode with any [sigma], it becomes a
    new cluster under the next free id, and a call of [learn_one] that
    returns, returns that id. *)
Theorem X12_unseen_terms_new_cluster (self : textclust) (x : gmap string R)
    (time : option R) (v : option Z) :
  micro_distance self = "tfidf_cosine_distance"%string ->
  (forall k m, (k, m) ∈ microclusters self ->
     forall key, x !! key = None \/ mc_tf m !! key = None) ->
  created_new self (wrap_terms x (keyword_id v)) (keyword_id v) 1 /\
  forall s' c, learn_one x time (Some v) self = (s', Ok c) -> c = clusterId self.
Proof.
  intros Hmetric Hdisj.
  assert (Hnew : forall s0, micro_distance s0 = "tfidf_cosine_distance"%string ->
            microclusters s0 = microclusters self ->
            created_new s0 (wrap_terms x (keyword_id v)) (keyword_id v) 1).
  { intros s0 Hm0 Hmc0. apply process_observation_not_found.
    rewrite Hm0. apply closest_no_common_term.
    rewrite Hmc0. intros k m Hin key. cbn [observation new_microcluster mc_tf].
    unfold wrap_terms. rewrite lookup_fmap.
    destruct (Hdisj k m Hin key) as [H|H]; [left; rewrite H; reflexivity|right; exact H]. }
  split; [apply Hnew; [exact Hmetric|reflexivity]|].
  intros s' c Hl.
  destruct (decide (x = ∅)) as [->|Hx].
  { rewrite learn_one_empty in Hl. cbv zeta in Hl.
    destruct (cleanup_due _) as [s1 [[|]|e]]; [|discriminate..].
    destruct (_cleanup _) as [s2 [[]|e]]; discriminate. }
  rewrite (learn_one_nonempty x time v self Hx) in Hl. cbv zeta in Hl.
  rewrite (Hnew (set_t (call_time self time) (set_upToDate false self)) Hmetric eq_refl)
    in Hl.
  destruct (cleanup_due _) as [s2 [due|e]]; [|discriminate].
  destruct ((if due then _cleanup else ret tt) s2) as [s3 [[]|e]]; [|discriminate].
  injection Hl as _ <-. reflexivity.
Qed.

Lemma X12_unseen_terms_new_cluster_witness :
  let self := model_after_one false "tfidf_cosine_distance" in
  let x : gmap string R := {[ "b"%string := 1 ]} in
  created_new self (wrap_terms x (keyword_id (Some 2%Z))) (keyword_id (Some 2%Z)) 1 /\
  forall s' c, learn_one x None (Some (Some 2%Z)) self = (s', Ok c) -> c = clusterId self.
Proof.
  apply (X12_unseen_terms_new_cluster (model_after_one false "tfidf_cosine_distance")
           {[ "b"%string := 1 ]} None (Some 2%Z)).
  - reflexivity.
  - intros k m Hin key. apply list_elem_of_singleton in Hin. injection Hin as -> ->.
    cbn [mc_tf]. destruct (decide (key = "b"%string)) as [->|Hne].
    + right. apply lookup_singleton_ne. discriminate.
    + left. apply lookup_singleton_ne. congruence.
Defined.

(** ** The cache of the reclustering *)

Lemma label_keys_spec (assigned : list Z) (keys : list Z) (i : nat)
    (mapping : list (Z * Z)) :
  label_keys assigned i keys = Ok mapping ->
  dict_keys mapping = keys /\
  dict_values mapping = take (length keys) (drop i assigned).
Proof.
  revert i mapping. induction keys as [|x keys IH]; intros i mapping;
    cbn [label_keys].
  - intros [= <-]. split; reflexivity.
  - destruct (assigned !! i) as [lab|] eqn:Hi; [|discriminate].
    destruct (label_keys assigned (S i) keys) as [more|e] eqn:Hmore; [|discriminate].
    cbn [rbind]. intros [= <-].
    destruct (IH _ _ Hmore) as [H1 H2].
    unfold dict_keys, dict_values in *. simpl. rewrite H1, H2. split; [reflexivity|].
    rewrite (drop_S _ _ _ Hi). reflexivity.
Qed.

Section ReclusteringCache.

Variable agglomerative : Z -> list (list R) -> result (list Z).

(** What a reclustering that runs and succeeds has done. *)
Lemma updateMacroClusters_ok (self s2 : textclust) :
  upToDate self = false ->
  updateMacroClusters agglomerative self = (s2, Ok tt) ->
  exists s1 mapping,
    _updateweights self = (s1, Ok tt) /\
    s2 = set_upToDate true (set_microToMacro (Some mapping) s1) /\
    let micros := eligible (min_weight self) (microclusters s1) in
    dict_keys mapping = dict_keys micros /\
    ((length micros <= 1)%nat -> Forall (fun kv : Z * Z => kv.2 = 1%Z) mapping) /\
    ((1 < length micros)%nat ->
     exists distm labels,
       _get_distance_matrix (macro_distance self) micros = Ok distm /\
       agglomerative (Z.min (num_macro self) (Z.of_nat (length micros))) distm
         = Ok labels /\
       dict_values mapping = take (length micros) labels) /\
    updateMacroClusters agglomerative s2 = (s2, Ok tt).
Proof.
  intros Hup. unfold updateMacroClusters at 1. unfold bind, get, lift, modify, ret.
  rewrite Hup.
  pose proof (updateweights_frame self) as Hframe.
  destruct (_updateweights self) as [s1 [[]|e]] eqn:Hu; [|discriminate].
  simpl in Hframe.
  assert (Hmw : min_weight s1 = min_weight self) by (rewrite Hframe; reflexivity).
  assert (Hmd : macro_distance s1 = macro_distance self) by (rewrite Hframe; reflexivity).
  assert (Hnm : num_macro s1 = num_macro self) by (rewrite Hframe; reflexivity).
  rewrite Hmw, Hmd, Hnm. fold (eligible (min_weight self) (microclusters s1)).
  set (micros := eligible (min_weight self) (microclusters s1)).
  destruct (decide (1 < length micros)%nat) as [Hlen|Hlen].
  - destruct (_get_distance_matrix (macro_distance self) micros) as [distm|e] eqn:Hdm;
      [|discriminate]. cbn [rbind].
    destruct (agglomerative _ distm) as [labels|e] eqn:Hag; [|discriminate].
    destruct (label_keys labels 0 (dict_keys micros)) as [mapping|e] eqn:Hlab;
      [|discriminate].
    intros [= <-]. exists s1, mapping. split; [reflexivity|]. split; [reflexivity|].
    apply label_keys_spec in Hlab as [Hk Hv]. cbv zeta. subst micros.
    split; [exact Hk|]. split; [lia|]. split.
    + intros _. exists distm, labels. split; [exact Hdm|]. split; [exact Hag|].
      rewrite Hv. unfold dict_keys. rewrite length_map, drop_0. reflexivity.
    + unfold updateMacroClusters, bind, get, ret. reflexivity.
  - destruct (label_keys [1%Z] 0 (dict_keys micros)) as [mapping|e] eqn:Hlab;
      [|discriminate].
    intros [= <-]. exists s1, mapping. split; [reflexivity|]. split; [reflexivity|].
    apply label_keys_spec in Hlab as [Hk Hv]. cbv zeta. subst micros.
    split; [exact Hk|]. split; [|split; [lia|]].
    + intros _. apply Forall_forall. intros [k lab] Hin. simpl.
      assert (Hl : lab ∈ dict_values mapping).
      { unfold dict_values. apply list_elem_of_fmap. exists (k, lab). auto. }
      rewrite Hv, drop_0 in Hl. apply list_elem_of_lookup in Hl as [j Hj]. apply lookup_take_Some in Hj as [Hj _].
      destruct j; simpl in Hj; [congruence|]. rewrite lookup_nil in Hj. discriminate.
    + unfold updateMacroClusters, bind, get, ret. reflexivity.
Qed.

(** X13.  A reclustering that runs (the cache was stale) and succeeds has
    first brought the weights up to date; it leaves a mapping with one
    entry for every cluster whose weight is above [min_weight], in dict
    order, and marks the cache as fresh.  With at most one such cluster the
    label is 1 and the clusterer is not asked; with more, the labels are
    the first ones that the clusterer returned for the distance matrix of
    these clusters and [min(num_macro, their number)] groups.  A second
    call then does nothing. *)
Theorem X13_updateMacroClusters_cache (self s2 : textclust) :
  upToDate self = false ->
  updateMacroClusters agglomerative self = (s2, Ok tt) ->
  exists s1 mapping,
    _updateweights self = (s1, Ok tt) /\
    s2 = set_upToDate true (set_microToMacro (Some mapping) s1) /\
    let micros := eligible (min_weight self) (microclusters s1) in
    dict_keys mapping = dict_keys micros /\
    ((length micros <= 1)%nat -> Forall (fun kv : Z * Z => kv.2 = 1%Z) mapping) /\
    ((1 < length micros)%nat ->
     exists distm labels,
       _get_distance_matrix (macro_distance self) micros = Ok distm /\
       agglomerative (Z.min (num_macro self) (Z.of_nat (length micros))) distm
         = Ok labels /\
       dict_values mapping = take (length micros) labels) /\
    updateMacroClusters agglomerative s2 = (s2, Ok tt).
Proof. exact (updateMacroClusters_ok self s2). Qed.

End ReclusteringCache.

Lemma X13_updateMacroClusters_cache_witness :
  let self := model_after_one false "tfidf_cosine_distance" in
  exists s1 mapping,
    _updateweights self = (s1, Ok tt) /\
    set_upToDate true (set_microToMacro (Some [(0%Z, 1%Z)]) self)
    = set_upToDate true (set_microToMacro (Some mapping) s1) /\
    dict_keys mapping = dict_keys (eligible (min_weight self) (microclusters s1)).
Proof.
  destruct (X13_updateMacroClusters_cache no_clusterer
              (model_after_one false "tfidf_cosine_distance")
              (set_upToDate true (set_microToMacro (Some [(0%Z, 1%Z)])
                 (model_after_one false "tfidf_cosine_distance"))))
    as (s1 & mapping & H1 & H2 & H3 & _).
  - reflexivity.
  - apply (updateMacroClusters_single no_clusterer _ _ 0
             (mk_microcluster (Some 0%Z) 1 (Some 1) {[ "a"%string := entry 1 1 ]}
                1 1 None [Some 1%Z] 1)).
    + reflexivity.
    + apply updateweights_model_after_one.
    + reflexivity.
    + simpl. lra.
  - exists s1, mapping. split; [exact H1|]. split; [exact H2|exact H3].
Defined.

(** ** The macro-cluster representatives *)

Lemma dict_get_Some_elem {A : Type} (l : list (Z * A)) (k : Z) (v : A) :
  dict_get k l = Some v -> (k, v) ∈ l.
Proof.
  induction l as [|[k' v'] l IH]; simpl; [discriminate|].
  destruct (decide (k = k')) as [->|Hne].
  - intros [= ->]. left.
  - intros H. right. apply IH, H.
Qed.

Lemma dict_set_same {A : Type} (l : list (Z * A)) (k : Z) (v : A) :
  dict_get k l = Some v -> dict_set k v l = l.
Proof.
  induction l as [|[k' v'] l IH]; simpl; [discriminate|].
  destruct (decide (k = k')) as [->|Hne].
  - intros [= ->]. reflexivity.
  - intros H. rewrite IH by exact H. reflexivity.
Qed.

Lemma dict_set_keys {A : Type} (l : list (Z * A)) (k : Z) (v v' : A) :
  dict_get k l = Some v -> dict_keys (dict_set k v' l) = dict_keys l.
Proof.
  unfold dict_keys. induction l as [|[k' v0] l IH]; simpl; [discriminate|].
  destruct (decide (k = k')) as [->|Hne].
  - reflexivity.
  - intros H. simpl. rewrite IH by exact H. reflexivity.
Qed.

Lemma dict_set_Forall {A : Type} (P : Z * A -> Prop) (l : list (Z * A)) (k : Z) (v : A) :
  Forall P l -> P (k, v) -> Forall P (dict_set k v l).
Proof.
  intros Hall Hv. induction Hall as [|[k' v'] l Hx Hall IH]; simpl.
  - constructor; [exact Hv|constructor].
  - destruct (decide (k = k')); constructor; assumption.
Qed.

Lemma total_weight_dict_set (l : list (Z * microcluster)) (k : Z)
    (v v' : microcluster) :
  dict_get k l = Some v ->
  total_weight (dict_set k v' l) = total_weight l - mc_weight v + mc_weight v'.
Proof.
  induction l as [|[k' v0] l IH]; simpl; [discriminate|].
  destruct (decide (k = k')) as [->|Hne].
  - intros [= ->]. rewrite !total_weight_cons. lra.
  - intros H. rewrite !total_weight_cons, IH by exact H. lra.
Qed.

Lemma Rsum_cons (x : R) (l : list R) : Rsum (x :: l) = x + Rsum l.
Proof. reflexivity. Qed.

(** The weight that the loop of [get_macroclusters] adds for a mapping. *)
Lemma macro_loop_current (self : textclust) (tn : R) (mapping : list (Z * Z))
    (macros macros' : list (Z * microcluster)) (s' : textclust) :
  t self = Some tn -> 0 <= omega self ->
  Forall (fun kv : Z * microcluster =>
            current tn (omega self) (termfading self) (realtime self) kv.2)
    (microclusters self) ->
  Forall (fun kv : Z * microcluster =>
            current tn (omega self) (termfading self) (realtime self) kv.2) macros ->
  macro_loop mapping macros self = (s', Ok macros') ->
  s' = self /\ dict_keys macros' = dict_keys macros /\
  total_weight macros' =
    total_weight macros +
    Rsum (map (fun kv : Z * Z =>
                 from_option mc_weight 0 (dict_get kv.1 (microclusters self))) mapping).
Proof.
  intros Ht Hom Hmcs. revert macros.
  induction mapping as [|[key value] mapping IH]; intros macros Hmac;
    cbn [macro_loop].
  - intros [= <- <-]. simpl. split; [reflexivity|]. split; [reflexivity|]. lra.
  - destruct (dict_get value macros) as [target|] eqn:Htar; [|discriminate].
    destruct (dict_get key (microclusters self)) as [source|] eqn:Hsrc; [|discriminate].
    assert (Hct : current tn (omega self) (termfading self) (realtime self) target).
    { rewrite Forall_forall in Hmac.
      exact (Hmac _ (dict_get_Some_elem _ _ _ Htar)). }
    assert (Hcs : current tn (omega self) (termfading self) (realtime self) source).
    { rewrite Forall_forall in Hmcs.
      exact (Hmcs _ (dict_get_Some_elem _ _ _ Hsrc)). }
    rewrite Ht.
    destruct (merge_current target source tn (omega self) (_lambda self)
                (termfading self) (realtime self) Hom Hct Hcs)
      as (target' & Hm & Hw & Hct').
    rewrite Hm. rewrite (dict_set_same _ _ _ Hsrc).
    replace (set_microclusters (microclusters self) self) with self
      by (destruct self; reflexivity).
    intros Hrun. apply IH in Hrun as (H1 & H2 & H3).
    + split; [exact H1|]. split.
      * rewrite H2. apply (dict_set_keys _ _ target). exact Htar.
      * rewrite H3, (total_weight_dict_set _ _ target) by exact Htar.
        rewrite map_cons, Rsum_cons. cbn [fst]. rewrite Hsrc, Hw.
        cbn [from_option]. lra.
    + apply dict_set_Forall; [exact Hmac|exact Hct'].
Qed.

Lemma Rsum_map_keys (l : list (Z * microcluster)) (mcs : list (Z * microcluster))
    (mapping : list (Z * Z)) :
  (forall kv, kv ∈ l -> dict_get kv.1 mcs = Some kv.2) ->
  dict_keys mapping = dict_keys l ->
  Rsum (map (fun kv : Z * Z => from_option mc_weight 0 (dict_get kv.1 mcs)) mapping)
  = total_weight l.
Proof.
  unfold dict_keys, total_weight. revert mapping.
  induction l as [|[k m] l IH]; intros mapping Hget Hk.
  - destruct mapping; [reflexivity|discriminate].
  - destruct mapping as [|[k' lab] mapping]; [discriminate|].
    simpl in Hk. injection Hk as -> Hk.
    rewrite !map_cons, !Rsum_cons. cbn [fst snd].
    pose proof (Hget (k, m) ltac:(left)) as Hkm. cbn [fst snd] in Hkm.
    rewrite Hkm. cbn [from_option].
    f_equal. apply IH; [|exact Hk].
    intros kv Hin. apply Hget. right. exact Hin.
Qed.

Lemma total_weight_seeds (tm rt : option R) (ids : list Z) :
  total_weight (map (fun x => (x, new_microcluster ∅ tm 0 rt None (Some x))) ids) = 0.
Proof.
  induction ids as [|x ids IH]; [reflexivity|].
  cbn [map]. rewrite total_weight_cons, IH. simpl. lra.
Qed.

Section MacroClusters.

Variable agglomerative : Z -> list (list R) -> result (list Z).

(** X14.  When [get_macroclusters] recomputes the reclustering and returns,
    on a store with distinct keys and a current time: the representatives
    are keyed [0 .. min(num_macro, number of live clusters) - 1], their
    weights sum to the total weight of the live clusters above
    [min_weight], and the store is the one that the reclustering left: the
    merges into the representatives have not changed a live cluster. *)
Theorem X14_macroclusters_weight (self s3 : textclust) (tn : R)
    (macros : list (Z * microcluster)) :
  upToDate self = false -> t self = Some tn -> 0 <= omega self ->
  NoDup (dict_keys (microclusters self)) ->
  get_macroclusters agglomerative self = (s3, Ok macros) ->
  updateMacroClusters agglomerative self = (s3, Ok tt) /\
  dict_keys macros =
    seqZ 0 (Z.min (num_macro self) (Z.of_nat (length (microclusters s3)))) /\
  total_weight macros =
    total_weight (eligible (min_weight self) (microclusters s3)).
Proof.
  intros Hup Ht Hom Hnd. unfold get_macroclusters, bind, get, raise.
  destruct (updateMacroClusters agglomerative self) as [s2 [[]|e]] eqn:Hum;
    [|discriminate].
  destruct (updateMacroClusters_ok agglomerative self s2 Hup Hum)
    as (s1 & mapping & Hu & Hs2 & Hk & _).
  cbv zeta in Hk.
  destruct (updateweights_post self s1 Hu) as (Hs1 & Hsub & Hall).
  assert (Hmc : microclusters s2 = microclusters s1) by (rewrite Hs2; reflexivity).
  assert (Hfr : t s2 = Some tn /\ omega s2 = omega self /\
                termfading s2 = termfading self /\ realtime s2 = realtime self /\
                num_macro s2 = num_macro self /\ microToMacro s2 = Some mapping).
  { rewrite Hs2, Hs1. simpl. rewrite Ht. repeat split. }
  destruct Hfr as (Ht2 & Hom2 & Htf2 & Hrt2 & Hnm2 & Hmm2).
  rewrite Hmm2, Hnm2. intros Hrun.
  assert (Hcur : Forall (fun kv : Z * microcluster =>
                   current tn (omega s2) (termfading s2) (realtime s2) kv.2)
                   (microclusters s2)).
  { rewrite Hmc, Hom2, Htf2, Hrt2. eapply Forall_impl; [exact Hall|].
    intros kv (H1 & H2 & H3 & _). rewrite Ht in H1. split; [exact H1|].
    split; [exact H2|exact H3]. }
  apply (macro_loop_current s2 tn) in Hrun as (-> & Hkeys & Hw);
    [|exact Ht2|rewrite Hom2; exact Hom|exact Hcur|].
  - split; [reflexivity|]. split.
    + rewrite Hkeys. unfold dict_keys. rewrite map_map. simpl. apply List.map_id.
    + rewrite Hw, total_weight_seeds, Rplus_0_l. rewrite Hmc.
      apply Rsum_map_keys; [|exact Hk].
      intros [k m] Hin. simpl. apply dict_get_elem.
      * eapply sublist_NoDup; [exact Hnd|exact Hsub].
      * unfold eligible in Hin. apply list_elem_of_filter in Hin as [_ Hin]. exact Hin.
  - apply Forall_forall. intros kv Hin. apply list_elem_of_fmap in Hin as (x & -> & _).
    simpl. split; [exact Ht2|]. split; [reflexivity|].
    intros _. apply map_Forall_empty.
Qed.

End MacroClusters.

Lemma updateweights_model_two_faded :
  _updateweights model_two_faded = (model_two_faded, Ok tt).
Proof.
  apply (updateweights_current _ 2); [reflexivity|].
  repeat constructor; simpl; try discriminate.
  - apply (not_evicted_singleton _ 1 _ _ "a"%string (entry 1 1)); [reflexivity|].
    simpl. lra.
  - apply (not_evicted_singleton _ 1 _ _ "b"%string (entry 1 2)); [reflexivity|].
    simpl. lra.
Qed.

Lemma distance_matrix_model_two_faded :
  _get_distance_matrix "tfidf_cosine_distance" (microclusters model_two_faded)
  = Ok [[0; 1]; [1; 0]].
Proof.
  unfold _get_distance_matrix, model_two_faded. norm_state. cbv zeta.
  cbn [pair_dists row_dists].
  rewrite dist_no_common_term.
  - reflexivity.
  - apply (calculateIDF_covered _ 1%Z). apply list_elem_of_further, list_elem_of_here.
  - intros k. cbn [mc_tf]. destruct (decide (k = "a"%string)) as [->|Hne].
    + right. apply lookup_singleton_ne. discriminate.
    + left. apply lookup_singleton_ne. congruence.
Qed.

Lemma recluster_model_two_faded :
  updateMacroClusters one_group model_two_faded
  = (set_upToDate true
       (set_microToMacro (Some [(0%Z, 0%Z); (1%Z, 0%Z)]) model_two_faded), Ok tt).
Proof.
  cbv beta iota delta [updateMacroClusters bind get lift modify ret].
  change (upToDate model_two_faded) with false. cbv beta iota.
  rewrite updateweights_model_two_faded. cbv beta iota.
  change (min_weight model_two_faded) with 0.
  change (macro_distance model_two_faded) with "tfidf_cosine_distance"%string.
  assert (Hf : filter (fun kv : Z * microcluster => 0 < mc_weight kv.2)
                 (microclusters model_two_faded) = microclusters model_two_faded).
  { unfold model_two_faded. norm_state.
    rewrite filter_cons_True by (simpl; lra).
    rewrite filter_cons_True by (simpl; lra). reflexivity. }
  rewrite Hf. cbv beta zeta. rewrite distance_matrix_model_two_faded. reflexivity.
Qed.

Lemma macroclusters_model_two_faded :
  exists s3 macros, get_macroclusters one_group model_two_faded = (s3, Ok macros).
Proof.
  unfold get_macroclusters, bind, get. rewrite recluster_model_two_faded.
  unfold model_two_faded. norm_state.
  change (Z.min 3 (Z.of_nat 2)) with 2%Z. change (seqZ 0 2) with [0%Z; 1%Z].
  cbn [map macro_loop]. norm_state. cbn [dict_get].
  rewrite ?decide_True by reflexivity.
  unfold merge, set_merge_head, set_merge_tail, fade. norm_state.
  cbn [dict_get dict_set]. rewrite ?decide_True by reflexivity.
  rewrite ?decide_False by discriminate. rewrite ?decide_True by reflexivity.
  norm_state. cbn [dict_get dict_set]. rewrite ?decide_True by reflexivity.
  eexists _, _. reflexivity.
Qed.

Lemma X14_macroclusters_weight_witness :
  exists s3 macros,
    updateMacroClusters one_group model_two_faded = (s3, Ok tt) /\
    dict_keys macros =
      seqZ 0 (Z.min (num_macro model_two_faded)
                (Z.of_nat (length (microclusters s3)))) /\
    total_weight macros =
      total_weight (eligible (min_weight model_two_faded) (microclusters s3)).
Proof.
  destruct macroclusters_model_two_faded as (s3 & macros & Hrun).
  exists s3, macros.
  apply (X14_macroclusters_weight one_group model_two_faded s3 2 macros).
  - reflexivity.
  - reflexivity.
  - simpl. lra.
  - simpl. apply NoDup_cons. split; [|apply NoDup_singleton].
    intros H. apply list_elem_of_singleton in H. discriminate.
  - exact Hrun.
Defined.

(** ** [learn_one] does not fail on a well-formed store *)

Lemma dict_set_keys_fresh {A : Type} (l : list (Z * A)) (k : Z) (v : A) :
  k ∉ dict_keys l -> dict_keys (dict_set k v l) = dict_keys l ++ [k].
Proof.
  unfold dict_keys. induction l as [|[k' v'] l IH]; simpl; [reflexivity|].
  intros Hk. destruct (decide (k = k')) as [->|Hne].
  - exfalso. apply Hk. left.
  - simpl. rewrite IH; [reflexivity|]. intros H. apply Hk. right. exact H.
Qed.

Lemma merge_time (a b a' b' : microcluster) (tn om l : R) (tfad : bool)
    (rt : option R) :
  merge a b (Some tn) om l tfad rt = (a', b', Ok tt) ->
  mc_time a' = Some tn /\ mc_time b' = Some tn.
Proof.
  unfold merge.
  destruct (fade (set_merge_head a b rt) _ _ _ _ _) as [a2|e]; [|discriminate].
  destruct (fade b (Some tn) om l tfad rt) as [b2|e] eqn:Hb; [|discriminate].
  intros [= <- <-]. split; [reflexivity|].
  apply fade_result in Hb as [Hb _]. exact Hb.
Qed.

Lemma bounded_times_timed (l : list (Z * microcluster)) (bound : R) :
  Forall (fun kv : Z * microcluster =>
            exists tm, mc_time kv.2 = Some tm /\ tm <= bound) l ->
  Forall (fun kv : Z * microcluster => is_Some (mc_time kv.2)) l.
Proof.
  intros H. eapply Forall_impl; [exact H|]. intros kv (tm & -> & _). eauto.
Qed.

Lemma bounded_times_le (l : list (Z * microcluster)) (b1 b2 : R) :
  b1 <= b2 ->
  Forall (fun kv : Z * microcluster =>
            exists tm, mc_time kv.2 = Some tm /\ tm <= b1) l ->
  Forall (fun kv : Z * microcluster =>
            exists tm, mc_time kv.2 = Some tm /\ tm <= b2) l.
Proof.
  intros Hle H. eapply Forall_impl; [exact H|].
  intros kv (tm & Htm & Hb). exists tm. split; [exact Htm|lra].
Qed.

(** The body of [learn_one] for a non-empty observation succeeds and keeps
    the store well-formed. *)
Lemma process_observation_total (self : textclust) (ngrams : gmap string tfentry)
    (id : option Z) (bound tc : R) :
  well_formed bound self -> t self = Some tc -> bound <= tc ->
  exists s1 c,
    process_observation ngrams id self = (s1, Ok c) /\
    well_formed tc s1 /\ t s1 = t self /\ realtimefading s1 = realtimefading self /\
    n s1 = n self.
Proof.
  intros (Hmetric & Hauto & Hlam & Hnd & Hfresh & Hbnd) Ht Hle.
  pose proof (bounded_times_timed _ _ Hbnd) as Htimes.
  pose proof (bounded_times_le _ _ _ Hle Hbnd) as Hbnd'.
  set (mc := observation self ngrams id).
  set (idf := _calculateIDF (dict_values (microclusters self))).
  destruct (all_dists_total mc idf (microclusters self)) as [ds Hds].
  { intros k m Hin. apply (calculateIDF_covered _ k). exact Hin. }
  rewrite <- Hmetric in Hds.
  destruct (scan_loop_spec _ _ _ _ _ scan_init Hds)
    as (s & Hrun & _ & _ & _ & _ & _ & Hkey).
  assert (Hget : _get_closest_mc self mc idf (micro_distance self) =
                 Ok (if decide (min_dist s < radius self)
                     then smallest_key s else None, min_dist s)).
  { unfold _get_closest_mc. rewrite Hrun. simpl. rewrite Hauto. reflexivity. }
  destruct (if decide (min_dist s < radius self) then smallest_key s else None)
    as [c|] eqn:Hsel.
  - assert (Hsk : smallest_key s = Some c).
    { destruct (decide (min_dist s < radius self)); [exact Hsel|discriminate]. }
    destruct Hkey as [[_ Hk]|(_ & k & m & Hin & Hk & _)].
    { rewrite Hsk in Hk. discriminate. }
    assert (k = c) as -> by congruence.
    pose proof (dict_get_elem _ _ _ Hnd Hin) as Hg.
    destruct (merge_succeeds (set_mc_n (mc_n m + 1) m) mc tc (omega self)
                (_lambda self) (termfading self) (realtime self))
      as (m' & src' & Hm).
    { simpl. rewrite Forall_forall in Htimes. apply (Htimes (c, m)). exact Hin. }
    { simpl. rewrite Ht. eauto. }
    pose proof (merge_time _ _ _ _ _ _ _ _ _ Hm) as [Hm't _].
    rewrite <- Ht in Hm.
    eexists _, c. split.
    { apply (process_observation_found self ngrams id c (min_dist s) m m' src');
        assumption. }
    split; [|repeat split].
    split; [exact Hmetric|]. split; [exact Hauto|]. split; [exact Hlam|]. simpl.
    rewrite (dict_set_keys _ _ m) by exact Hg.
    split; [exact Hnd|]. split; [exact Hfresh|].
    apply dict_set_Forall; [exact Hbnd'|]. simpl. exists tc. split; [exact Hm't|lra].
  - pose proof (process_observation_not_found self ngrams id (min_dist s) Hget) as Hnew.
    unfold created_new in Hnew.
    eexists _, (clusterId self). split; [exact Hnew|].
    split; [|repeat split].
    split; [exact Hmetric|]. split; [exact Hauto|]. split; [exact Hlam|]. simpl.
    assert (Hnotin : clusterId self ∉ dict_keys (microclusters self)).
    { intros Hin. rewrite Forall_forall in Hfresh. specialize (Hfresh _ Hin). lia. }
    rewrite (dict_set_keys_fresh _ _ _ Hnotin).
    split; [|split].
    + apply NoDup_app. split; [exact Hnd|]. split; [|apply NoDup_singleton].
      intros k Hk Hk'. apply list_elem_of_singleton in Hk'. subst k. exact (Hnotin Hk).
    + apply Forall_app. split.
      * eapply Forall_impl; [exact Hfresh|]. intros k Hk. simpl in Hk. lia.
      * constructor; [lia|constructor].
    + apply dict_set_Forall; [exact Hbnd'|]. simpl. exists tc. split; [exact Ht|lra].
Qed.

Lemma merge_inner_total (idf : gmap string R) (thr tn om lam : R) (tfad : bool)
    (rt : option R) (rest : list (Z * microcluster)) (ci : microcluster) :
  mc_time ci = Some tn ->
  Forall (fun kv : Z * microcluster =>
            mc_time kv.2 = Some tn /\ covered idf (mc_tf kv.2)) rest ->
  exists ci' kept,
    merge_inner "tfidf_cosine_distance" idf thr (Some tn) om lam tfad rt ci rest
    = (ci', kept, Ok tt) /\
    mc_time ci' = Some tn /\
    Forall (fun kv : Z * microcluster =>
              mc_time kv.2 = Some tn /\ covered idf (mc_tf kv.2)) kept /\
    dict_keys kept `sublist_of` dict_keys rest.
Proof.
  intros Hci Hall. revert ci Hci.
  induction Hall as [|[kj cj] rest [Htj Hcj] Hall IH]; intros ci Hci;
    cbn [merge_inner].
  - exists ci, []. repeat split; [exact Hci|constructor|reflexivity].
  - simpl in Htj, Hcj. destruct (dist_covered ci cj idf Hcj) as [d Hd].
    rewrite Hd. destruct (decide (d < thr)).
    + destruct (merge_succeeds ci cj tn om lam tfad rt) as (ci' & cj' & Hm);
        [rewrite Hci; eauto|rewrite Htj; eauto|].
      rewrite Hm. pose proof (merge_time _ _ _ _ _ _ _ _ _ Hm) as [Ht' _].
      destruct (IH ci' Ht') as (ci'' & kept & Hrun & H1 & H2 & H3).
      exists ci'', kept. split; [exact Hrun|]. split; [exact H1|].
      split; [exact H2|]. simpl. apply sublist_cons. exact H3.
    + destruct (IH ci Hci) as (ci' & kept & Hrun & H1 & H2 & H3).
      rewrite Hrun. exists ci', ((kj, cj) :: kept). split; [reflexivity|].
      split; [exact H1|]. split; [constructor; [split; assumption|exact H2]|].
      simpl. apply sublist_skip. exact H3.
Qed.

Lemma merge_outer_total (idf : gmap string R) (thr tn om lam : R) (tfad : bool)
    (rt : option R) (fuel : nat) (l : list (Z * microcluster)) :
  Forall (fun kv : Z * microcluster =>
            mc_time kv.2 = Some tn /\ covered idf (mc_tf kv.2)) l ->
  exists l',
    merge_outer fuel "tfidf_cosine_distance" idf thr (Some tn) om lam tfad rt l
    = (l', Ok tt) /\
    Forall (fun kv : Z * microcluster => mc_time kv.2 = Some tn) l' /\
    dict_keys l' `sublist_of` dict_keys l.
Proof.
  revert l. induction fuel as [|fuel IH]; intros l Hall.
  - exists l. split; [destruct l; reflexivity|]. split; [|reflexivity].
    eapply Forall_impl; [exact Hall|]. intros kv [H _]. exact H.
  - destruct l as [|[ki ci] rest].
    + exists []. split; [reflexivity|]. split; [constructor|reflexivity].
    + apply Forall_cons in Hall as [[Hci _] Hall]. simpl in Hci.
      cbn [merge_outer].
      destruct (merge_inner_total idf thr tn om lam tfad rt rest ci Hci Hall)
        as (ci' & rest' & Hin & H1 & H2 & H3).
      rewrite Hin.
      destruct (IH rest' H2) as (rest'' & Hout & I1 & I2).
      rewrite Hout. exists ((ki, ci') :: rest''). split; [reflexivity|].
      split; [constructor; assumption|].
      simpl. apply sublist_skip. etransitivity; eassumption.
Qed.

Lemma sublist_keys_well_formed (l l' : list (Z * microcluster)) (cid : Z) :
  dict_keys l' `sublist_of` dict_keys l ->
  NoDup (dict_keys l) -> Forall (fun k => (k < cid)%Z) (dict_keys l) ->
  NoDup (dict_keys l') /\ Forall (fun k => (k < cid)%Z) (dict_keys l').
Proof.
  intros Hsub Hnd Hfresh. split.
  - eapply sublist_NoDup; eassumption.
  - rewrite Forall_forall in Hfresh |- *. intros k Hk.
    apply Hfresh. eapply elem_of_sublist; eassumption.
Qed.

(** The cleanup succeeds on a well-formed store whose time is not before
    the time of a live cluster, and leaves every cluster at that time. *)
Lemma cleanup_total (self : textclust) (bound tc : R) :
  well_formed bound self -> t self = Some tc -> bound <= tc ->
  exists s', _cleanup self = (s', Ok tt) /\ well_formed tc s' /\
             realtimefading s' = realtimefading self /\ n s' = n self.
Proof.
  intros (Hmetric & Hauto & Hlam & Hnd & Hfresh & Hbnd) Ht _.
  pose proof (bounded_times_timed _ _ Hbnd) as Htimes.
  unfold _cleanup, bind, get, modify, ret. simpl.
  unfold _updateweights. simpl. rewrite Ht.
  destruct (fade_all_timed _ tc (omega self) (_lambda self) (termfading self)
              (realtime self) Htimes) as [l1 Hl1].
  rewrite Hl1. simpl.
  pose proof (fade_all_keys _ _ _ _ _ _ _ Hl1) as Hk1.
  set (l2 := map (fun kv : Z * microcluster => (kv.1, set_deltaweight kv.2))
               (evict (omega self) l1)).
  assert (Hk2 : dict_keys l2 `sublist_of` dict_keys (microclusters self)).
  { rewrite <- Hk1. unfold l2, dict_keys, evict. rewrite map_map. simpl.
    apply fmap_sublist, sublist_filter. }
  assert (Ht2 : Forall (fun kv : Z * microcluster => mc_time kv.2 = Some tc) l2).
  { unfold l2. apply Forall_forall. intros kv Hin.
    apply list_elem_of_fmap in Hin as (kv0 & -> & Hin). simpl.
    unfold evict in Hin. apply list_elem_of_filter in Hin as [_ Hin].
    destruct (fade_all_elem _ _ _ _ _ _ _ _ Hl1 Hin) as (kv1 & _ & _ & Hfd).
    apply fade_result in Hfd as [Hfd _]. exact Hfd. }
  assert (Hfin : forall l3, Forall (fun kv : Z * microcluster => mc_time kv.2 = Some tc) l3 ->
            Forall (fun kv : Z * microcluster =>
                      exists tm, mc_time kv.2 = Some tm /\ tm <= tc) l3).
  { intros l3 H. eapply Forall_impl; [exact H|]. intros kv Hkv.
    exists tc. split; [exact Hkv|lra]. }
  destruct (auto_merge self).
  - unfold _mergemicroclusters. simpl. rewrite Hauto, Hmetric, Ht.
    destruct (merge_outer_total (_calculateIDF (dict_values l2)) (radius self) tc
                (omega self) (_lambda self) (termfading self) (realtime self)
                (length l2) l2) as (l3 & Hl3 & Ht3 & Hk3).
    { apply Forall_forall. intros [k m] Hin. split.
      - rewrite Forall_forall in Ht2. exact (Ht2 _ Hin).
      - apply (calculateIDF_covered _ k). exact Hin. }
    rewrite Hl3. simpl. eexists. split; [reflexivity|].
    split; [|split; reflexivity].
    split; [exact Hmetric|]. split; [exact Hauto|]. split; [exact Hlam|]. simpl.
    destruct (sublist_keys_well_formed (microclusters self) l3 (clusterId self))
      as [H1 H2]; [etransitivity; eassumption|exact Hnd|exact Hfresh|].
    split; [exact H1|]. split; [exact H2|exact (Hfin _ Ht3)].
  - simpl. eexists. split; [reflexivity|].
    split; [|split; reflexivity].
    split; [exact Hmetric|]. split; [exact Hauto|]. split; [exact Hlam|]. simpl.
    destruct (sublist_keys_well_formed (microclusters self) l2 (clusterId self))
      as [H1 H2]; [exact Hk2|exact Hnd|exact Hfresh|].
    split; [exact H1|]. split; [exact H2|exact (Hfin _ Ht2)].
Qed.

(** A model that [__init__] has built for the implemented metric, a fixed
    radius and a decay rate that is not negative is well-formed, for any
    bound: it has no cluster. *)
Lemma init_well_formed (rad lam gap : R) (tfad rtfad : bool)
    (macro : string) (nmacro : Z) (minw : R) (automerge : bool)
    (sig bound : R) (self : textclust) :
  0 <= lam ->
  __init__ rad lam gap tfad rtfad "tfidf_cosine_distance"
    macro nmacro minw false automerge sig = Ok self ->
  well_formed bound self.
Proof.
  intros Hl [= <-]. split; [reflexivity|]. split; [reflexivity|]. simpl.
  split; [exact Hl|]. split; [constructor|]. split; constructor.
Qed.

(** X15.  On a well-formed store of the fixed-radius mode (implemented
    metric, decay rate not negative, distinct keys below the next free
    id), [learn_one] with a non-empty observation, an [id] keyword and a
    time for the call (the observation counter, or the [time] argument with
    real-time fading) that is not before the time of any live cluster
    never raises: it returns a cluster id, advances the observation
    counter by one and leaves a store that is well-formed with every
    cluster time at most the time of the call, so that the next such call,
    at that time or later, does not raise either. *)
Theorem X15_learn_one_total (self : textclust) (x : gmap string R)
    (time : option R) (v : option Z) (bound tc : R) :
  well_formed bound self -> x <> ∅ ->
  call_time self time = Some tc -> bound <= tc ->
  exists s' c,
    learn_one x time (Some v) self = (s', Ok c) /\
    well_formed tc s' /\ realtimefading s' = realtimefading self /\
    n s' = (n self + 1)%Z.
Proof.
  intros Hwf Hx Htime Hle.
  rewrite (learn_one_nonempty x time v self Hx). cbv zeta.
  set (s0 := set_t (call_time self time) (set_upToDate false self)).
  assert (Hwf0 : well_formed bound s0) by exact Hwf.
  assert (Ht0 : t s0 = Some tc) by exact Htime.
  destruct (process_observation_total s0 (wrap_terms x (keyword_id v)) (keyword_id v)
              bound tc Hwf0 Ht0 Hle) as (s1 & c & Hp & Hwf1 & Ht1 & Hrt1 & Hn1).
  rewrite Hp.
  assert (Hts1 : t s1 = Some tc) by (rewrite Ht1; exact Ht0).
  assert (Hdue : exists due, cleanup_due s1 = (s1, Ok due)).
  { unfold cleanup_due. rewrite Hts1. destruct (lastCleanup s1); eauto. }
  destruct Hdue as [due ->].
  destruct due.
  - destruct (cleanup_total s1 tc tc Hwf1 Hts1 (Rle_refl tc))
      as (s2 & Hc & Hwf2 & Hrt2 & Hn2).
    rewrite Hc. exists (set_n (n s2 + 1) s2), c. split; [reflexivity|].
    split; [exact Hwf2|]. simpl. rewrite Hrt2, Hrt1, Hn2, Hn1. split; reflexivity.
  - exists (set_n (n s1 + 1) s1), c. split; [reflexivity|].
    split; [exact Hwf1|]. simpl. rewrite Hrt1, Hn1. split; reflexivity.
Qed.

Lemma X15_learn_one_total_witness :
  exists s' c,
    learn_one {[ "b"%string := 1 ]} None (Some (Some 2%Z)) model_between = (s', Ok c) /\
    well_formed 2 s' /\ realtimefading s' = realtimefading model_between /\
    n s' = (n model_between + 1)%Z.
Proof.
  apply (X15_learn_one_total model_between {[ "b"%string := 1 ]} None (Some 2%Z) 1 2).
  - split; [reflexivity|]. split; [reflexivity|]. simpl.
    split; [lra|]. split; [apply NoDup_singleton|].
    split; [repeat constructor; lia|].
    repeat constructor. simpl. exists 1. split; [reflexivity|lra].
  - apply singleton_nonempty.
  - reflexivity.
  - lra.
Defined.

(** ** The live clusters across a call of [learn_one] *)

Lemma dict_set_keys_sublist {A : Type} (l : list (Z * A)) (k : Z) (v : A) :
  dict_keys (dict_set k v l) = dict_keys l \/
  dict_keys (dict_set k v l) = dict_keys l ++ [k].
Proof.
  unfold dict_keys. induction l as [|[k' v'] l IH]; simpl.
  - right. reflexivity.
  - destruct (decide (k = k')) as [->|Hne]; [left; reflexivity|].
    simpl. destruct IH as [-> | ->]; [left|right]; reflexivity.
Qed.

Lemma merge_inner_keys (distance : string) (idf : gmap string R) (thr : R)
    (tnow : option R) (om lam : R) (tfad : bool) (rt : option R)
    (rest : list (Z * microcluster)) (ci : microcluster) :
  dict_keys (merge_inner distance idf thr tnow om lam tfad rt ci rest).1.2
    `sublist_of` dict_keys rest.
Proof.
  revert ci. induction rest as [|[kj cj] rest IH]; intros ci; cbn [merge_inner].
  - reflexivity.
  - destruct (dist distance ci cj idf) as [d|e]; [|reflexivity].
    destruct (decide (d < thr)).
    + destruct (merge ci cj tnow om lam tfad rt) as [[ci' cj'] [[]|e]].
      * simpl. apply sublist_cons. apply IH.
      * reflexivity.
    + specialize (IH ci).
      destruct (merge_inner _ _ _ _ _ _ _ _ ci rest) as [[ci' kept] r].
      simpl in *. apply sublist_skip. exact IH.
Qed.

Lemma merge_outer_keys (distance : string) (idf : gmap string R) (thr : R)
    (tnow : option R) (om lam : R) (tfad : bool) (rt : option R) (fuel : nat)
    (l : list (Z * microcluster)) :
  dict_keys (merge_outer fuel distance idf thr tnow om lam tfad rt l).1
    `sublist_of` dict_keys l.
Proof.
  revert l. induction fuel as [|fuel IH]; intros l.
  - destruct l; reflexivity.
  - destruct l as [|[ki ci] rest]; [reflexivity|]. cbn [merge_outer].
    pose proof (merge_inner_keys distance idf thr tnow om lam tfad rt rest ci) as Hin.
    destruct (merge_inner _ _ _ _ _ _ _ _ ci rest) as [[ci' rest'] r].
    simpl in Hin. destruct r as [[]|e].
    + specialize (IH rest').
      destruct (merge_outer fuel _ _ _ _ _ _ _ _ rest') as [rest'' r'].
      simpl in *. apply sublist_skip. etransitivity; eassumption.
    + simpl. apply sublist_skip. exact Hin.
Qed.

Lemma mergemicroclusters_keys (self : textclust) :
  dict_keys (microclusters (_mergemicroclusters self).1)
    `sublist_of` dict_keys (microclusters self).
Proof.
  unfold _mergemicroclusters.
  destruct (if auto_r self then _ else _) as [thr|e]; [|reflexivity].
  pose proof (merge_outer_keys (micro_distance self)
                (_calculateIDF (dict_values (microclusters self))) thr (t self)
                (omega self) (_lambda self) (termfading self) (realtime self)
                (length (microclusters self)) (microclusters self)) as H.
  destruct (merge_outer _ _ _ _ _ _ _ _ _ _) as [mcs r]. exact H.
Qed.

(** A successful cleanup removes clusters, it never adds one; it records
    the time of the cleanup. *)
Lemma cleanup_keys (self s' : textclust) :
  _cleanup self = (s', Ok tt) ->
  dict_keys (microclusters s') `sublist_of` dict_keys (microclusters self) /\
  lastCleanup s' = t self.
Proof.
  unfold _cleanup, bind, get, modify, ret. simpl.
  destruct (_updateweights (set_lastCleanup (t self) self)) as [s1 [[]|e]] eqn:Hu;
    [|discriminate].
  destruct (updateweights_post _ _ Hu) as (Hs1 & Hk1 & _). simpl in Hk1.
  set (s2 := set_microclusters
               (map (fun kv : Z * microcluster => (kv.1, set_deltaweight kv.2))
                  (microclusters s1)) s1).
  assert (Hk2 : dict_keys (microclusters s2) = dict_keys (microclusters s1)).
  { unfold s2, dict_keys. simpl. rewrite map_map. reflexivity. }
  assert (Hlc : lastCleanup s2 = t self) by (unfold s2; rewrite Hs1; reflexivity).
  destruct (auto_merge self).
  - pose proof (mergemicroclusters_keys s2) as Hk3.
    pose proof (mergemicroclusters_frame s2) as Hfr.
    destruct (_mergemicroclusters s2) as [s3 [[]|e]]; [|discriminate].
    cbn [fst] in Hk3, Hfr. intros [= <-].
    cbn [microclusters lastCleanup set_num_merged_obs set_dist_mean]. split.
    + etransitivity; [exact Hk3|]. rewrite Hk2. exact Hk1.
    + rewrite Hfr. exact Hlc.
  - intros [= <-].
    cbn [microclusters lastCleanup set_num_merged_obs set_dist_mean].
    split; [|exact Hlc]. rewrite Hk2. exact Hk1.
Qed.

Lemma process_observation_tgap (ngrams : gmap string tfentry) (id : option Z)
    (self : textclust) :
  tgap (process_observation ngrams id self).1 = tgap self.
Proof.
  unfold process_observation, bind, get, lift, modify, with_cluster, ret.
  destruct (_get_closest_mc _ _ _ _) as [[[k|] md]|e]; simpl; [| |reflexivity].
  - destruct (dict_get k (microclusters self)) as [m|]; simpl; [|reflexivity].
    rewrite dict_get_set_eq.
    destruct (merge _ _ _ _ _ _ _) as [[m' src'] [[]|e]]; reflexivity.
  - reflexivity.
Qed.

(** X17.  A call of [learn_one] that returns never adds more than one
    cluster: the keys it leaves are a subsequence of the old keys followed
    by the next free id.  When no cleanup is due for the call, no cluster is
    removed either (the keys are the old ones, or the old ones followed by
    the next free id) and [lastCleanup] keeps its value; when a cleanup is
    due, [lastCleanup] becomes the time of the call. *)
Theorem X17_learn_one_live_set (x : gmap string R) (time : option R)
    (kw : option (option Z)) (self s' : textclust) (c : Z) :
  learn_one x time kw self = (s', Ok c) ->
  dict_keys (microclusters s')
    `sublist_of` dict_keys (microclusters self) ++ [clusterId self] /\
  exists due,
    cleanup_due (set_t (call_time self time) self) = (set_t (call_time self time) self, Ok due) /\
    if due then lastCleanup s' = call_time self time
    else lastCleanup s' = lastCleanup self /\
         (dict_keys (microclusters s') = dict_keys (microclusters self) \/
          dict_keys (microclusters s') = dict_keys (microclusters self) ++ [clusterId self]).
Proof.
  destruct kw as [v|]; [|discriminate].
  destruct (decide (x = ∅)) as [->|Hx].
  { rewrite learn_one_empty. cbv zeta.
    destruct (cleanup_due _) as [s1 [[|]|e]]; [|discriminate..].
    destruct (_cleanup _) as [s2 [[]|e]]; discriminate. }
  rewrite (learn_one_nonempty x time v self Hx). cbv zeta.
  set (s0 := set_t (call_time self time) (set_upToDate false self)).
  destruct (process_observation _ _ s0) as [s1 [c1|e]] eqn:Hp; [|discriminate].
  assert (Hk1 : dict_keys (microclusters s1) = dict_keys (microclusters self) \/
                dict_keys (microclusters s1)
                = dict_keys (microclusters self) ++ [clusterId self]).
  { revert Hp. unfold process_observation, bind, get, lift, modify, with_cluster, ret.
    destruct (_get_closest_mc _ _ _ _) as [[[k|] md]|e]; simpl; [| |discriminate].
    - destruct (dict_get k (microclusters self)) as [m|] eqn:Hget; simpl;
        [|discriminate].
      rewrite dict_get_set_eq.
      destruct (merge _ _ _ _ _ _ _) as [[m' src'] [[]|e]]; simpl; [|discriminate].
      intros [= <- _]. simpl. left.
      rewrite (dict_set_keys _ _ (set_mc_n (mc_n m + 1) m)) by apply dict_get_set_eq.
      apply (dict_set_keys _ _ m). exact Hget.
    - intros [= <- _]. simpl. apply dict_set_keys_sublist. }
  pose proof (process_observation_tgap (wrap_terms x (keyword_id v)) (keyword_id v) s0)
    as Htg. rewrite Hp in Htg. cbn [fst] in Htg.
  apply process_observation_ok in Hp as (_ & Ht1 & _ & Hlc1 & _).
  assert (Hdue : forall res, cleanup_due s1 = (s1, res) ->
                             cleanup_due (set_t (call_time self time) self)
                             = (set_t (call_time self time) self, res)).
  { unfold cleanup_due. rewrite Hlc1, Ht1, Htg. simpl.
    destruct (lastCleanup self); [destruct (call_time self time)|];
      intros res [= <-]; reflexivity. }
  destruct (cleanup_due s1) as [s2 [due|e]] eqn:Hd; [|discriminate].
  pose proof (cleanup_due_state _ _ _ Hd) as ->.
  specialize (Hdue _ eq_refl).
  destruct due.
  - destruct (_cleanup s1) as [s3 [[]|e]] eqn:Hc; [|discriminate].
    apply cleanup_keys in Hc as [Hk3 Hl3].
    intros [= <- _]. simpl. split.
    + etransitivity; [exact Hk3|].
      destruct Hk1 as [-> | ->]; [apply sublist_inserts_r|]; reflexivity.
    + exists true. split; [exact Hdue|]. rewrite Hl3, Ht1. reflexivity.
  - intros [= <- _]. simpl. split.
    + destruct Hk1 as [-> | ->]; [apply sublist_inserts_r|]; reflexivity.
    + exists false. split; [exact Hdue|]. split; [rewrite Hlc1; reflexivity|exact Hk1].
Qed.

Lemma X17_learn_one_live_set_witness :
  let self := model_between in
  dict_keys (microclusters model_after_two)
    `sublist_of` dict_keys (microclusters self) ++ [clusterId self] /\
  exists due,
    cleanup_due (set_t (call_time self None) self) = (set_t (call_time self None) self, Ok due) /\
    if due then lastCleanup model_after_two = call_time self None
    else lastCleanup model_after_two = lastCleanup self /\
         (dict_keys (microclusters model_after_two) = dict_keys (microclusters self) \/
          dict_keys (microclusters model_after_two)
          = dict_keys (microclusters self) ++ [clusterId self]).
Proof.
  exact (X17_learn_one_live_set _ _ _ _ _ _ learn_one_second).
Defined.

(** ** [predict_one] in micro mode does not fail *)

(** X18.  With the implemented metric and a decay rate that is not
    negative, on a store that is empty or has a current time that is not
    before the time of any live cluster, [predict_one] in micro mode never
    raises: it returns a key or [None]. *)
Theorem X18_predict_one_micro_total (x : gmap string R) (self : textclust) :
  micro_distance self = "tfidf_cosine_distance"%string ->
  0 <= _lambda self ->
  (microclusters self = [] \/
   exists tn, t self = Some tn /\
     Forall (fun kv : Z * microcluster =>
               exists tm, mc_time kv.2 = Some tm /\ tm <= tn) (microclusters self)) ->
  exists s1 r, predict_one x "micro" self = (s1, Ok r).
Proof.
  intros Hmetric _ Hstore.
  assert (Hu : exists s1, _updateweights self = (s1, Ok tt)).
  { unfold _updateweights. destruct Hstore as [->|(tn & -> & Hbnd)].
    - simpl. eauto.
    - destruct (fade_all_timed _ tn (omega self) (_lambda self) (termfading self)
                  (realtime self) (bounded_times_timed _ _ Hbnd)) as [l' Hl'].
      rewrite Hl'. eauto. }
  destruct Hu as [s1 Hu].
  pose proof (updateweights_frame self) as Hframe. rewrite Hu in Hframe.
  simpl in Hframe.
  assert (Hm1 : micro_distance s1 = "tfidf_cosine_distance"%string).
  { rewrite Hframe. exact Hmetric. }
  unfold predict_one, get_assignment, bind, get, lift, ret. rewrite Hu.
  destruct (decide (0 < size (wrap_terms x None))%nat); [|eauto].
  rewrite Hm1.
  destruct (nearest_loop_total (min_weight s1)
              (new_microcluster (wrap_terms x None) (Some 1) 1 (realtime s1) None None)
              (_calculateIDF (dict_values (microclusters s1)))
              (microclusters s1) None None) as [r Hr].
  { intros k m Hin. apply (calculateIDF_covered _ k). exact Hin. }
  rewrite Hr. rewrite decide_True by reflexivity. eauto.
Qed.

Lemma X18_predict_one_micro_total_witness :
  exists s1 r,
    predict_one {[ "b"%string := 1 ]} "micro" model_after_two = (s1, Ok r).
Proof.
  apply X18_predict_one_micro_total.
  - reflexivity.
  - simpl. lra.
  - right. exists 2. split; [reflexivity|].
    repeat constructor; simpl.
    + exists 1. split; [reflexivity|lra].
    + exists 2. split; [reflexivity|lra].
Defined.

(** ** Fading keeps the distances *)











(** ** The lifetime of an untouched cluster *)

Lemma Rpower_2_le_iff (x y : R) : Rpower 2 x <= Rpower 2 y <-> x <= y.
Proof.
  split.
  - intros H. destruct (Rle_lt_dec x y) as [|Hlt]; [assumption|].
    pose proof (Rpower_lt 2 y x ltac:(lra) Hlt). lra.
  - intros [Hlt| ->]; [|lra]. left. apply Rpower_lt; lra.
Qed.

(** X20.  In a model that [__init__] has built with a decay rate and a
    cleanup interval whose product lies between [2^-50] and 1022 (where
    [2 ** (-_lambda * tgap)] is a normal binary64 number below 1),
    [omega] is the weight to which a weight of 1 fades in [tgap] time
    units: a cluster of weight 1 (as [learn_one] creates it) that is faded
    from its time [tm] to a later time [tn] has a weight at or below
    [omega], the bound at which [_updateweights] deletes it, exactly when
    at least [tgap] time units have passed. *)
Theorem X20_eviction_horizon (rad lam gap : R) (tfad rtfad : bool)
    (micro macro : string) (nmacro : Z) (minw : R) (autor automerge : bool)
    (sig : R) (self : textclust) (m m' : microcluster) (tm tn : R) (k : Z) :
  __init__ rad lam gap tfad rtfad micro macro nmacro minw autor automerge sig
    = Ok self ->
  0 < lam -> / 2 ^ 50 <= lam * gap <= 1022 -> tm <= tn ->
  mc_time m = Some tm -> mc_weight m = 1 ->
  fade m (Some tn) (omega self) (_lambda self) (termfading self) (realtime self)
    = Ok m' ->
  omega self = fade_value 1 lam gap 0 /\
  (mc_weight m' <= omega self <-> gap <= tn - tm) /\
  (gap <= tn - tm -> evicted (omega self) (k, m')).
Proof.
  intros [= <-] Hl _ _ Ht Hw Hf. simpl in *.
  destruct (fade_weight _ _ _ _ _ _ _ _ Ht Hf) as [Hw' _].
  assert (Hom : Rpower 2 (-1 * lam * gap) = fade_value 1 lam gap 0).
  { unfold fade_value. rewrite Rmult_1_l. f_equal. lra. }
  assert (Hiff : mc_weight m' <= Rpower 2 (-1 * lam * gap) <-> gap <= tn - tm).
  { rewrite Hw', Hw. unfold fade_value. rewrite Rmult_1_l, Rpower_2_le_iff.
    split; intros H; nra. }
  split; [exact Hom|]. split; [exact Hiff|].
  intros H. left. simpl. apply Hiff. exact H.
Qed.

Lemma X20_eviction_horizon_witness :
  omega (fresh_model 1 false "tfidf_cosine_distance") = fade_value 1 1 1 0 /\
  (/ 2 <= omega (fresh_model 1 false "tfidf_cosine_distance") <-> 1 <= 2 - 1) /\
  (1 <= 2 - 1 ->
   evicted (omega (fresh_model 1 false "tfidf_cosine_distance"))
     (0%Z, mk_microcluster (Some 0%Z) (/ 2) (Some 2)
             {[ "a"%string := entry 1 1 ]} 0 0 None [Some 1%Z] 1)).
Proof.
  apply (X20_eviction_horizon 1 1 1 false false "tfidf_cosine_distance"
           "tfidf_cosine_distance" 3 0 false true 1
           (fresh_model 1 false "tfidf_cosine_distance")
           (one_term_cluster 1 1 1)
           (mk_microcluster (Some 0%Z) (/ 2) (Some 2)
              {[ "a"%string := entry 1 1 ]} 0 0 None [Some 1%Z] 1) 1 2 0).
  - reflexivity.
  - lra.
  - split; [|lra]. rewrite Rmult_1_l, <- Rinv_1.
    apply Rinv_le_contravar; [lra|]. apply pow_R1_Rle. lra.
  - lra.
  - reflexivity.
  - reflexivity.
  - unfold fade. simpl. rewrite fade_value_one_step. reflexivity.
Defined.


(** * The merge decision on concrete stores *)

(** ** How the stores arise *)

Lemma fresh_adaptive_init :
  __init__ 1 1 3 false false "tfidf_cosine_distance" "tfidf_cosine_distance"
    3 0 true true 1 = Ok fresh_adaptive.
Proof. reflexivity. Qed.

Lemma fresh_wide_init :
  __init__ 2 1 3 false false "tfidf_cosine_distance" "tfidf_cosine_distance"
    3 0 false true 1 = Ok fresh_wide.
Proof. reflexivity. Qed.

Lemma learn_one_adaptive_first :
  learn_one {[ "a"%string := 1 ]} None (Some (Some 1%Z)) fresh_adaptive
  = (adaptive_after_one, Ok 0%Z).
Proof.
  unfold fresh_adaptive, learn_one, bind, lift, modify, ret. norm_state.
  rewrite decide_True by (apply wrap_terms_size, singleton_nonempty).
  unfold process_observation, bind, get, lift, modify, ret, _get_closest_mc.
  norm_state. cbn [scan_loop rbind scan_init min_dist smallest_key counter].
  rewrite (decide_False (P := (1 < 0)%Z)) by lia. norm_state. cbn [dict_set].
  unfold cleanup_due. norm_state. rewrite bool_decide_eq_false_2 by lra.
  norm_state.
  unfold adaptive_after_one, wrap_terms, entry. rewrite map_fmap_singleton.
  rewrite decide_False by lia.
  rewrite omega_interval_3, insert_empty, Rplus_0_l.
  replace (1 + 1)%Z with 2%Z by lia. reflexivity.
Qed.

Lemma learn_one_wide_first :
  learn_one {[ "a"%string := 1 ]} None (Some (Some 1%Z)) fresh_wide
  = (wide_after_one, Ok 0%Z).
Proof.
  unfold fresh_wide, learn_one, bind, lift, modify, ret. norm_state.
  rewrite decide_True by (apply wrap_terms_size, singleton_nonempty).
  unfold process_observation, bind, get, lift, modify, ret, _get_closest_mc.
  norm_state. cbn [scan_loop rbind scan_init min_dist smallest_key].
  rewrite (decide_True (P := 1 < 2)) by lra. norm_state. cbn [dict_set].
  unfold cleanup_due. norm_state. rewrite bool_decide_eq_false_2 by lra.
  norm_state.
  unfold wide_after_one, wrap_terms, entry. rewrite map_fmap_singleton.
  rewrite decide_False by lia.
  rewrite omega_interval_3, insert_empty, Rplus_0_l.
  replace (1 + 1)%Z with 2%Z by lia. reflexivity.
Qed.

Lemma learn_one_adaptive_second :
  learn_one {[ "b"%string := 1 ]} None (Some (Some 2%Z)) adaptive_after_one
  = (adaptive_after_two, Ok 1%Z).
Proof.
  unfold adaptive_after_one, learn_one, bind, lift, modify, ret. norm_state.
  rewrite decide_True by (apply wrap_terms_size, singleton_nonempty).
  unfold process_observation, bind, get, lift, modify, ret, _get_closest_mc.
  norm_state. cbn [scan_loop].
  rewrite dist_disjoint_terms.
  2:{ apply (calculateIDF_covered
               [(0%Z, mk_microcluster (Some 0%Z) 1 (Some 1)
                        {[ "a"%string := entry 1 1 ]} 0 0 None [Some 1%Z] 1)] 0).
      apply list_elem_of_here. }
  2:{ intros k [e Hk]. cbn [mc_tf] in Hk. unfold wrap_terms in Hk.
      rewrite map_fmap_singleton in Hk.
      apply lookup_singleton_Some in Hk as [<- _].
      unfold _calculateIDF. rewrite lookup_fmap. cbn [dict_values map snd foldl].
      rewrite count_terms_lookup. cbn [mc_tf].
      rewrite lookup_singleton_ne by discriminate. rewrite lookup_empty. reflexivity. }
  cbn [rbind scan_loop scan_step scan_init min_dist smallest_key counter].
  rewrite (decide_False (P := (1 < 0 + 1)%Z)) by lia. norm_state.
  assert (Hd : forall (A : Type) (x y : A), (if decide (1 < 1) then x else y) = y)
    by (intros; apply decide_False; lra).
  rewrite !Hd. norm_state. cbn [dict_set].
  rewrite decide_False by lia.
  unfold cleanup_due. norm_state. rewrite bool_decide_eq_false_2 by lra.
  norm_state.
  unfold adaptive_after_two, wrap_terms, entry. rewrite map_fmap_singleton.
  rewrite decide_False by lia.
  replace (1 + 1) with 2 by lra.
  replace (1 + 1)%Z with 2%Z by lia. replace (2 + 1)%Z with 3%Z by lia.
  reflexivity.
Qed.


Lemma timed_store_wide_after_one : timed_store wide_after_one.
Proof.
  split; [|split]; simpl.
  - apply NoDup_singleton.
  - eauto.
  - repeat constructor. simpl. eauto.
Qed.

(** ** The adaptive mode merges *)





(** ** A radius above 1 does not force a merge *)


